(** * docker-e2e testkit: machine provisioning and swarm bootstrap

    A shallow embedding of [testkit/machines] (the virsh driver) and of the
    [create] command of [testkit/cmd], with the properties of the design
    document stated and settled against it.

    Conventions.
    - Go [int] and durations are [Z]; durations are in milliseconds.
    - Go [string] is [string]; [error] is [option Err] ([None] is [nil]).
    - Everything outside the process (hypervisor tooling, the remote shell,
      the engine API, the file system, the random source) is an explicit
      environment [Env] consulted on the current [World]; the world keeps
      the files, a clock and the trace of what the process did.
    - Time passes by what each answer says it took and by sleeps. A
      goroutine raced against a timer is followed until it delivers or the
      timer is due; what it does after its caller has returned is not
      followed.
    - The order in which the readiness goroutines and their creator run is
      a schedule given to [NewVirshMachines]. The readiness goroutines run
      side by side: each has its own clock, and their creator goes on at
      the time the last of them has called [wg.Done()]. *)

From Stdlib Require Import ZArith NArith String Ascii List Lia Bool.
From stdpp Require Import base list strings gmap.

Open Scope string_scope.
Open Scope Z_scope.

(** ** Text rendering: the [fmt] verbs used by the driver *)

Module Fmt.

(** One digit of [%d] (base 10) or [%X] (base 16, upper case). *)
Definition digitChar (d : N) : ascii :=
  match d with
  | 0 => "0" | 1 => "1" | 2 => "2" | 3 => "3" | 4 => "4" | 5 => "5"
  | 6 => "6" | 7 => "7" | 8 => "8" | 9 => "9" | 10 => "A" | 11 => "B"
  | 12 => "C" | 13 => "D" | 14 => "E" | _ => "F"
  end%N%char.

(** Digits of [n] in base [b], most significant first. [fuel] bounds the
    number of digits; [N.size_nat n] is always enough for [b >= 2]. *)
Fixpoint digitsGo (fuel : nat) (b n : N) (acc : list N) : list N :=
  match fuel with
  | O => n :: acc
  | S fuel' =>
      if (n <? b)%N then n :: acc
      else digitsGo fuel' b (n / b)%N ((n mod b)%N :: acc)
  end.

Definition digits (b n : N) : list N := digitsGo (N.size_nat n) b n [].

Definition render (b n : N) : string :=
  string_of_list_ascii (map digitChar (digits b n)).

(** [%d] on a Go [int]. *)
Definition decimal (z : Z) : string :=
  if z <? 0 then "-" +:+ render 10 (Z.to_N (- z)) else render 10 (Z.to_N z).

(** [%X] on a [*big.Int]; a nil pointer prints as [<nil>]. *)
Definition hexUpper (x : option N) : string :=
  match x with
  | Some n => render 16 n
  | None => "<nil>"
  end.

(** Value denoted by a digit list. *)
Definition valueOf (b : N) (ds : list N) : N :=
  fold_left (fun a d => (a * b + d)%N) ds 0%N.

Definition dash : ascii := "-"%char.

(** A string in which no dash occurs. *)
Fixpoint dashFree (s : string) : bool :=
  match s with
  | EmptyString => true
  | String c s' => negb (Ascii.eqb c dash) && dashFree s'
  end.

End Fmt.

(** ** Names of a batch (from [NewVirshMachines]) *)

Section Names.
(** [NamePrefix] is a constant of the package declared outside the
    driver file. *)
Variable NamePrefix : string.

(** [fmt.Sprintf("%s-%X-%d", NamePrefix, id, index)] *)
Definition machineName (id : option N) (index : Z) : string :=
  NamePrefix +:+ "-" +:+ Fmt.hexUpper id +:+ "-" +:+ Fmt.decimal index.

(** The names given by the creation loop
    [for index := 0; index < linuxCount; index++]. *)
Definition batchNames (id : option N) (linuxCount : Z) : list string :=
  map (fun i => machineName id (Z.of_nat i)) (seq 0 (Z.to_nat linuxCount)).
End Names.

(** ** Go library functions used by the driver *)

Module GoStrings.

(** [strings.TrimSpace], on the ASCII white space the tools print. *)
Fixpoint trimLeft (s : string) : string :=
  match s with
  | EmptyString => EmptyString
  | String c s' => if Ascii.is_space c then trimLeft s' else s
  end.

Definition TrimSpace (s : string) : string :=
  String.rev (trimLeft (String.rev (trimLeft s))).

(** [strings.Split(s, "\n")]: the lines of [s]; never empty. *)
Fixpoint splitGo (cur : string) (s : string) : list string :=
  match s with
  | EmptyString => [String.rev cur]
  | String c s' =>
      if Ascii.eqb c "010"%char then String.rev cur :: splitGo EmptyString s'
      else splitGo (String c cur) s'
  end.

Definition SplitLines (s : string) : list string := splitGo EmptyString s.

(** The text begins, or ends, with white space. *)
Definition leadingSpace (s : string) : bool :=
  match s with
  | EmptyString => false
  | String c _ => Ascii.is_space c
  end.

Definition trailingSpace (s : string) : bool := leadingSpace (String.rev s).

(** The character [34], written without a literal quote. *)
Definition dquote : string := String (ascii_of_nat 34) EmptyString.

End GoStrings.

(** ** Errors *)

Inductive Err : Type :=
| ExitError (status : Z)   (* [*exec.ExitError]: the process ran and failed *)
| SysError (msg : string)  (* an error of [os], [io], [tls] or a client library *)
| Errorf (msg : string).   (* built by [fmt.Errorf] or [errors.New] *)

(** The [Error()] text. *)
Definition errString (e : Err) : string :=
  match e with
  | ExitError n => "exit status " +:+ Fmt.decimal n
  | SysError m => m
  | Errorf m => m
  end.

Global Instance Err_eq_dec : EqDecision Err.
Proof. solve_decision. Defined.

(** ** The machine record *)

Record TLSConfig := {
  Certificates : string * string;   (* contents of cert.pem and key.pem *)
  RootCAs : string;                 (* contents of ca.pem *)
  InsecureSkipVerify : bool
}.

Record VirshMachine := {
  MachineName : string;
  dockerHost : string;
  tlsConfig : option TLSConfig;
  sshKeyPath : string;
  sshUser : string;
  ip : string;
  internalip : string;
  BaseDisk : string;
  DiskPath : string;
  CPUCount : Z;
  Memory : Z
}.

Definition setMachineName (m : VirshMachine) (v : string) : VirshMachine :=
  {| MachineName := v; dockerHost := dockerHost m; tlsConfig := tlsConfig m;
     sshKeyPath := sshKeyPath m; sshUser := sshUser m; ip := ip m;
     internalip := internalip m; BaseDisk := BaseDisk m;
     DiskPath := DiskPath m; CPUCount := CPUCount m; Memory := Memory m |}.

Definition setDiskPath (m : VirshMachine) (v : string) : VirshMachine :=
  {| MachineName := MachineName m; dockerHost := dockerHost m;
     tlsConfig := tlsConfig m; sshKeyPath := sshKeyPath m;
     sshUser := sshUser m; ip := ip m; internalip := internalip m;
     BaseDisk := BaseDisk m; DiskPath := v; CPUCount := CPUCount m;
     Memory := Memory m |}.

Definition setTLSConfig (m : VirshMachine) (v : TLSConfig) : VirshMachine :=
  {| MachineName := MachineName m; dockerHost := dockerHost m;
     tlsConfig := Some v; sshKeyPath := sshKeyPath m; sshUser := sshUser m;
     ip := ip m; internalip := internalip m; BaseDisk := BaseDisk m;
     DiskPath := DiskPath m; CPUCount := CPUCount m; Memory := Memory m |}.

(** The three assignments made when the address is discovered in [Start]. *)
Definition setAddress (m : VirshMachine) (addr : string) : VirshMachine :=
  {| MachineName := MachineName m;
     dockerHost := "tcp://" +:+ addr +:+ ":2376";
     tlsConfig := tlsConfig m; sshKeyPath := sshKeyPath m;
     sshUser := sshUser m; ip := addr; internalip := addr;
     BaseDisk := BaseDisk m; DiskPath := DiskPath m; CPUCount := CPUCount m;
     Memory := Memory m |}.

(** Package variables [VirshDiskDir] and [VirshOS]. *)
Record Globals := {
  VirshDiskDir : string;
  VirshOS : string
}.

(** Their declared values. *)
Definition declaredGlobals : Globals :=
  {| VirshDiskDir := "/e2e"; VirshOS := "ubuntu16.04" |}.

(** ** The world outside the process *)

Inductive Level := LInfo | LWarn | LError.

(** Calls on an engine API client. *)
Inductive ApiCall :=
| SwarmInit (listenAddr advertiseAddr : string)
| SwarmInspect
| Info
| SwarmJoin (listenAddr : string) (remoteAddrs : list string) (joinToken : string).

(** What the process did, oldest first. Debug-level logging is not recorded. *)
Inductive Event :=
| EvExec (argv : list string) (err : option Err) (out : string)
| EvWriteFile (path : string) (err : option Err)
| EvRemoveFile (path : string) (err : option Err)
| EvSleep (ms : Z)
| EvLog (level : Level) (msg : string)
| EvVerify (name : string) (res : option Err)
| EvApi (host : string) (call : ApiCall) (err : option Err)
| EvPrint (line : string).

Record World := {
  files : gmap string string;   (* path to contents *)
  clock : Z;                    (* milliseconds *)
  trace : list Event
}.

(** Answer of a subprocess run with [CombinedOutput]. *)
Record Resp := {
  rerr : option Err;
  rout : string;
  rtook : Z
}.

(** Answer of an engine API call; the payload fields are those the command
    reads: [JoinTokens.Worker] of [SwarmInspect] and the addresses of
    [Swarm.RemoteManagers] of [Info]. *)
Record ApiResp := {
  aerr : option Err;
  workerToken : string;
  remoteManagers : list string;
  atook : Z
}.

(** How [ioutil.WriteFile] ends: it opens with create and truncate, writes,
    and closes; a failure at the open leaves the path as it was, a failure
    later leaves whatever had been written. *)
Inductive WriteOutcome :=
| WriteOk
| WriteFailed (e : Err) (left : option string).

Record Env := {
  getenv : string -> string;                       (* [os.Getenv] *)
  execCmd : World -> list string -> Resp;          (* a subprocess *)
  execFiles : World -> list string -> gmap string string;
                                    (* the files once the subprocess is done *)
  writeOutcome : World -> string -> string -> WriteOutcome;
  x509KeyPair : string -> string -> option Err;    (* parsing of the pair *)
  randInt : World -> N -> option N;                (* [rand.Int]; [None]: error *)
  verifyDockerEngine : World -> VirshMachine -> string -> Resp;
                         (* [VerifyDockerEngine], defined outside this file *)
  newClient : string -> option Err;                (* [client.NewClient] *)
  engineCall : World -> string -> ApiCall -> ApiResp;
  timerWinsTie : bool   (* a [select] with a send and a timer ready at once *)
}.

(** Functions of the Go library whose text is not part of the driver. *)
Record GoLib := {
  path_Dir : string -> string;
  filepath_Join : list string -> string;
(** [regexp.MustCompile(p).FindStringSubmatch(s)] for a pattern with one
    group: the text of the group when [s] matches. *)
regexp_group1 : string -> string -> option string;
template_Parse : string -> option Err;
template_Execute : string -> VirshMachine -> Err + string
}.

Definition domainXMLTemplate : string :=
"<domain type='kvm'>
  <name>{{.MachineName}}</name> <memory unit='M'>{{.Memory}}</memory>
  <vcpu>{{.CPUCount}}</vcpu>
  <features><acpi/><apic/><pae/></features>
  <cpu mode='host-passthrough'></cpu>
  <os>
    <type>hvm</type>
    <boot dev='hd'/>
    <bootmenu enable='no'/>
  </os>
  <devices>
    <disk type='file' device='disk'>
      <driver name='qemu' type='qcow2' cache='unsafe' io='threads' />
      <source file='{{.DiskPath}}'/>
      <target dev='vda' bus='virtio'/>
    </disk>
    <graphics type='vnc' autoport='yes' listen='127.0.0.1'>
      <listen type='address' address='127.0.0.1'/>
    </graphics>
    <interface type='network'>
      <source network='default'/>
      <model type='virtio'/>
    </interface>
  </devices>
</domain>".

(** ** Primitive effects *)

Definition record (e : Event) (w : World) : World :=
  {| files := files w; clock := clock w; trace := trace w ++ [e] |}.

Definition elapse (d : Z) (w : World) : World :=
  {| files := files w; clock := clock w + Z.max 0 d; trace := trace w |}.

Definition logAt (l : Level) (msg : string) (w : World) : World :=
  record (EvLog l msg) w.

(** [time.Sleep] *)
Definition sleep (ms : Z) (w : World) : World :=
  elapse ms (record (EvSleep ms) w).

(** [os.Stat(p)] without error. *)
Definition fileExists (w : World) (p : string) : bool :=
  bool_decide (is_Some (files w !! p)).

(** [os.Remove]: an existing file goes away; a missing one is an error. *)
Definition osRemove (p : string) (w : World) : option Err * World :=
  match files w !! p with
  | Some _ =>
      (None, record (EvRemoveFile p None)
               {| files := delete p (files w); clock := clock w;
                  trace := trace w |})
  | None =>
      let e := SysError ("remove " +:+ p +:+ ": no such file or directory") in
      (Some e, record (EvRemoveFile p (Some e)) w)
  end.

(** ** The virsh driver *)

Section Driver.
Variable lib : GoLib.
Variable env : Env.
Variable NamePrefix : string.

(** [exec.Command(argv...).CombinedOutput()] *)
Definition exec (argv : list string) (w : World) : Resp * World :=
  let r := execCmd env w argv in
  (r, elapse (rtook r)
        (record (EvExec argv (rerr r) (rout r))
           {| files := execFiles env w argv; clock := clock w;
              trace := trace w |})).

(** [ioutil.WriteFile(p, data, 0644)] *)
Definition writeFile (p data : string) (w : World) : option Err * World :=
  match writeOutcome env w p data with
  | WriteOk =>
      (None, record (EvWriteFile p None)
               {| files := <[p := data]> (files w); clock := clock w;
                  trace := trace w |})
  | WriteFailed e None => (Some e, record (EvWriteFile p (Some e)) w)
  | WriteFailed e (Some part) =>
      (Some e, record (EvWriteFile p (Some e))
                 {| files := <[p := part]> (files w); clock := clock w;
                    trace := trace w |})
  end.

(** [ioutil.ReadFile] *)
Definition readFile (p : string) (w : World) : Err + string :=
  match files w !! p with
  | Some data => inr data
  | None => inl (SysError ("open " +:+ p +:+ ": no such file or directory"))
  end.

(** [tls.LoadX509KeyPair(certFile, keyFile)] *)
Definition LoadX509KeyPair (certFile keyFile : string) (w : World)
  : Err + (string * string) :=
  match readFile certFile w with
  | inl e => inl e
  | inr cert =>
      match readFile keyFile w with
      | inl e => inl e
      | inr key =>
          match x509KeyPair env cert key with
          | Some e => inl e
          | None => inr (cert, key)
          end
      end
  end.

(** Which of a timer set for [deadline] and a send made at [t] the
    waiting [select] takes. *)
Definition timerFirst (deadline t : Z) : bool :=
  (deadline <? t) || ((deadline =? t) && timerWinsTie env).

(** The caller resumes when its timer fires; what the abandoned goroutine
    had issued stays in the trace. *)
Definition expire (deadline : Z) (w : World) : World :=
  {| files := files w; clock := deadline; trace := trace w |}.

(** *** [init] *)
Definition init (g : Globals) : Globals :=
  let baseOS := getenv env "VIRSH_OS" in
  {| VirshDiskDir := getenv env "VIRSH_DISK_DIR";
     VirshOS := if String.eqb baseOS "" then VirshOS g else baseOS |}.

(** *** [getActiveMachines] *)
Definition nameRegex : string := "\s+(\S+)\s+running".

Definition getActiveMachines (w : World) : list string * World :=
  let '(r, w1) := exec ["virsh"; "-q"; "list"] w in
  let w2 :=
    match rerr r with
    | Some e =>
        logAt LInfo ("Failed to get list - assuming no VMs: %s" +:+ errString e) w1
    | None => w1
    end in
  (flat_map
     (fun line =>
        match regexp_group1 lib nameRegex (GoStrings.TrimSpace line) with
        | Some name => [name]
        | None => []
        end)
     (GoStrings.SplitLines (rout r)),
   w2).

(** *** [cloneDisk] *)
Definition linkedCloneName (m : VirshMachine) : string :=
  filepath_Join lib [path_Dir lib (BaseDisk m); MachineName m +:+ ".qcow2"].

Definition cloneCommand (m : VirshMachine) : list string :=
  ["qemu-img"; "create"; "-f"; "qcow2"; "-o"; "backing_fmt=qcow2"; "-b";
   BaseDisk m; linkedCloneName m].

Definition cloneDisk (m : VirshMachine) (w : World)
  : option Err * VirshMachine * World :=
  if fileExists w (linkedCloneName m) then
    (Some (Errorf ("Linked clone " +:+ linkedCloneName m +:+ " of base disk "
                   +:+ BaseDisk m +:+ " already exists!")), m, w)
  else
    let '(r, w1) := exec (cloneCommand m) w in
    let out := GoStrings.TrimSpace (rout r) in
    match rerr r with
    | Some e =>
        (Some (Errorf ("Failed to create linked clone " +:+ linkedCloneName m
                       +:+ " on " +:+ BaseDisk m +:+ ": " +:+ out +:+ ": "
                       +:+ errString e)), m, w1)
    | None => (None, setDiskPath m (linkedCloneName m), w1)
    end.

(** *** [define] *)
Definition defFile (m : VirshMachine) : string :=
  filepath_Join lib [path_Dir lib (DiskPath m); MachineName m +:+ ".xml"].

Definition define (m : VirshMachine) (w : World) : option Err * World :=
  match template_Parse lib domainXMLTemplate with
  | Some e => (Some e, w)
  | None =>
      match template_Execute lib domainXMLTemplate m with
      | inl e => (Some e, w)
      | inr xml =>
          let '(werr, w1) := writeFile (defFile m) xml w in
          match werr with
          | Some e => (Some e, w1)
          | None =>
              (* from here on [defer os.Remove(defFile)] is registered *)
              let '(r, w2) := exec ["virsh"; "define"; defFile m] w1 in
              let out := GoStrings.TrimSpace (rout r) in
              let res :=
                match rerr r with
                | Some e =>
                    Some (Errorf ("Failed to create " +:+ MachineName m +:+ ": "
                                  +:+ errString e +:+ ": " +:+ out))
                | None => None
                end in
              (res, snd (osRemove (defFile m) w2))
          end
      end
  end.

(** *** [GetName], [IsRunning] *)
Definition GetName (m : VirshMachine) : string := MachineName m.

Definition IsRunning (m : VirshMachine) (w : World) : bool * World :=
  let '(names, w1) := getActiveMachines w in
  (existsb (String.eqb (MachineName m)) names, w1).

(** *** [MachineSSH] *)
Definition sshArgs (m : VirshMachine) (command : string) : list string :=
  ["ssh"; "-q";
   "-o"; "StrictHostKeyChecking=no";
   "-o"; "GlobalKnownHostsFile=/dev/null";
   "-o"; "UserKnownHostsFile=/dev/null";
   "-o"; "UpdateHostKeys=no";
   "-o"; "CheckHostIP=no";
   "-o"; "ConnectTimeout=8";
   "-o"; "VerifyHostKeyDNS=no";
   "-i"; sshKeyPath m;
   sshUser m +:+ "@" +:+ ip m;
   command].

Definition MachineSSH (m : VirshMachine) (command : string) (w : World)
  : string * option Err * World :=
  let '(r, w1) := exec (sshArgs m command) w in
  (GoStrings.TrimSpace (rout r), rerr r, w1).

(** *** [Stop] *)
Definition Stop (m : VirshMachine) (w : World) : option Err * World :=
  let '(r, w1) := exec ["virsh"; "shutdown"; MachineName m] w in
  match rerr r with
  | Some e => (Some e, logAt LError (rout r) w1)
  | None => (None, w1)
  end.

(** *** [Kill] *)
Definition verifyTimeout (name : string) : Err :=
  Errorf ("Unable to verify docker engine on " +:+ name +:+ " within timeout").

(** How far a polling goroutine got while its caller was still waiting:
    it delivered on its channel, or the caller's timer was due first. *)
Inductive Poll :=
| Delivered (m : VirshMachine) (w : World)
| Expired (m : VirshMachine) (w : World).

(** Rounds a poller that sleeps [every] ms between attempts can begin
    before [limit] ms have passed. *)
Definition rounds (limit every : Z) : nat := S (Z.to_nat (limit / every)).

(** The goroutine of [Kill]: ask whether the machine runs, every 500ms. *)
Fixpoint killPoll (fuel : nat) (deadline : Z) (m : VirshMachine) (w : World)
  : Poll :=
  match fuel with
  | O => Expired m w
  | S fuel' =>
      if deadline <=? clock w then Expired m w
      else
        let '(running, w1) := IsRunning m w in
        if negb running then Delivered m w1
        else killPoll fuel' deadline m (sleep 500 w1)
  end.

(** The [select] on the goroutine's channel and the timer. *)
Definition awaitPoll (deadline : Z) (name : string) (p : Poll)
  : option Err * VirshMachine * World :=
  match p with
  | Delivered m w =>
      if timerFirst deadline (clock w)
      then (Some (verifyTimeout name), m, expire deadline w)
      else (None, m, w)
  | Expired m w => (Some (verifyTimeout name), m, expire deadline w)
  end.

Definition Kill (m : VirshMachine) (w : World) : option Err * World :=
  let '(r, w1) := exec ["virsh"; "destroy"; MachineName m] w in
  match rerr r with
  | Some e => (Some e, logAt LError (rout r) w1)
  | None =>
      let deadline := clock w1 + 60000 in
      let '(res, _, w2) :=
        awaitPoll deadline (MachineName m)
          (killPoll (rounds 60000 500) deadline m w1) in
      (res, w2)
  end.

(** *** [Start] *)
Definition ipRegex : string := "ipv4\s+([^/]+)".

(** First loop of the goroutine of [Start]: query the address every
    second until the first line of the answer shows one. *)
Fixpoint waitForIP (fuel : nat) (deadline : Z) (m : VirshMachine) (w : World)
  : Poll :=
  match fuel with
  | O => Expired m w
  | S fuel' =>
      if deadline <=? clock w then Expired m w
      else
        let '(r, w1) := exec ["virsh"; "-q"; "domifaddr"; GetName m] w in
        let out := GoStrings.TrimSpace (rout r) in
        let found :=
          match rerr r with
          | None =>
              match GoStrings.SplitLines out with
              | line :: _ => regexp_group1 lib ipRegex line
              | [] => None
              end
          | Some _ => None
          end in
        match found with
        | Some addr => Delivered (setAddress m addr) w1
        | None => waitForIP fuel' deadline m (sleep 1000 w1)
        end
  end.

(** Second loop: [uptime] over the remote shell, every 500ms after a
    failure. *)
Fixpoint waitForSSH (fuel : nat) (deadline : Z) (m : VirshMachine) (w : World)
  : Poll :=
  match fuel with
  | O => Expired m w
  | S fuel' =>
      if deadline <=? clock w then Expired m w
      else
        let '(_, err, w1) := MachineSSH m "uptime" w in
        match err with
        | Some _ => waitForSSH fuel' deadline m (sleep 500 w1)
        | None => Delivered m w1
        end
  end.

Definition startPoller (deadline : Z) (m : VirshMachine) (w : World) : Poll :=
  match waitForIP (rounds 60000 1000) deadline m w with
  | Delivered m1 w1 => waitForSSH (rounds 60000 500) deadline m1 w1
  | Expired m1 w1 => Expired m1 w1
  end.

Definition Start (m : VirshMachine) (w : World)
  : option Err * VirshMachine * World :=
  let '(r, w1) := exec ["virsh"; "start"; MachineName m] w in
  match rerr r with
  | Some e => (Some e, m, logAt LError (rout r) w1)
  | None =>
      let deadline := clock w1 + 60000 in
      awaitPoll deadline (GetName m) (startPoller deadline m w1)
  end.

(** *** [Remove] *)
Definition undefineCommand (m : VirshMachine) : list string :=
  ["virsh"; "undefine"; "--storage"; DiskPath m; MachineName m].

Definition skipNotice (m : VirshMachine) : string :=
  "Skipping removal of machine " +:+ GetName m
  +:+ " with PRESERVE_TEST_MACHINE set".

Definition Remove (m : VirshMachine) (w : World)
  : option Err * VirshMachine * World :=
  if negb (String.eqb (getenv env "PRESERVE_TEST_MACHINE") "") then
    (None, m, logAt LInfo (skipNotice m) w)
  else
    let '(running, w1) := IsRunning m w in
    let w2 := if running then snd (Kill m w1) else w1 in
    let '(r, w3) := exec (undefineCommand m) w2 in
    match rerr r with
    | Some e => (Some e, m, logAt LError (rout r) w3)
    | None =>
        let w4 := snd (osRemove (DiskPath m) w3) in
        (None, setMachineName m "",
         logAt LInfo ("Machine " +:+ MachineName m +:+ " deleted") w4)
    end.

(** The goroutine of [Start], launched in world [w1], delivers before the
    timer of [Start] is taken. *)
Definition startedInTime (m : VirshMachine) (w1 : World) : bool :=
  match startPoller (clock w1 + 60000) m w1 with
  | Delivered _ w2 => negb (timerFirst (clock w1 + 60000) (clock w2))
  | Expired _ _ => false
  end.

(** *** [NewVirshMachines] *)

(** The machine built at the top of the creation loop. *)
Definition newMachine (g : Globals) (baseOS : string) (id : option N)
  (index : Z) : VirshMachine :=
  {| MachineName := machineName NamePrefix id index;
     dockerHost := ""; tlsConfig := None;
     sshKeyPath := filepath_Join lib [VirshDiskDir g; "id_rsa"];
     sshUser := "docker"; ip := ""; internalip := "";
     BaseDisk := baseOS; DiskPath := ""; CPUCount := 1; Memory := 2048 |}.

(** One round of the creation loop; an error ends the goroutine. *)
Definition createOne (g : Globals) (baseOS : string) (id : option N)
  (index : Z) (w : World) : (Err + VirshMachine) * World :=
  let m := newMachine g baseOS id index in
  let '(e1, m1, w1) := cloneDisk m w in
  match e1 with
  | Some e => (inl e, w1)
  | None =>
      let '(e2, w2) := define m1 w1 in
      match e2 with
      | Some e => (inl e, w2)
      | None =>
          let '(e3, m3, w3) := Start m1 w2 in
          match e3 with
          | Some e => (inl e, w3)
          | None =>
              match LoadX509KeyPair
                      (filepath_Join lib [VirshDiskDir g; "cert.pem"])
                      (filepath_Join lib [VirshDiskDir g; "key.pem"]) w3 with
              | inl e => (inl e, w3)
              | inr cert =>
                  match readFile (filepath_Join lib [VirshDiskDir g; "ca.pem"]) w3 with
                  | inl e => (inl e, w3)
                  | inr caCert =>
                      (inr (setTLSConfig m3
                              {| Certificates := cert; RootCAs := caCert;
                                 InsecureSkipVerify := true |}), w3)
                  end
              end
          end
      end
  end.

(** The loop [for index := 0; index < linuxCount; index++], over the
    indices still to do; [machines] is the slice appended to. *)
Fixpoint createLoop (g : Globals) (baseOS : string) (id : option N)
  (indices : list nat) (machines : list VirshMachine) (w : World)
  : (Err + list VirshMachine) * World :=
  match indices with
  | [] => (inr machines, w)
  | i :: rest =>
      match createOne g baseOS id (Z.of_nat i) w with
      | (inl e, w1) => (inl e, w1)
      | (inr m, w1) => createLoop g baseOS id rest (machines ++ [m]) w1
      end
  end.

(** **** The readiness goroutines

    Each goroutine sets the host name, verifies the engine, calls
    [wg.Done()] and then sends its result on [machineErrChan]. The
    creator waits on the group, closes the channel and drains it. The
    order in which they run is the scheduler's. The goroutines run side
    by side: each has its own clock, which its remote commands and its
    verification advance, and the creator is resumed from [wg.Wait()] at
    the time of the last [wg.Done()]. *)
Inductive TaskPc :=
| AtHostname
| AtVerify
| AtDone (res : option Err)    (* about to call [wg.Done()] *)
| AtSend (res : option Err)    (* about to send on [machineErrChan] *)
| Exited.

Record Task := {
  tmachine : VirshMachine;
  tpc : TaskPc;
  tclock : Z                          (* the time the goroutine has reached *)
}.

Record Fan := {
  tasks : list Task;
  wgCount : Z;                        (* counter of the wait group *)
  errBuf : list (option Err);         (* [machineErrChan], oldest first *)
  fworld : World
}.

(** One turn of the scheduler: goroutine [i] takes its next step, or the
    creator is resumed from [wg.Wait()]. *)
Inductive Turn :=
| Run (i : nat)
| Wake.

Definition hostnameCommand (m : VirshMachine) : string :=
  "sudo hostname " +:+ GoStrings.dquote +:+ GetName m +:+ GoStrings.dquote
  +:+ "; sudo sed -e 's/.*/" +:+ GetName m +:+ "/' -i /etc/hostname".

Definition setPc (t : Task) (pc : TaskPc) : Task :=
  {| tmachine := tmachine t; tpc := pc; tclock := tclock t |}.

(** The goroutine has reached [pc] at time [c]. *)
Definition setPcAt (t : Task) (pc : TaskPc) (c : Z) : Task :=
  {| tmachine := tmachine t; tpc := pc; tclock := c |}.

(** The world [w] as seen at time [c]. *)
Definition atClock (c : Z) (w : World) : World :=
  {| files := files w; clock := c; trace := trace w |}.

Definition stepTask (g : Globals) (i : nat) (f : Fan) : Fan :=
  match tasks f !! i with
  | None => f
  | Some t =>
      let m := tmachine t in
      match tpc t with
      | AtHostname =>
          let '(out, err, w1) :=
            MachineSSH m (hostnameCommand m) (atClock (tclock t) (fworld f)) in
          let w2 :=
            match err with
            | Some e =>
                logAt LWarn ("Failed to set hostname to " +:+ GetName m +:+ ": "
                             +:+ errString e +:+ ": " +:+ out) w1
            | None => w1
            end in
          {| tasks := <[i := setPcAt t AtVerify (clock w2)]> (tasks f);
             wgCount := wgCount f; errBuf := errBuf f;
             fworld := atClock (clock (fworld f)) w2 |}
      | AtVerify =>
          let w0 := atClock (tclock t) (fworld f) in
          let r := verifyDockerEngine env w0 m (VirshDiskDir g) in
          let w1 := elapse (rtook r)
                      (record (EvVerify (GetName m) (rerr r)) w0) in
          {| tasks := <[i := setPcAt t (AtDone (rerr r)) (clock w1)]> (tasks f);
             wgCount := wgCount f; errBuf := errBuf f;
             fworld := atClock (clock (fworld f)) w1 |}
      | AtDone res =>
          {| tasks := <[i := setPc t (AtSend res)]> (tasks f);
             wgCount := wgCount f - 1; errBuf := errBuf f;
             fworld := fworld f |}
      | AtSend res =>
          {| tasks := <[i := setPc t Exited]> (tasks f);
             wgCount := wgCount f; errBuf := errBuf f ++ [res];
             fworld := fworld f |}
      | Exited => f
      end
  end.

(** Goroutine [i] runs until it has exited. *)
Definition finishTask (g : Globals) (f : Fan) (i : nat) : Fan :=
  stepTask g i (stepTask g i (stepTask g i (stepTask g i f))).

(** The state in which the creator closes the channel. With no turn left
    to follow, the goroutines take the steps they have left, in the order
    of the batch (the time of each step is that of its goroutine), and the
    creator is resumed last. A [Wake] before the counter is zero finds the
    creator still blocked. *)
Fixpoint runFan (g : Globals) (sched : list Turn) (f : Fan) : Fan :=
  match sched with
  | [] => foldl (finishTask g) f (seq 0 (length (tasks f)))
  | Run i :: rest => runFan g rest (stepTask g i f)
  | Wake :: rest => if wgCount f =? 0 then f else runFan g rest f
  end.

(** The loop that starts the goroutines: [wg.Add(1)] for each. *)
Definition spawn (machines : list VirshMachine) (w : World) : Fan :=
  {| tasks := map (fun m => {| tmachine := m; tpc := AtHostname;
                               tclock := clock w |}) machines;
     wgCount := Z.of_nat (length machines); errBuf := []; fworld := w |}.

(** The time at which the creator is resumed from [wg.Wait()]: that of
    the last [wg.Done()], the goroutines having all called it; at once
    when there is no goroutine. *)
Definition joinClock (f : Fan) : Z :=
  fold_right (fun t c => Z.max (tclock t) c) (clock (fworld f)) (tasks f).

(** The world in which the creator goes on. *)
Definition resumed (f : Fan) : World := atClock (joinClock f) (fworld f).

(** Goroutines that had not sent when the channel was closed; the send
    of each panics ("send on closed channel"), which ends the process. *)
Definition lateSenders (f : Fan) : list string :=
  flat_map
    (fun t => match tpc t with
              | AtSend _ => [GetName (tmachine t)]
              | _ => []
              end)
    (tasks f).

(** [for err := range machineErrChan]: the first error met. *)
Fixpoint firstError (buf : list (option Err)) : option Err :=
  match buf with
  | [] => None
  | Some e :: _ => Some e
  | None :: rest => firstError rest
  end.

(** [for _, m := range machines { m.Remove() }] *)
Fixpoint removeAll (machines : list VirshMachine) (w : World)
  : list VirshMachine * World :=
  match machines with
  | [] => ([], w)
  | m :: rest =>
      let '(_, m', w1) := Remove m w in
      let '(rest', w2) := removeAll rest w1 in
      (m' :: rest', w2)
  end.

(** What the creator goroutine hands to [NewVirshMachines]. *)
Inductive Handed :=
| OnResChan (res : list VirshMachine)
| OnErrChan (e : Err).

(** The creator after [wg.Wait()] and [close(machineErrChan)]. *)
Definition drain (machines : list VirshMachine) (f : Fan) : Handed * World :=
  match firstError (errBuf f) with
  | Some e =>
      let w1 := sleep 10000 (resumed f) in
      let '(_, w2) := removeAll machines w1 in
      (OnErrChan e, w2)
  | None => (OnResChan machines, resumed f)
  end.

(** The body of the creator goroutine; also the goroutines it left with
    their send still to make. ([make(chan error, linuxCount)] panics on a
    negative count; the counts considered below are not negative.) *)
Definition creator (g : Globals) (sched : list Turn) (baseOS : string)
  (linuxCount : Z) (w : World) : Handed * list string * World :=
  let id := randInt env w 16777215%N in
  match createLoop g baseOS id (seq 0 (Z.to_nat linuxCount)) [] w with
  | (inl e, w1) => (OnErrChan e, [], w1)
  | (inr machines, w1) =>
      let f := runFan g sched (spawn machines w1) in
      let '(h, w2) := drain machines f in
      (h, lateSenders f, w2)
  end.

(** The three results of [NewVirshMachines], and the goroutines whose
    send meets the closed channel. *)
Record Outcome := {
  linux : list VirshMachine;
  windows : list VirshMachine;
  err : option Err;
  sendOnClosed : list string
}.

Definition failWith (e : Err) : Outcome :=
  {| linux := []; windows := []; err := Some e; sendOnClosed := [] |}.

Definition batchTimeout : Z := 60 * 60 * 1000.

Definition missingDiskDir : Err :=
  Errorf "To use the vrish driver, you must set VIRSH_DISK_DIR to point to where your base OS disks and ssh key live".

(** When the timer fires first, the creator is not stopped: the world
    returned is the one it leaves behind. *)
Definition NewVirshMachines (g : Globals) (sched : list Turn)
  (linuxCount windowsCount : Z) (w : World) : Outcome * World :=
  if String.eqb (VirshDiskDir g) "" then
    (failWith missingDiskDir, w)
  else if negb (windowsCount =? 0) then
    (failWith (Errorf "Windows not yet supported for virsh"), w)
  else
    let baseOS := filepath_Join lib [VirshDiskDir g; VirshOS g +:+ ".qcow2"] in
    if negb (fileExists w baseOS) then
      (failWith (Errorf ("Unable to locate " +:+ baseOS +:+ ": stat " +:+ baseOS
                         +:+ ": no such file or directory")), w)
    else
      let deadline := clock w + batchTimeout in
      let '(h, late, w1) := creator g sched baseOS linuxCount w in
      if timerFirst deadline (clock w1) then
        ({| linux := []; windows := [];
            err := Some (Errorf ("Unable to create " +:+ Fmt.decimal linuxCount
                                 +:+ " machines within timeout"));
            sendOnClosed := late |}, w1)
      else
        match h with
        | OnResChan res =>
            ({| linux := res; windows := []; err := None;
                sendOnClosed := late |}, w1)
        | OnErrChan e =>
            ({| linux := []; windows := []; err := Some e;
                sendOnClosed := late |}, w1)
        end.

(** *** Engine access *)
Record Client := {
  chost : string;
  ctls : option TLSConfig;
  ctimeout : Z
}.

(** [Timeout] is a constant of the package declared outside the driver
    file. *)
Variable Timeout : Z.

Definition GetEngineAPIWithTimeout (m : VirshMachine) (timeout : Z)
  : Err + Client :=
  match newClient env (dockerHost m) with
  | Some e => inl e
  | None => inr {| chost := dockerHost m; ctls := tlsConfig m;
                   ctimeout := timeout |}
  end.

Definition GetEngineAPI (m : VirshMachine) : Err + Client :=
  GetEngineAPIWithTimeout m Timeout.

Definition GetIP (m : VirshMachine) : Err + string := inr (ip m).

Definition GetInternalIP (m : VirshMachine) : Err + string :=
  inr (internalip m).

End Driver.

(** ** The [create] command *)

Module Cmd.

(** The part of the [Machine] interface the command uses. *)
Class Machine (M : Type) := {
  GetName : M -> string;
  GetEngineAPI : M -> Err + Client;
  GetInternalIP : M -> Err + string;
  GetConnectionEnv : M -> string
}.

(** How [RunE] ends. *)
Inductive Exit :=
| Returned (err : option Err)
| Panicked (msg : string).

Section Create.
Variable env : Env.
Context {M : Type} `{Machine M}.

(** A call on an engine API client. *)
Definition call (cli : Client) (c : ApiCall) (w : World) : ApiResp * World :=
  let r := engineCall env w (chost cli) c in
  (r, elapse (atook r) (record (EvApi (chost cli) c (aerr r)) w)).

(** [for _, m := range machines[1:]]: [info] and [swarmInfo] are the
    answers read before the loop. [None]: the loop ran to its end. *)
Fixpoint joinWorkers (listenAddr : string) (swarmInfo info : ApiResp)
  (workers : list M) (w : World) : option Exit * World :=
  match workers with
  | [] => (None, w)
  | m :: rest =>
      match GetEngineAPI m with
      | inl e => (Some (Returned (Some e)), w)
      | inr cliW =>
          match remoteManagers info with
          | [] => (Some (Panicked "index out of range"), w)
          | addr :: _ =>
              let '(r, w1) :=
                call cliW (SwarmJoin listenAddr [addr] (workerToken swarmInfo)) w in
              match aerr r with
              | Some e => (Some (Returned (Some e)), w1)
              | None => joinWorkers listenAddr swarmInfo info rest w1
              end
          end
      end
  end.

(** The block under [if !noInit]. *)
Definition initAndJoin (listenAddr : string) (machines : list M) (w : World)
  : option Exit * World :=
  match machines with
  | [] => (Some (Panicked "index out of range"), w)
  | leader :: workers =>
      match GetEngineAPI leader with
      | inl e => (Some (Returned (Some e)), w)
      | inr cli =>
          match GetInternalIP leader with
          | inl e => (Some (Returned (Some e)), w)
          | inr internalIP =>
              let '(r, w1) := call cli (SwarmInit listenAddr internalIP) w in
              match aerr r with
              | Some e => (Some (Returned (Some e)), w1)
              | None =>
                  let '(swarmInfo, w2) := call cli SwarmInspect w1 in
                  match aerr swarmInfo with
                  | Some e => (Some (Returned (Some e)), w2)
                  | None =>
                      let '(info, w3) := call cli Info w2 in
                      match aerr info with
                      | Some e => (Some (Returned (Some e)), w3)
                      | None => joinWorkers listenAddr swarmInfo info workers w3
                      end
                  end
              end
          end
      end
  end.

(** [RunE] from [machines := append(lm, wm...)] on. *)
Definition runCreate (noInit : bool) (listenAddr : string) (lm wm : list M)
  (w : World) : Exit * World :=
  let machines := (lm ++ wm)%list in
  let '(early, w1) :=
    if noInit then (None, w) else initAndJoin listenAddr machines w in
  match early with
  | Some x => (x, w1)
  | None =>
      (Returned None,
       foldl (fun w m => record (EvPrint "") (record (EvPrint (GetConnectionEnv m)) w))
             w1 machines)
  end.
End Create.

(** The event of a join that succeeded. *)
Definition joined (listenAddr addr token : string) (c : Client) : Event :=
  EvApi (chost c) (SwarmJoin listenAddr [addr] token) None.

(** The calls of one kind in a trace, with the host they went to. *)
Definition initCalls (tr : list Event) : list (string * ApiCall) :=
  flat_map (fun e => match e with
                     | EvApi h (SwarmInit l a) _ => [(h, SwarmInit l a)]
                     | _ => []
                     end) tr.

Definition joinCalls (tr : list Event) : list (string * ApiCall) :=
  flat_map (fun e => match e with
                     | EvApi h (SwarmJoin l a t) _ => [(h, SwarmJoin l a t)]
                     | _ => []
                     end) tr.

Definition fetchCalls (tr : list Event) : list (string * ApiCall) :=
  flat_map (fun e => match e with
                     | EvApi h SwarmInspect _ => [(h, SwarmInspect)]
                     | EvApi h Info _ => [(h, Info)]
                     | _ => []
                     end) tr.

End Cmd.

(** [VirshMachine] under that interface; its [GetConnectionEnv] is defined
    outside the driver file. *)
Definition virshAsMachine (env : Env) (Timeout : Z)
  (connectionEnv : VirshMachine -> string) : Cmd.Machine VirshMachine :=
  {| Cmd.GetName := GetName;
     Cmd.GetEngineAPI := GetEngineAPI env Timeout;
     Cmd.GetInternalIP := GetInternalIP;
     Cmd.GetConnectionEnv := connectionEnv |}.

(** ** The convergence poller *)

Module Converge.

(** How a wait ends. *)
Inductive Verdict :=
| Converged
| GaveUp (e : Err).

(** The error of a context whose deadline has passed. *)
Definition deadlineExceeded : Err := SysError "context deadline exceeded".

(** Invocations that fit before [deadline]: at 0, [interval], ... *)
Definition ticksBefore (deadline interval : Z) : nat :=
  Z.to_nat ((deadline + interval - 1) / interval).

(** Modelled from the spec: the loop of [WaitForConverge], whose definition
    is not in the files at hand (only its callers are). The predicate is
    re-invoked at a fixed [interval]; [test j] is what invocation number
    [j] (from 0) answers, [nil] being success. After a failed invocation the
    loop waits for the interval or for the deadline, whichever is due
    first; at the deadline it returns the last error of the predicate. [t]
    is the time since the wait began. [fuel] bounds the invocations. *)
Fixpoint pollLoop (fuel : nat) (deadline interval : Z)
  (test : nat -> option Err) (j : nat) (t : Z) : Verdict * Z :=
  match fuel with
  | O => (GaveUp deadlineExceeded, deadline)
  | S fuel' =>
      match test j with
      | None => (Converged, t)
      | Some e =>
          if deadline <=? t + interval then (GaveUp e, deadline)
          else pollLoop fuel' deadline interval test (S j) (t + interval)
      end
  end.

(** Modelled from the spec: [WaitForConverge] (there [awaitConverge]), the
    verdict and the time at which it is returned. A deadline already due
    gives the error of the context at once; otherwise the predicate is
    invoked first when the wait begins. *)
Definition awaitConverge (deadline interval : Z) (test : nat -> option Err)
  : Verdict * Z :=
  if deadline <=? 0 then (GaveUp deadlineExceeded, 0)
  else pollLoop (ticksBefore deadline interval) deadline interval test 0 0.

(** [test] answers an error on its first [k - 1] invocations and succeeds
    on invocation number [k]. *)
Definition firstSucceedsOn (test : nat -> option Err) (k : nat) : Prop :=
  (1 <= k)%nat /\ test (k - 1)%nat = None /\
  forall j, (j < k - 1)%nat -> test j <> None.

End Converge.

(** ** A small concrete environment

    Stand-ins that compute, for running the model on examples: a Go library
    restricted to clean slash-separated paths and to the two patterns of
    the driver, and a host on which every tool succeeds at once. *)

Module Sim.

Fixpoint stripPrefix (p s : string) : option string :=
  match p, s with
  | EmptyString, _ => Some s
  | String a p', String b s' => if Ascii.eqb a b then stripPrefix p' s' else None
  | String _ _, EmptyString => None
  end.

Fixpoint findAfter (p s : string) : option string :=
  match stripPrefix p s with
  | Some r => Some r
  | None =>
      match s with
      | EmptyString => None
      | String _ s' => findAfter p s'
      end
  end.

Fixpoint untilSlash (s : string) : string :=
  match s with
  | EmptyString => EmptyString
  | String c s' => if Ascii.eqb c "/"%char then EmptyString else String c (untilSlash s')
  end.

(** On the reversed path: what precedes the last slash. *)
Fixpoint beforeSlash (s : string) : option string :=
  match s with
  | EmptyString => None
  | String c s' => if Ascii.eqb c "/"%char then Some s' else beforeSlash s'
  end.

Definition Dir (p : string) : string :=
  match beforeSlash (String.rev p) with
  | None => "."
  | Some EmptyString => "/"
  | Some r => String.rev r
  end.

Fixpoint Join (parts : list string) : string :=
  match parts with
  | [] => EmptyString
  | [x] => x
  | x :: rest => x +:+ "/" +:+ Join rest
  end.

(** The word before the first word that begins with [running], not
    counting the first word of the line. *)
Fixpoint runningName (ws : list string) : option string :=
  match ws with
  | name :: ((st :: _) as rest) =>
      match stripPrefix "running" st with
      | Some _ => Some name
      | None => runningName rest
      end
  | _ => None
  end.

Definition group1 (pattern s : string) : option string :=
  if String.eqb pattern "ipv4\s+([^/]+)" then
    match findAfter "ipv4" s with
    | Some r =>
        let r' := GoStrings.trimLeft r in
        if String.eqb r r' then None
        else match untilSlash r' with
             | EmptyString => None
             | g => Some g
             end
    | None => None
    end
  else if String.eqb pattern "\s+(\S+)\s+running" then
    match String.words s with
    | _ :: rest => runningName rest
    | [] => None
    end
  else None.

Definition render (tmpl : string) (m : VirshMachine) : Err + string :=
  inr ("<domain><name>" +:+ MachineName m +:+ "</name><memory>"
       +:+ Fmt.decimal (Memory m) +:+ "</memory><vcpu>"
       +:+ Fmt.decimal (CPUCount m) +:+ "</vcpu><source file='"
       +:+ DiskPath m +:+ "'/></domain>").

Definition lib : GoLib :=
  {| path_Dir := Dir; filepath_Join := Join; regexp_group1 := group1;
     template_Parse := fun _ => None; template_Execute := render |}.

Definition ok (out : string) (took : Z) : Resp :=
  {| rerr := None; rout := out; rtook := took |}.

Definition failed (status : Z) (out : string) (took : Z) : Resp :=
  {| rerr := Some (ExitError status); rout := out; rtook := took |}.

(** The tools of a healthy host: an address is leased at once, nothing is
    listed as running, every command succeeds after 100ms. *)
Definition tools (w : World) (argv : list string) : Resp :=
  match argv with
  | ["virsh"; "-q"; "domifaddr"; _] =>
      ok " vnet0      52:54:00:aa:bb:cc    ipv4         192.168.122.10/24" 100
  | _ => ok "" 100
  end.

(** [qemu-img create] leaves its last argument on disk. *)
Definition toolFiles (w : World) (argv : list string) : gmap string string :=
  match argv with
  | "qemu-img" :: "create" :: rest =>
      match last rest with
      | Some clone => <[clone := "qcow2"]> (files w)
      | None => files w
      end
  | _ => files w
  end.

Definition answer (e : option Err) : ApiResp :=
  {| aerr := e; workerToken := "SWMTKN-1-worker";
     remoteManagers := ["192.168.122.10:2377"]; atook := 50 |}.

Definition host : Env :=
  {| getenv := fun k => if String.eqb k "VIRSH_DISK_DIR" then "/e2e" else "";
     execCmd := tools;
     execFiles := toolFiles;
     writeOutcome := fun _ _ _ => WriteOk;
     x509KeyPair := fun _ _ => None;
     randInt := fun _ _ => Some 11259375%N;
     verifyDockerEngine := fun _ _ _ => ok "" 1000;
     newClient := fun _ => None;
     engineCall := fun _ _ _ => answer None;
     timerWinsTie := false |}.

(** The same host with other tools, verification, writes or engine. *)
Definition withTools (e : Env) (t : World -> list string -> Resp) : Env :=
  {| getenv := getenv e; execCmd := t; execFiles := execFiles e;
     writeOutcome := writeOutcome e; x509KeyPair := x509KeyPair e;
     randInt := randInt e; verifyDockerEngine := verifyDockerEngine e;
     newClient := newClient e; engineCall := engineCall e;
     timerWinsTie := timerWinsTie e |}.

Definition withVerify (e : Env) (v : World -> VirshMachine -> string -> Resp)
  : Env :=
  {| getenv := getenv e; execCmd := execCmd e; execFiles := execFiles e;
     writeOutcome := writeOutcome e; x509KeyPair := x509KeyPair e;
     randInt := randInt e; verifyDockerEngine := v;
     newClient := newClient e; engineCall := engineCall e;
     timerWinsTie := timerWinsTie e |}.

Definition withWrites (e : Env) (wo : World -> string -> string -> WriteOutcome)
  : Env :=
  {| getenv := getenv e; execCmd := execCmd e; execFiles := execFiles e;
     writeOutcome := wo; x509KeyPair := x509KeyPair e;
     randInt := randInt e; verifyDockerEngine := verifyDockerEngine e;
     newClient := newClient e; engineCall := engineCall e;
     timerWinsTie := timerWinsTie e |}.

Definition withEngine (e : Env) (a : World -> string -> ApiCall -> ApiResp)
  : Env :=
  {| getenv := getenv e; execCmd := execCmd e; execFiles := execFiles e;
     writeOutcome := writeOutcome e; x509KeyPair := x509KeyPair e;
     randInt := randInt e; verifyDockerEngine := verifyDockerEngine e;
     newClient := newClient e; engineCall := a;
     timerWinsTie := timerWinsTie e |}.

Definition withGetenv (e : Env) (ge : string -> string) : Env :=
  {| getenv := ge; execCmd := execCmd e; execFiles := execFiles e;
     writeOutcome := writeOutcome e; x509KeyPair := x509KeyPair e;
     randInt := randInt e; verifyDockerEngine := verifyDockerEngine e;
     newClient := newClient e; engineCall := engineCall e;
     timerWinsTie := timerWinsTie e |}.

(** A disk directory holding the base image, the key and the certificates. *)
Definition disk : gmap string string :=
  list_to_map
    [("/e2e/ubuntu16.04.qcow2", "base"); ("/e2e/id_rsa", "key");
     ("/e2e/cert.pem", "cert"); ("/e2e/key.pem", "key"); ("/e2e/ca.pem", "ca")].

Definition boot : World := {| files := disk; clock := 0; trace := [] |}.

Definition globals : Globals := init host declaredGlobals.

(** A machine as the creation loop builds it. *)
Definition machine (index : Z) : VirshMachine :=
  newMachine lib "e2e" globals "/e2e/ubuntu16.04.qcow2" (Some 11259375%N) index.

End Sim.

(** ** Reading traces *)

(** An event that stops, destroys or unregisters a machine, or deletes a
    file. *)
Definition tearsDown (e : Event) : bool :=
  match e with
  | EvExec ("virsh" :: verb :: _) _ _ =>
      String.eqb verb "shutdown" || String.eqb verb "destroy"
      || String.eqb verb "undefine"
  | EvRemoveFile _ _ => true
  | _ => false
  end.

(** [w'] continues [w] by events that all satisfy [P]. *)
Definition extends (P : Event -> Prop) (w w' : World) : Prop :=
  exists evs, trace w' = (trace w ++ evs)%list /\ Forall P evs.

(** An event that unregisters a machine. *)
Definition isUndefine (e : Event) : bool :=
  match e with
  | EvExec ("virsh" :: "undefine" :: _) _ _ => true
  | _ => false
  end.



(** The engine of [m] was verified in [tr]. *)
Definition verified (tr : list Event) (m : VirshMachine) : Prop :=
  In (EvVerify (GetName m) None) tr.

(** [w'] has the trace of [w] and possibly more. *)
Definition grows (w w' : World) : Prop := extends (fun _ => True) w w'.

(** What a readiness goroutine holds, or has sent, is what the verification
    of its machine answered. *)
Definition taskSound (tr : list Event) (buf : list (option Err)) (t : Task)
  : Prop :=
  match tpc t with
  | AtDone r | AtSend r => In (EvVerify (GetName (tmachine t)) r) tr
  | Exited => exists r, In r buf /\ In (EvVerify (GetName (tmachine t)) r) tr
  | _ => True
  end.

(** Goroutines that have not yet called [wg.Done()]. *)
Definition pending (t : Task) : Z :=
  match tpc t with
  | AtHostname | AtVerify | AtDone _ => 1
  | _ => 0
  end.

Definition pendingCount (ts : list Task) : Z :=
  fold_right Z.add 0 (map pending ts).

(** What holds of the readiness goroutines of the batch [ms], started in
    world [w0], at every moment. *)
Record fanInv (ms : list VirshMachine) (w0 : World) (f : Fan) : Prop := {
  inv_machines : map tmachine (tasks f) = ms;
  inv_tasks : Forall (taskSound (trace (fworld f)) (errBuf f)) (tasks f);
  inv_buf :
    Forall (fun r => exists m, In m ms /\
                       In (EvVerify (GetName m) r) (trace (fworld f)))
      (errBuf f);
  inv_count : wgCount f = pendingCount (tasks f);
  inv_grows : grows w0 (fworld f)
}.

(** The events of [w'] that came after those of [w]. *)
Definition since (w w' : World) : list Event :=
  skipn (length (trace w)) (trace w').


(** Steps a readiness goroutine still has to take. *)
Definition stepsLeft (pc : TaskPc) : nat :=
  match pc with
  | AtHostname => 4
  | AtVerify => 3
  | AtDone _ => 2
  | AtSend _ => 1
  | Exited => 0
  end.

(** ** Scenarios *)

(** [needle] occurs in [s]. *)
Fixpoint occursIn (needle s : string) : bool :=
  match Sim.stripPrefix needle s with
  | Some _ => true
  | None =>
      match s with
      | EmptyString => false
      | String _ s' => occursIn needle s'
      end
  end.

(** A remote shell that is refused. *)
Definition refusedShell : Env :=
  Sim.withTools Sim.host
    (fun _ argv =>
       match argv with
       | "ssh" :: _ => Sim.failed 255 " Permission denied (publickey).
" 300
       | _ => Sim.ok "" 100
       end).

(** A hypervisor that never leases an address. *)
Definition noLease : Env :=
  Sim.withTools Sim.host
    (fun _ argv =>
       match argv with
       | ["virsh"; "-q"; "domifaddr"; _] => Sim.ok "" 200
       | _ => Sim.ok "" 100
       end).

(** A disk that fills up while the descriptor is written. *)
Definition fullDisk : Env :=
  Sim.withWrites Sim.host
    (fun _ _ data =>
       WriteFailed (SysError "write: no space left on device")
         (Some (substring 0 8 data))).

(** A machine whose disk has been cloned. *)
Definition cloned (index : Z) : VirshMachine :=
  setDiskPath (Sim.machine index) (linkedCloneName Sim.lib (Sim.machine index)).

(** A machine that has been started and has its address. *)
Definition ready (index : Z) : VirshMachine :=
  setAddress (cloned index) ("192.168.122.1" +:+ Fmt.decimal index).

(** An engine on which the join of the machine at [192.168.122.11] fails. *)
Definition joinRefused : Env :=
  Sim.withEngine Sim.host
    (fun _ h c =>
       match c with
       | SwarmJoin _ _ _ =>
           if String.eqb h "tcp://192.168.122.11:2376"
           then Sim.answer (Some (SysError "rpc error: timeout reaching manager"))
           else Sim.answer None
       | _ => Sim.answer None
       end).

(** The machines of the scenarios under the [Machine] interface. *)
Definition simMachine (env : Env) : Cmd.Machine VirshMachine :=
  virshAsMachine env 30000 (fun m => "DOCKER_HOST=" +:+ dockerHost m).

(** The bootstrap over the first [n] ready machines. *)
Definition simBootstrap (env : Env) (n : nat) : option Cmd.Exit * World :=
  @Cmd.initAndJoin env VirshMachine (simMachine env) "0.0.0.0:2377"
    (map (fun i => ready (Z.of_nat i)) (seq 0 n)) Sim.boot.

(** A predicate that fails twice and then holds. *)
Definition thirdTime (j : nat) : option Err :=
  match j with
  | 0%nat | 1%nat => Some (Errorf "expected 3 tasks, got fewer")
  | _ => None
  end.

(** A host on which the engine of no machine gets ready. *)
Definition engineDown : Env :=
  Sim.withVerify Sim.host
    (fun _ _ _ =>
       {| rerr := Some (Errorf "engine not ready"); rout := ""; rtook := 1000 |}).


(** The creator is resumed between the [wg.Done()] of goroutine 0 and its
    send. *)
Definition doneBeforeSend : list Turn := [Run 0; Run 0; Run 0; Wake].

(** The base image as [NewVirshMachines] names it. *)
Definition baseImage (lib : GoLib) (g : Globals) : string :=
  filepath_Join lib [VirshDiskDir g; VirshOS g +:+ ".qcow2"].

(** The error of the 60-minute timer. *)
Definition batchTimedOut (linuxCount : Z) : Err :=
  Errorf ("Unable to create " +:+ Fmt.decimal linuxCount
          +:+ " machines within timeout").

(** The creation loop for [n] machines on the scenario disk. *)
Definition created (env : Env) (n : Z) : (Err + list VirshMachine) * World :=
  createLoop Sim.lib env "e2e" Sim.globals (baseImage Sim.lib Sim.globals)
    (randInt env Sim.boot 16777215%N) (seq 0 (Z.to_nat n)) [] Sim.boot.


(** ** More of the driver *)

Section Teardown.
Variable lib : GoLib.
Variable env : Env.

(** *** [RemoveAndPreserveDisk] *)
Definition unregisterCommand (m : VirshMachine) : list string :=
  ["virsh"; "undefine"; MachineName m].

Definition RemoveAndPreserveDisk (m : VirshMachine) (w : World)
  : option Err * VirshMachine * World :=
  if negb (String.eqb (getenv env "PRESERVE_TEST_MACHINE") "") then
    (None, m, logAt LInfo (skipNotice m) w)
  else
    let '(running, w1) := IsRunning lib env m w in
    let w2 := if running then snd (Stop env m w1) else w1 in
    let '(r, w3) := exec env (unregisterCommand m) w2 in
    match rerr r with
    | Some e => (Some e, m, logAt LError (rout r) w3)
    | None =>
        (None, setMachineName m "",
         logAt LInfo ("Machine " +:+ MachineName m +:+ " deleted")
           (logAt LInfo ("Preserving " +:+ DiskPath m) w3))
    end.

End Teardown.

(** *** [WriteFile] and [writeLocalFile] *)

(** What the driver asks of temporary files: [ioutil.TempFile(dir, prefix)]
    names the file it creates, or fails; [io.Copy] into it ends like a
    write. *)
Record TempFs := {
  tempFile : World -> string -> string -> Err + string;
  copyOutcome : World -> string -> string -> WriteOutcome
}.

Section Transfer.
Variable env : Env.
Variable tfs : TempFs.

Definition scpArgs (m : VirshMachine) (localFilePath remoteFilePath : string)
  : list string :=
  ["scp"; "-i"; sshKeyPath m; "-q";
   "-o"; "StrictHostKeyChecking=no";
   "-o"; "GlobalKnownHostsFile=/dev/null";
   "-o"; "UserKnownHostsFile=/dev/null";
   "-o"; "UpdateHostKeys=no";
   "-o"; "CheckHostIP=no";
   "-o"; "VerifyHostKeyDNS=no";
   localFilePath;
   sshUser m +:+ "@" +:+ ip m +:+ ":" +:+ remoteFilePath].

Definition writeLocalFile (m : VirshMachine)
  (localFilePath remoteFilePath : string) (w : World) : option Err * World :=
  let '(r, w1) := exec env (scpArgs m localFilePath remoteFilePath) w in
  let out := GoStrings.TrimSpace (rout r) in
  match rerr r with
  | Some e => (Some e, logAt LError out w1)
  | None => (None, w1)
  end.

(** [io.Copy(f, data)] into the temporary file [name]. *)
Definition copyInto (name data : string) (w : World) : option Err * World :=
  match copyOutcome tfs w name data with
  | WriteOk =>
      (None, record (EvWriteFile name None)
               {| files := <[name := data]> (files w); clock := clock w;
                  trace := trace w |})
  | WriteFailed e None => (Some e, record (EvWriteFile name (Some e)) w)
  | WriteFailed e (Some part) =>
      (Some e, record (EvWriteFile name (Some e))
                 {| files := <[name := part]> (files w); clock := clock w;
                    trace := trace w |})
  end.

(** [WriteFile]: [data] is what the reader yields. The two deferred calls
    (close, then remove) run on every return that follows the creation of
    the temporary file. *)
Definition WriteFile (m : VirshMachine) (filePath data : string) (w : World)
  : option Err * World :=
  match tempFile tfs w "/tmp" "E2ETestTempFile" with
  | inl e => (Some e, w)
  | inr name =>
      let w1 := {| files := <[name := ""]> (files w); clock := clock w;
                   trace := trace w |} in
      let '(cerr, w2) := copyInto name data w1 in
      let '(res, w3) :=
        match cerr with
        | Some e => (Some e, w2)
        | None => writeLocalFile m name filePath w2
        end in
      (res, snd (osRemove name w3))
  end.

End Transfer.

(** ** The whole of [RunE] *)

(** The flags of the command as [RunE] reads them. *)
Record Flags := {
  flagDebug : Err + bool;
  flagNoSwarm : Err + bool;
  flagListenAddr : string
}.

(** How the command ends: [RunE] returns or panics, or [log.Fatal] ends
    the process. *)
Inductive Ended :=
| Ran (x : Cmd.Exit)
| Fatal (msg : string).

Section RunE.
Variable env : Env.
Context {M : Type} `{Cmd.Machine M}.
(** [strconv.Atoi], and [machines.GetTestMachines], which is defined
    outside the files at hand. *)
Variable Atoi : string -> Err + Z.
Variable GetTestMachines :
  Z -> Z -> World -> (list M * list M * option Err) * World.

Definition RunE (flags : Flags) (args : list string) (w : World)
  : Ended * World :=
  match flagDebug flags with
  | inl e => (Ran (Cmd.Returned (Some e)), w)
  | inr _ =>
      match args with
      | [] => (Ran (Cmd.Returned (Some (Errorf "Config missing"))), w)
      | a0 :: rest =>
          match Atoi a0 with
          | inl e => (Fatal (errString e), w)
          | inr linuxCount =>
              match rest with
              | [] => (Ran (Cmd.Panicked "index out of range"), w)
              | a1 :: _ =>
                  match Atoi a1 with
                  | inl e => (Fatal (errString e), w)
                  | inr windowsCount =>
                      let '(lm, wm, failure, w1) :=
                        GetTestMachines linuxCount windowsCount w in
                      match failure with
                      | Some e => (Fatal ("Failure: " +:+ errString e), w1)
                      | None =>
                          match flagNoSwarm flags with
                          | inl e => (Ran (Cmd.Returned (Some e)), w1)
                          | inr noInit =>
                              let '(x, w2) :=
                                Cmd.runCreate env noInit (flagListenAddr flags)
                                  lm wm w1 in
                              (Ran x, w2)
                          end
                      end
                  end
              end
          end
      end
  end.

End RunE.

(** ** The load-balancer test: containers seen *)

Module Lb.

(** A Go [int] (64 bits) after an addition. *)
Definition int64 (z : Z) : Z :=
  (z + 9223372036854775808) mod 18446744073709551616 - 9223372036854775808.

(** The update of [containers] made by the polling goroutine when it has
    read [name]. *)
Definition saw (name : string) (containers : gmap string Z) : gmap string Z :=
  match containers !! name with
  | Some count => <[name := int64 (count + 1)]> containers
  | None => <[name := 1]> containers
  end.

Definition sawAll (names : list string) (containers : gmap string Z)
  : gmap string Z :=
  foldl (fun c name => saw name c) containers names.

(** [checkComplete]: its error, and whether it called [cancel]. The name
    reported as not seen twice is the first met; Go ranges over the map in
    no fixed order. *)
Definition checkComplete (replicas : Z) (containers : gmap string Z)
  : option Err * bool :=
  let c := Z.of_nat (size containers) in
  if replicas <? c then
    (Some (Errorf ("expected " +:+ Fmt.decimal replicas
                   +:+ " different container IDs, got " +:+ Fmt.decimal c)),
     true)
  else if c <? replicas then
    (Some (Errorf ("haven't seen enough different containers, expected "
                   +:+ Fmt.decimal replicas +:+ " got " +:+ Fmt.decimal c)),
     false)
  else
    match List.find (fun nc => snd nc <? 2) (map_to_list containers) with
    | Some (name, _) =>
        (Some (Errorf ("haven't seen container " +:+ name +:+ " twice")), false)
    | None => (None, false)
    end.

End Lb.

(** ** More ways to read a trace *)

(** An event that shuts down, destroys or unregisters a machine. *)
Definition stopsMachine (e : Event) : bool :=
  match e with
  | EvExec ("virsh" :: verb :: _) _ _ =>
      String.eqb verb "shutdown" || String.eqb verb "destroy"
      || String.eqb verb "undefine"
  | _ => false
  end.

(** An event that destroys a machine or deletes a file, or an
    unregistration that takes the storage along. *)
Definition destroysOrDeletes (e : Event) : bool :=
  match e with
  | EvExec ("virsh" :: "destroy" :: _) _ _ => true
  | EvExec ("virsh" :: "undefine" :: flag :: _ :: _) _ _ =>
      String.eqb flag "--storage"
  | EvRemoveFile _ _ => true
  | _ => false
  end.

(** A call on an engine API. *)
Definition isApiCall (e : Event) : bool :=
  match e with
  | EvApi _ _ _ => true
  | _ => false
  end.

(** A line printed by the command. *)
Definition isPrint (e : Event) : bool :=
  match e with
  | EvPrint _ => true
  | _ => false
  end.

(** The two lines printed for a machine. *)
Definition printed {M : Type} `{Cmd.Machine M} (m : M) : list Event :=
  [EvPrint (Cmd.GetConnectionEnv m); EvPrint ""].

(** The address in an answer of [virsh domifaddr] as [Start] reads it: the
    match of [ipRegex] in the first line of the trimmed answer. *)
Definition addressIn (lib : GoLib) (out : string) : option string :=
  match GoStrings.SplitLines (GoStrings.TrimSpace out) with
  | line :: _ => regexp_group1 lib ipRegex line
  | [] => None
  end.

(** The machine of index [i] as [NewVirshMachines], called in world [w0]
    and returning in [w1], hands it over: its address is the one in an
    answer the hypervisor gave without error, since the call, to
    [virsh domifaddr] for this machine; its TLS configuration holds the
    pair loaded from [cert.pem] and [key.pem] and the content of [ca.pem]
    of the disk directory, as these files were when the creation of this
    machine ended (the creation loop having done the indices up to [i]),
    with verification switched off; it is sized and keyed as the creation
    loop sets it, with its clone as disk. *)
Definition configured (lib : GoLib) (env : Env) (NamePrefix : string)
  (g : Globals) (id : option N) (w0 w1 : World) (i : nat) (m : VirshMachine)
  : Prop :=
  (exists out,
     In (EvExec ["virsh"; "-q"; "domifaddr"; MachineName m] None out)
       (since w0 w1) /\
     addressIn lib out = Some (ip m)) /\
  (let loaded :=
     snd (createLoop lib env NamePrefix g (baseImage lib g) id
            (seq 0 (S i)) [] w0) in
   exists cert ca,
     LoadX509KeyPair env (filepath_Join lib [VirshDiskDir g; "cert.pem"])
       (filepath_Join lib [VirshDiskDir g; "key.pem"]) loaded = inr cert /\
     readFile (filepath_Join lib [VirshDiskDir g; "ca.pem"]) loaded = inr ca /\
     tlsConfig m = Some {| Certificates := cert; RootCAs := ca;
                           InsecureSkipVerify := true |}) /\
  dockerHost m = "tcp://" +:+ ip m +:+ ":2376" /\
  internalip m = ip m /\
  DiskPath m = linkedCloneName lib m /\
  BaseDisk m = baseImage lib g /\
  sshUser m = "docker" /\
  sshKeyPath m = filepath_Join lib [VirshDiskDir g; "id_rsa"] /\
  CPUCount m = 1 /\ Memory m = 2048.

(** A host told to keep its test machines. *)
Definition preserving : Env :=
  Sim.withGetenv Sim.host
    (fun k => if String.eqb k "PRESERVE_TEST_MACHINE" then "1"
              else getenv Sim.host k).

(** A hypervisor whose [start] fails for the machine of index 1. *)
Definition secondWontStart : Env :=
  Sim.withTools Sim.host
    (fun w argv =>
       match argv with
       | ["virsh"; "start"; name] =>
           if String.eqb name "e2e-ABCDEF-1"
           then Sim.failed 1 "error: Failed to start domain" 100
           else Sim.tools w argv
       | _ => Sim.tools w argv
       end).

(** An engine that answers every call but lists no remote manager. *)
Definition noManagers : Env :=
  Sim.withEngine Sim.host
    (fun _ _ _ =>
       {| aerr := None; workerToken := "SWMTKN-1-worker";
          remoteManagers := []; atook := 50 |}).

(** [e] is a join made on the client [c], carrying [token] and [addr]. *)
Definition joinOn (listenAddr addr token : string) (c : Client) (e : Event)
  : Prop :=
  exists failure,
    e = EvApi (chost c) (SwarmJoin listenAddr [addr] token) failure.

(** [RunE] on the scenario machines: [GetTestMachines] hands out the first
    [linuxCount] ready machines. *)
Definition simRunE (flags : Flags) (args : list string) : Ended * World :=
  @RunE Sim.host VirshMachine (simMachine Sim.host)
    (fun s => if String.eqb s "2" then inr 2
              else inl (SysError ("strconv.Atoi: parsing: invalid syntax")))
    (fun l _ w => ((map (fun i => ready (Z.of_nat i)) (seq 0 (Z.to_nat l)), [],
                    None), w))
    flags args Sim.boot.

Definition simFlags : Flags :=
  {| flagDebug := inr false; flagNoSwarm := inr false;
     flagListenAddr := "0.0.0.0:2377" |}.

(** A temporary directory that hands out one name and takes every copy. *)
Definition simTemp : TempFs :=
  {| tempFile := fun _ dir prefix => inr (dir +:+ "/" +:+ prefix +:+ "493817");
     copyOutcome := fun _ _ _ => WriteOk |}.

(** How often [n] is among [names]. *)
Definition timesSeen (names : list string) (n : string) : nat :=
  length (filter (fun x => x = n) names).

(** * Properties *)

Example machineName_sample :
  batchNames "e2e" (Some 11259375%N) 3 =
  ["e2e-ABCDEF-0"; "e2e-ABCDEF-1"; "e2e-ABCDEF-2"].
Proof. vm_compute. reflexivity. Qed.

Example decimal_sample : Fmt.decimal 2048 = "2048" /\ Fmt.decimal (-17) = "-17".
Proof. vm_compute. split; reflexivity. Qed.

Example Dir_sample : Sim.Dir "/e2e/ubuntu16.04.qcow2" = "/e2e" /\ Sim.Dir "/x" = "/" /\ Sim.Dir "x" = ".".
Proof. vm_compute. repeat split; reflexivity. Qed.

Example run_sample :
  let '(o, w) := NewVirshMachines Sim.lib Sim.host "e2e" Sim.globals [] 2 0 Sim.boot in
  (map MachineName (linux o), err o, sendOnClosed o, clock w)
  = (["e2e-ABCDEF-0"; "e2e-ABCDEF-1"], None, [], 2100).
Proof. vm_compute. reflexivity. Qed.

(** ** Rendering of numbers *)

Module FmtFacts.
Import Fmt.

Lemma app_cons (c : ascii) (a s : string) :
  String c a +:+ s = String c (a +:+ s).
Proof. reflexivity. Qed.

Lemma app_empty (s : string) : EmptyString +:+ s = s.
Proof. reflexivity. Qed.

Lemma digitsGo_value (b : N) (fuel : nat) :
  forall n acc,
    fold_left (fun a d => (a * b + d)%N) (digitsGo fuel b n acc) 0%N
    = fold_left (fun a d => (a * b + d)%N) acc n.
Proof.
  induction fuel as [|fuel IH]; intros n acc; simpl.
  - f_equal.
  - destruct (n <? b)%N eqn:Hlt; simpl.
    + reflexivity.
    + rewrite IH. simpl. f_equal.
      rewrite N.mul_comm. symmetry. apply N.Div0.div_mod.
Qed.

Lemma digits_value (b n : N) : valueOf b (digits b n) = n.
Proof. unfold valueOf, digits. rewrite digitsGo_value. reflexivity. Qed.

Lemma pos_size_nat_gt (p : positive) :
  (N.pos p < 2 ^ N.of_nat (Pos.size_nat p))%N.
Proof.
  induction p as [p IH|p IH|]; cbn [Pos.size_nat];
    rewrite ?Nat2N.inj_succ, ?N.pow_succ_r'; lia.
Qed.

Lemma size_nat_gt (b n : N) :
  (2 <= b)%N -> (n < b ^ N.of_nat (S (N.size_nat n)))%N.
Proof.
  intros Hb. rewrite Nat2N.inj_succ, N.pow_succ_r'.
  assert (H2 : (2 ^ N.of_nat (N.size_nat n) <= b ^ N.of_nat (N.size_nat n))%N)
    by (apply N.pow_le_mono_l; lia).
  assert (Hn : (n < 2 ^ N.of_nat (N.size_nat n))%N).
  { destruct n as [|p]; [simpl; lia | apply pos_size_nat_gt]. }
  nia.
Qed.

Lemma digitsGo_below (b : N) (fuel : nat) :
  (2 <= b)%N ->
  forall n acc,
    (n < b ^ N.of_nat (S fuel))%N ->
    Forall (fun d => (d < b)%N) acc ->
    Forall (fun d => (d < b)%N) (digitsGo fuel b n acc).
Proof.
  intros Hb. induction fuel as [|fuel IH]; intros n acc Hn Hacc; simpl.
  - constructor; [|assumption]. simpl in Hn. rewrite N.pow_1_r in Hn. exact Hn.
  - destruct (n <? b)%N eqn:Hlt.
    + constructor; [apply N.ltb_lt; assumption | assumption].
    + apply IH.
      * rewrite Nat2N.inj_succ, N.pow_succ_r' in Hn.
        apply N.Div0.div_lt_upper_bound. exact Hn.
      * constructor; [apply N.mod_lt; lia | assumption].
Qed.

Lemma digits_below (b n : N) :
  (2 <= b)%N -> Forall (fun d => (d < b)%N) (digits b n).
Proof.
  intros Hb. unfold digits. apply digitsGo_below; auto using size_nat_gt.
Qed.

Lemma digitChar_inj (x y : N) :
  (x < 16)%N -> (y < 16)%N -> digitChar x = digitChar y -> x = y.
Proof.
  intros Hx Hy.
  assert (Ex : In x (map N.of_nat (seq 0 16))).
  { apply in_map_iff. exists (N.to_nat x). split; [lia|]. apply in_seq. lia. }
  assert (Ey : In y (map N.of_nat (seq 0 16))).
  { apply in_map_iff. exists (N.to_nat y). split; [lia|]. apply in_seq. lia. }
  simpl in Ex, Ey.
  repeat (destruct Ex as [<-|Ex]; [|]); try contradiction;
    repeat (destruct Ey as [<-|Ey]; [|]); try contradiction;
    simpl; intros Heq; solve [reflexivity | discriminate Heq].
Qed.

Lemma digitChar_not_dash (d : N) : Ascii.eqb (digitChar d) dash = false.
Proof.
  unfold digitChar.
  repeat match goal with
         | |- context [match ?x with _ => _ end] => destruct x
         end; reflexivity.
Qed.

Lemma map_digitChar_inj (b : N) (xs ys : list N) :
  (b <= 16)%N ->
  Forall (fun d => (d < b)%N) xs -> Forall (fun d => (d < b)%N) ys ->
  map digitChar xs = map digitChar ys -> xs = ys.
Proof.
  intros Hb Hxs. revert ys.
  induction Hxs as [|x xs Hx _ IH]; intros ys Hys Heq.
  - destruct ys; [reflexivity | discriminate].
  - destruct Hys as [|y ys Hy Hys]; [discriminate|].
    simpl in Heq. injection Heq as Hc Hrest.
    f_equal; [apply digitChar_inj; lia || assumption | auto].
Qed.

Lemma string_of_list_ascii_inj (xs ys : list ascii) :
  string_of_list_ascii xs = string_of_list_ascii ys -> xs = ys.
Proof.
  intros Heq.
  rewrite <- (list_ascii_of_string_of_list_ascii xs),
          <- (list_ascii_of_string_of_list_ascii ys).
  now rewrite Heq.
Qed.

(** A number is read back from its rendering: two numbers with the same
    text are the same. *)
Lemma render_inj (b x y : N) :
  (2 <= b <= 16)%N -> render b x = render b y -> x = y.
Proof.
  intros [Hlo Hhi] Heq. unfold render in Heq.
  apply string_of_list_ascii_inj in Heq.
  apply (map_digitChar_inj b) in Heq; auto using digits_below.
  rewrite <- (digits_value b x), <- (digits_value b y). now rewrite Heq.
Qed.

Lemma dashFree_of_digits (ds : list N) :
  dashFree (string_of_list_ascii (map digitChar ds)) = true.
Proof.
  induction ds as [|d ds IH]; simpl; [reflexivity|].
  rewrite digitChar_not_dash. exact IH.
Qed.

Lemma render_dashFree (b n : N) : dashFree (render b n) = true.
Proof. apply dashFree_of_digits. Qed.

Lemma render_nonempty (b n : N) : render b n <> EmptyString.
Proof.
  unfold render, digits.
  assert (H : forall fuel m acc, digitsGo fuel b m acc <> []).
  { induction fuel as [|fuel IH]; intros m acc; simpl; [discriminate|].
    destruct (m <? b)%N; [discriminate | apply IH]. }
  specialize (H (N.size_nat n) n []).
  destruct (digitsGo (N.size_nat n) b n []); [contradiction | discriminate].
Qed.

Lemma hexUpper_dashFree (id : option N) : dashFree (hexUpper id) = true.
Proof. destruct id; [apply render_dashFree | reflexivity]. Qed.

Lemma render_head_digit (b n : N) (c : ascii) (s : string) :
  render b n = String c s -> exists d, c = digitChar d.
Proof.
  unfold render. destruct (digits b n) as [|d ds]; simpl; [discriminate|].
  intros [= <- _]. eauto.
Qed.

Lemma hexUpper_inj (x y : option N) : hexUpper x = hexUpper y -> x = y.
Proof.
  destruct x as [x|], y as [y|]; simpl; intros Heq.
  - f_equal. apply (render_inj 16); [lia | exact Heq].
  - apply render_head_digit in Heq as [d Hd]. exfalso. revert Hd.
    unfold digitChar.
    repeat match goal with
           | |- context [match ?x with _ => _ end] => destruct x
           end; discriminate.
  - symmetry in Heq. apply render_head_digit in Heq as [d Hd]. exfalso.
    revert Hd. unfold digitChar.
    repeat match goal with
           | |- context [match ?x with _ => _ end] => destruct x
           end; discriminate.
  - reflexivity.
Qed.

Lemma decimal_of_nat_inj (i j : nat) :
  decimal (Z.of_nat i) = decimal (Z.of_nat j) -> i = j.
Proof.
  unfold decimal.
  destruct (Z.ltb_spec (Z.of_nat i) 0); [lia|].
  destruct (Z.ltb_spec (Z.of_nat j) 0); [lia|].
  intros Heq. apply (render_inj 10) in Heq; lia.
Qed.

(** Text before the first dash is determined by the whole text. *)
Lemma split_at_dash (a b x y : string) :
  dashFree a = true -> dashFree b = true ->
  a +:+ String dash x = b +:+ String dash y -> a = b /\ x = y.
Proof.
  revert b. induction a as [|c a IH]; intros b Ha Hb Heq.
  - destruct b as [|d b]; [rewrite !app_empty in Heq; now inversion Heq|].
    rewrite app_empty, app_cons in Heq. injection Heq as Hc _.
    simpl in Hb. subst d. rewrite Ascii.eqb_refl in Hb. discriminate.
  - destruct b as [|d b].
    + rewrite app_empty, app_cons in Heq. injection Heq as Hc _.
      simpl in Ha. subst c. rewrite Ascii.eqb_refl in Ha. discriminate.
    + rewrite !app_cons in Heq. injection Heq as Hc Hrest.
      simpl in Ha, Hb.
      apply andb_prop in Ha as [_ Ha]. apply andb_prop in Hb as [_ Hb].
      destruct (IH b Ha Hb Hrest) as [-> ->]. now subst.
Qed.

End FmtFacts.

(** ** Trimming *)

Module GoStringsFacts.
Import GoStrings.

Lemma rev_app_spec (s acc : string) :
  list_ascii_of_string (String.rev_app s acc)
  = (rev (list_ascii_of_string s) ++ list_ascii_of_string acc)%list.
Proof.
  revert acc. induction s as [|c s IH]; intros acc; simpl; [reflexivity|].
  rewrite IH. simpl. now rewrite <- app_assoc.
Qed.

Lemma rev_spec (s : string) :
  list_ascii_of_string (String.rev s) = rev (list_ascii_of_string s).
Proof. unfold String.rev. rewrite rev_app_spec. simpl. apply app_nil_r. Qed.

Lemma rev_involutive (s : string) : String.rev (String.rev s) = s.
Proof.
  rewrite <- (string_of_list_ascii_of_string (String.rev (String.rev s))).
  rewrite !rev_spec, List.rev_involutive.
  apply string_of_list_ascii_of_string.
Qed.

Lemma trimLeft_leading (s : string) : leadingSpace (trimLeft s) = false.
Proof.
  induction s as [|c s IH]; simpl; [reflexivity|].
  destruct (Ascii.is_space c) eqn:Hc; [exact IH | simpl; exact Hc].
Qed.

(** [trimLeft] drops a prefix. *)
Lemma trimLeft_suffix (s : string) :
  exists p,
    list_ascii_of_string s = (p ++ list_ascii_of_string (trimLeft s))%list.
Proof.
  induction s as [|c s IH]; simpl; [now exists []|].
  destruct (Ascii.is_space c).
  - destruct IH as (p & Hp). exists (c :: p). simpl. now rewrite Hp.
  - now exists [].
Qed.

Lemma leadingSpace_list (s : string) :
  leadingSpace s = match list_ascii_of_string s with
                   | [] => false
                   | c :: _ => Ascii.is_space c
                   end.
Proof. destruct s; reflexivity. Qed.

(** What [TrimSpace] returns neither begins nor ends with white space. *)
Lemma TrimSpace_trimmed (s : string) :
  leadingSpace (TrimSpace s) = false /\ trailingSpace (TrimSpace s) = false.
Proof.
  unfold TrimSpace, trailingSpace. rewrite rev_involutive.
  split; [|apply trimLeft_leading].
  set (a := trimLeft s).
  destruct (trimLeft_suffix (String.rev a)) as (p & Hp).
  set (b := trimLeft (String.rev a)) in *.
  pose proof (trimLeft_leading s) as Ha. fold a in Ha.
  rewrite leadingSpace_list in Ha. rewrite leadingSpace_list, rev_spec.
  rewrite rev_spec in Hp.
  assert (Hrev : list_ascii_of_string a
                 = (rev (list_ascii_of_string b) ++ rev p)%list).
  { rewrite <- (List.rev_involutive (list_ascii_of_string a)), Hp.
    apply rev_app_distr. }
  rewrite Hrev in Ha.
  destruct (rev (list_ascii_of_string b)); [reflexivity | exact Ha].
Qed.

End GoStringsFacts.

(** ** Names of a batch *)

Section NameFacts.
Variable NamePrefix : string.

Lemma machineName_inj (id id' : option N) (i j : nat) :
  machineName NamePrefix id (Z.of_nat i) = machineName NamePrefix id' (Z.of_nat j) ->
  id = id' /\ i = j.
Proof.
  unfold machineName. intros Heq.
  apply (inj (String.app NamePrefix)) in Heq.
  change ("-" +:+ ?x) with (String Fmt.dash x) in Heq.
  injection Heq as Heq.
  apply FmtFacts.split_at_dash in Heq as [Hid Hidx];
    auto using FmtFacts.hexUpper_dashFree.
  split; [apply FmtFacts.hexUpper_inj | apply FmtFacts.decimal_of_nat_inj];
    assumption.
Qed.

(** The names of the indices [0 .. n-1] under one identifier: [n] names,
    pairwise distinct, each of the form prefix, dash, the identifier in
    upper-case hexadecimal, dash, the index; none of them is a name under
    another identifier. *)
Lemma batchNames_distinct (id : option N) (n : Z) :
  length (batchNames NamePrefix id n) = Z.to_nat n /\
  List.NoDup (batchNames NamePrefix id n) /\
  (forall name, In name (batchNames NamePrefix id n) ->
     exists i, 0 <= i < n /\
       name = NamePrefix +:+ "-" +:+ Fmt.hexUpper id +:+ "-" +:+ Fmt.decimal i) /\
  (forall id' n' name,
     id <> id' ->
     In name (batchNames NamePrefix id n) ->
     ~ In name (batchNames NamePrefix id' n')).
Proof.
  unfold batchNames. repeat split.
  - now rewrite length_map, length_seq.
  - apply Finite.Injective_map_NoDup; [|apply seq_NoDup].
    intros i j Heq. now apply machineName_inj in Heq.
  - intros name Hin. apply in_map_iff in Hin as (i & <- & Hi).
    apply in_seq in Hi. exists (Z.of_nat i). split; [lia | reflexivity].
  - intros id' n' name Hne Hin Hin'.
    apply in_map_iff in Hin as (i & <- & _).
    apply in_map_iff in Hin' as (j & Heq & _).
    apply machineName_inj in Heq as [Hid _]. congruence.
Qed.

End NameFacts.

Example batchNames_sample :
  List.NoDup (batchNames "e2e" (Some 11259375%N) 3) /\
  ~ In "e2e-ABCDEF-0" (batchNames "e2e" (Some 11259376%N) 3).
Proof.
  destruct (batchNames_distinct "e2e" (Some 11259375%N) 3)
    as (_ & Hnodup & _ & Hother).
  split; [exact Hnodup|].
  apply (Hother (Some 11259376%N) 3 "e2e-ABCDEF-0"); [discriminate|].
  vm_compute. tauto.
Qed.

(** ** Configuration read at start-up *)

Section InitFacts.
Variable lib : GoLib.
Variable env : Env.
Variable NamePrefix : string.

Lemma init_disk_dir (g : Globals) :
  VirshDiskDir (init env g) = getenv env "VIRSH_DISK_DIR".
Proof. reflexivity. Qed.

(** C10. With [VIRSH_DISK_DIR] unset, [init] replaces the declared
    [/e2e] by the empty string, and [NewVirshMachines] then answers every
    request with the missing-configuration error, touching nothing. *)
Theorem unset_disk_dir_never_usable
  (sched : list Turn) (linuxCount windowsCount : Z) (w : World) :
  getenv env "VIRSH_DISK_DIR" = "" ->
  VirshDiskDir declaredGlobals = "/e2e" /\
  VirshDiskDir (init env declaredGlobals) = "" /\
  NewVirshMachines lib env NamePrefix (init env declaredGlobals) sched
    linuxCount windowsCount w
  = ({| linux := []; windows := []; err := Some missingDiskDir;
        sendOnClosed := [] |}, w).
Proof.
  intros Hunset. split; [reflexivity|]. split.
  - rewrite init_disk_dir. exact Hunset.
  - unfold NewVirshMachines. rewrite init_disk_dir, Hunset. reflexivity.
Qed.

End InitFacts.

Lemma unset_disk_dir_never_usable_witness :
  NewVirshMachines Sim.lib (Sim.withGetenv Sim.host (fun _ => "")) "e2e"
    (init (Sim.withGetenv Sim.host (fun _ => "")) declaredGlobals)
    [] 3 0 Sim.boot
  = ({| linux := []; windows := []; err := Some missingDiskDir;
        sendOnClosed := [] |}, Sim.boot).
Proof.
  apply (unset_disk_dir_never_usable Sim.lib
           (Sim.withGetenv Sim.host (fun _ => "")) "e2e" [] 3 0 Sim.boot).
  reflexivity.
Defined.

(** ** Disk cloning *)

Section CloneFacts.
Variable lib : GoLib.
Variable env : Env.

(** C5. When a file already bears the name derived for the clone,
    [cloneDisk] returns an error, the machine (its [DiskPath] included) is
    as before, and nothing was run: the world, and so its trace, is
    unchanged. *)
Theorem cloneDisk_existing_clone (m : VirshMachine) (w : World) :
  fileExists w (linkedCloneName lib m) = true ->
  exists e,
    cloneDisk lib env m w = (Some e, m, w) /\
    DiskPath (snd (fst (cloneDisk lib env m w))) = DiskPath m /\
    trace (snd (cloneDisk lib env m w)) = trace w.
Proof.
  intros Hex. unfold cloneDisk. rewrite Hex. eexists.
  split; [reflexivity|]. simpl. split; reflexivity.
Qed.

End CloneFacts.

Lemma cloneDisk_existing_clone_witness :
  exists e,
    cloneDisk Sim.lib Sim.host (Sim.machine 0)
      {| files := <["/e2e/e2e-ABCDEF-0.qcow2" := "old"]> Sim.disk;
         clock := 0; trace := [] |}
    = (Some e, Sim.machine 0,
       {| files := <["/e2e/e2e-ABCDEF-0.qcow2" := "old"]> Sim.disk;
          clock := 0; trace := [] |}).
Proof.
  destruct (cloneDisk_existing_clone Sim.lib Sim.host (Sim.machine 0)
              {| files := <["/e2e/e2e-ABCDEF-0.qcow2" := "old"]> Sim.disk;
                 clock := 0; trace := [] |}) as (e & He & _).
  - vm_compute. reflexivity.
  - exists e. exact He.
Defined.

(** ** The remote shell *)

Section ShellFacts.
Variable lib : GoLib.
Variable env : Env.

(** C9, as the code has it. [MachineSSH] returns the trimmed combined
    output of the [ssh] process as its first result and, next to it, the
    error of that process as it is: on a failure the caller gets the output
    and the error side by side. *)
Theorem MachineSSH_result (m : VirshMachine) (command : string) (w : World) :
  let r := execCmd env w (sshArgs m command) in
  let out := fst (fst (MachineSSH env m command w)) in
  fst (MachineSSH env m command w) = (GoStrings.TrimSpace (rout r), rerr r) /\
  GoStrings.leadingSpace out = false /\ GoStrings.trailingSpace out = false /\
  (forall status, rerr r = Some (ExitError status) ->
     snd (fst (MachineSSH env m command w)) = Some (ExitError status) /\
     out = GoStrings.TrimSpace (rout r)).
Proof.
  intros r out. subst out. unfold MachineSSH, exec. fold r. simpl.
  split; [reflexivity|].
  destruct (GoStringsFacts.TrimSpace_trimmed (rout r)) as [Hl Ht].
  split; [exact Hl|]. split; [exact Ht|].
  intros status Hst. rewrite Hst. split; reflexivity.
Qed.

End ShellFacts.

Lemma MachineSSH_result_witness :
  fst (MachineSSH refusedShell (Sim.machine 0) "uptime" Sim.boot)
  = ("Permission denied (publickey).", Some (ExitError 255)).
Proof.
  pose proof (MachineSSH_result refusedShell (Sim.machine 0) "uptime" Sim.boot)
    as (Hfst & _ & _ & Hexit).
  destruct (Hexit 255 eq_refl) as [Herr Hout].
  rewrite Hfst. vm_compute. reflexivity.
Defined.

(** C9 as stated fails: with the shell refused, the error returned is the
    exit status of the process, and the output is not part of it. *)
Lemma MachineSSH_error_without_output :
  let '(out, err, _) := MachineSSH refusedShell (Sim.machine 0) "uptime" Sim.boot in
  out = "Permission denied (publickey)." /\
  err = Some (ExitError 255) /\
  errString (ExitError 255) = "exit status 255" /\
  occursIn out (errString (ExitError 255)) = false.
Proof. vm_compute. repeat split; reflexivity. Qed.

(** ** The domain descriptor *)

Section DefineFacts.
Variable lib : GoLib.
Variable env : Env.

Lemma osRemove_gone (p : string) (w : World) :
  files (snd (osRemove p w)) !! p = None.
Proof.
  unfold osRemove. destruct (files w !! p) eqn:Hp; simpl.
  - apply lookup_delete_eq.
  - exact Hp.
Qed.

(** C6, as the code has it. The descriptor is removed on the two ways out
    that follow a successful write (registration done or failed); when the
    template fails nothing has been written and the world is untouched;
    when the write itself fails [define] returns before any removal is
    arranged, and the path holds whatever the failed write left. *)
Theorem define_descriptor (m : VirshMachine) (w : World) :
  let p := defFile lib m in
  let after := snd (define lib env m w) in
  (* the template is not parsed or not rendered *)
  ((template_Parse lib domainXMLTemplate <> None \/
    exists e, template_Execute lib domainXMLTemplate m = inl e) ->
   after = w /\ fst (define lib env m w) <> None) /\
  (forall xml,
     template_Parse lib domainXMLTemplate = None ->
     template_Execute lib domainXMLTemplate m = inr xml ->
     (* the write succeeded: registered or not, the file is gone *)
     (writeOutcome env w p xml = WriteOk -> fileExists after p = false) /\
     (* the write failed: no removal *)
     (forall e left,
        writeOutcome env w p xml = WriteFailed e left ->
        fst (define lib env m w) = Some e /\
        files after !! p = match left with
                           | Some part => Some part
                           | None => files w !! p
                           end)).
Proof.
  intros p after. subst after. unfold define. split.
  - intros [Hparse | [e Hexec]].
    + destruct (template_Parse lib domainXMLTemplate); [|congruence].
      simpl. split; [reflexivity | discriminate].
    + destruct (template_Parse lib domainXMLTemplate);
        [simpl; split; [reflexivity | discriminate]|].
      rewrite Hexec. simpl. split; [reflexivity | discriminate].
  - intros xml Hparse Hexec. rewrite Hparse, Hexec. fold p. split.
    + intros Hw. unfold writeFile. rewrite Hw. simpl.
      unfold fileExists. rewrite osRemove_gone.
      apply bool_decide_eq_false. intros [x Hx]. discriminate.
    + intros e left Hw. unfold writeFile. rewrite Hw.
      destruct left as [part|]; simpl; split; try reflexivity.
      apply lookup_insert_eq.
Qed.

End DefineFacts.

Lemma define_descriptor_witness :
  fileExists (snd (define Sim.lib Sim.host (cloned 0) Sim.boot))
    (defFile Sim.lib (cloned 0)) = false.
Proof.
  pose proof (define_descriptor Sim.lib Sim.host (cloned 0) Sim.boot) as [_ H].
  destruct (H _ eq_refl eq_refl) as [Hok _].
  apply Hok. reflexivity.
Defined.

(** C6 as stated fails on the write-failure path: the disk fills up while
    the descriptor is written, [define] returns the error, and the partly
    written descriptor, which was not there before, stays. *)
Lemma define_leaves_partial_descriptor :
  let p := defFile Sim.lib (cloned 0) in
  let '(res, after) := define Sim.lib fullDisk (cloned 0) Sim.boot in
  p = "/e2e/e2e-ABCDEF-0.xml" /\
  fileExists Sim.boot p = false /\
  res = Some (SysError "write: no space left on device") /\
  fileExists after p = true /\
  files after !! p = Some "<domain>".
Proof. vm_compute. repeat split; reflexivity. Qed.

(** ** The convergence poller *)

Module ConvergeFacts.
Import Converge.

Section Poll.
Variables deadline interval : Z.
Variable test : nat -> option Err.
Hypothesis interval_pos : 0 < interval.

Lemma pollLoop_converges (n : nat) :
  forall fuel j t,
    (n < fuel)%nat ->
    (forall x, (x < n)%nat -> test (j + x) <> None) ->
    test (j + n) = None ->
    t + Z.of_nat n * interval < deadline ->
    pollLoop fuel deadline interval test j t
    = (Converged, t + Z.of_nat n * interval).
Proof.
  induction n as [|n IH]; intros fuel j t Hfuel Hfail Hok Htime;
    (destruct fuel as [|fuel]; [lia|]); simpl.
  - rewrite Nat.add_0_r in Hok. rewrite Hok. f_equal. lia.
  - destruct (test j) as [e|] eqn:Hj.
    + destruct (Z.leb_spec deadline (t + interval)); [nia|].
      rewrite (IH fuel (S j) (t + interval)).
      * f_equal. lia.
      * lia.
      * intros x Hx. replace (S j + x)%nat with (j + S x)%nat by lia.
        apply Hfail. lia.
      * replace (S j + n)%nat with (j + S n)%nat by lia. exact Hok.
      * lia.
    + exfalso. apply (Hfail 0%nat); [lia|]. now rewrite Nat.add_0_r.
Qed.

Lemma pollLoop_gives_up (fuel : nat) :
  forall j t,
    t < deadline ->
    deadline <= t + Z.of_nat fuel * interval ->
    (forall x, t + Z.of_nat x * interval < deadline -> test (j + x) <> None) ->
    exists e x,
      pollLoop fuel deadline interval test j t = (GaveUp e, deadline) /\
      test (j + x) = Some e /\
      t + Z.of_nat x * interval < deadline /\
      deadline <= t + Z.of_nat (S x) * interval.
Proof.
  induction fuel as [|fuel IH]; intros j t Ht Hfuel Hfail; [lia|]. simpl.
  destruct (test j) as [e|] eqn:Hj.
  - destruct (Z.leb_spec deadline (t + interval)).
    + exists e, 0%nat. rewrite Nat.add_0_r. repeat split; auto; lia.
    + destruct (IH (S j) (t + interval)) as (e' & x & Hrun & He' & Hx & Hx');
        [lia | lia | |].
      * intros x Hx. replace (S j + x)%nat with (j + S x)%nat by lia.
        apply Hfail. lia.
      * exists e', (S x). rewrite Hrun.
        replace (j + S x)%nat with (S j + x)%nat by lia.
        repeat split; auto; lia.
  - exfalso. apply (Hfail 0%nat); [lia|]. now rewrite Nat.add_0_r.
Qed.

Lemma ticksBefore_covers :
  0 < deadline -> deadline <= Z.of_nat (ticksBefore deadline interval) * interval.
Proof.
  intros Hd. unfold ticksBefore.
  rewrite Z2Nat.id by (apply Z.div_pos; lia).
  pose proof (Z.div_mod (deadline + interval - 1) interval ltac:(lia)).
  pose proof (Z.mod_pos_bound (deadline + interval - 1) interval interval_pos).
  nia.
Qed.

Lemma ticksBefore_fits (n : nat) :
  Z.of_nat n * interval < deadline -> (n < ticksBefore deadline interval)%nat.
Proof.
  intros Hn. unfold ticksBefore.
  apply Nat2Z.inj_lt. rewrite Z2Nat.id by (apply Z.div_pos; lia).
  pose proof (Z.div_le_lower_bound (deadline + interval - 1) interval
                (Z.of_nat n + 1) interval_pos ltac:(nia)).
  lia.
Qed.

(** C4. With a predicate that first succeeds on its [k]-th invocation:
    when [(k-1) * interval] is before the deadline the wait succeeds, at a
    time not earlier than [(k-1) * interval] and before the deadline;
    otherwise it ends at the deadline with an error, which is the error of
    the context when the deadline was already due and the last error of
    the predicate when it was not. *)
Theorem awaitConverge_timing (k : nat) :
  firstSucceedsOn test k ->
  (Z.of_nat (k - 1) * interval < deadline ->
   exists t,
     awaitConverge deadline interval test = (Converged, t) /\
     Z.of_nat (k - 1) * interval <= t < deadline) /\
  (deadline <= Z.of_nat (k - 1) * interval ->
   exists e,
     awaitConverge deadline interval test = (GaveUp e, Z.max 0 deadline) /\
     ((deadline <= 0 /\ e = deadlineExceeded) \/
      (exists j, (j < k - 1)%nat /\ test j = Some e /\
                 Z.of_nat j * interval < deadline <= Z.of_nat (S j) * interval))).
Proof.
  intros (Hk & Hok & Hfail). unfold awaitConverge. split.
  - intros Hbefore. exists (Z.of_nat (k - 1) * interval).
    destruct (Z.leb_spec deadline 0); [nia|].
    assert (Hrun : pollLoop (ticksBefore deadline interval) deadline interval
                     test 0 0
                   = (Converged, 0 + Z.of_nat (k - 1) * interval)).
    { apply pollLoop_converges; auto using ticksBefore_fits. }
    rewrite Hrun. split; [f_equal; lia | lia].
  - intros Hlate. destruct (Z.leb_spec deadline 0) as [Hd|Hd].
    + exists deadlineExceeded. split; [f_equal; lia | left; auto].
    + destruct (pollLoop_gives_up (ticksBefore deadline interval) 0%nat 0)
        as (e & x & Hrun & He & Hx & Hx').
      * lia.
      * pose proof (ticksBefore_covers Hd). lia.
      * intros x Hx. apply Hfail. nia.
      * exists e. rewrite Hrun. split; [f_equal; lia|]. right.
        exists x. simpl in He. repeat split; auto; try lia. nia.
Qed.

End Poll.
End ConvergeFacts.

Lemma awaitConverge_timing_witness :
  exists t,
    Converge.awaitConverge 60000 1000 thirdTime = (Converge.Converged, t) /\
    2000 <= t < 60000.
Proof.
  destruct (ConvergeFacts.awaitConverge_timing 60000 1000 thirdTime
              ltac:(lia) 3) as [Hin _].
  - split; [lia|]. split; [reflexivity|].
    intros j Hj. destruct j as [|[|j]]; simpl; [discriminate | discriminate | lia].
  - apply Hin. simpl. lia.
Defined.

Example awaitConverge_sample :
  Converge.awaitConverge 60000 1000 thirdTime = (Converge.Converged, 2000) /\
  Converge.awaitConverge 1500 1000 thirdTime
  = (Converge.GaveUp (Errorf "expected 3 tasks, got fewer"), 1500).
Proof. vm_compute. split; reflexivity. Qed.

(** ** Traces *)

Section TraceFacts.
Variable env : Env.
Variable P : Event -> Prop.

Lemma extends_refl (w : World) : extends P w w.
Proof. exists []. split; [now rewrite app_nil_r | constructor]. Qed.

Lemma extends_trans (w1 w2 w3 : World) :
  extends P w1 w2 -> extends P w2 w3 -> extends P w1 w3.
Proof.
  intros (e1 & H1 & F1) (e2 & H2 & F2). exists (e1 ++ e2)%list. split.
  - rewrite H2, H1. now rewrite app_assoc.
  - apply Forall_app; auto.
Qed.

Lemma extends_record (e : Event) (w : World) : P e -> extends P w (record e w).
Proof. intros He. exists [e]. split; [reflexivity | repeat constructor; auto]. Qed.

Lemma extends_elapse (d : Z) (w : World) : extends P w (elapse d w).
Proof. exists []. split; [simpl; now rewrite app_nil_r | constructor]. Qed.

Lemma extends_sleep (ms : Z) (w : World) :
  P (EvSleep ms) -> extends P w (sleep ms w).
Proof.
  intros He. unfold sleep.
  eapply extends_trans; [apply extends_record; eauto | apply extends_elapse].
Qed.

Lemma extends_logAt (l : Level) (msg : string) (w : World) :
  P (EvLog l msg) -> extends P w (logAt l msg w).
Proof. apply extends_record. Qed.

Lemma extends_expire (d : Z) (w : World) : extends P w (expire d w).
Proof. exists []. split; [simpl; now rewrite app_nil_r | constructor]. Qed.

Lemma extends_exec (argv : list string) (w : World) :
  (forall e out, P (EvExec argv e out)) ->
  extends P w (snd (exec env argv w)).
Proof.
  intros He. exists [EvExec argv (rerr (execCmd env w argv))
                       (rout (execCmd env w argv))].
  split; [reflexivity | repeat constructor; auto].
Qed.

Lemma clock_sleep (ms : Z) (w : World) : clock (sleep ms w) = clock w + Z.max 0 ms.
Proof. reflexivity. Qed.

End TraceFacts.

Create HintDb trace.

Global Hint Resolve extends_refl extends_record extends_elapse extends_sleep
  extends_logAt extends_expire extends_exec : trace.

(** ** Powering on *)

Section StartFacts.
Variable lib : GoLib.
Variable env : Env.

Abbreviation harmless := (fun e => tearsDown e = false).

Lemma waitForIP_harmless (deadline : Z) (fuel : nat) :
  forall m w,
    match waitForIP lib env fuel deadline m w with
    | Delivered m' w' | Expired m' w' =>
        extends harmless w w' /\ MachineName m' = MachineName m
    end.
Proof.
  induction fuel as [|fuel IH]; intros m w; simpl.
  - split; auto with trace.
  - destruct (deadline <=? clock w); [split; auto with trace|].
    set (r := execCmd env w _).
    set (w1 := elapse _ _).
    assert (H1 : extends harmless w w1).
    { apply (extends_exec env harmless ["virsh"; "-q"; "domifaddr"; GetName m] w).
      reflexivity. }
    destruct (match rerr r with
              | Some _ => None
              | None => _
              end) as [addr|].
    + split; [exact H1 | reflexivity].
    + specialize (IH m (sleep 1000 w1)).
      destruct (waitForIP lib env fuel deadline m (sleep 1000 w1));
        destruct IH as [IH Hname]; (split; [|exact Hname]);
        (eapply extends_trans; [exact H1|]);
        (eapply extends_trans; [apply extends_sleep; reflexivity | exact IH]).
Qed.

Lemma waitForSSH_harmless (deadline : Z) (fuel : nat) :
  forall m w,
    match waitForSSH env fuel deadline m w with
    | Delivered m' w' | Expired m' w' => extends harmless w w' /\ m' = m
    end.
Proof.
  induction fuel as [|fuel IH]; intros m w; simpl.
  - split; auto with trace.
  - destruct (deadline <=? clock w); [split; auto with trace|].
    set (r := execCmd env w _).
    set (w1 := elapse _ _).
    assert (H1 : extends harmless w w1).
    { apply (extends_exec env harmless (sshArgs m "uptime") w). reflexivity. }
    destruct (rerr r).
    + specialize (IH m (sleep 500 w1)).
      destruct (waitForSSH env fuel deadline m (sleep 500 w1));
        destruct IH as [IH Hm]; (split; [|exact Hm]);
        (eapply extends_trans; [exact H1|]);
        (eapply extends_trans; [apply extends_sleep; reflexivity | exact IH]).
    + split; [exact H1 | reflexivity].
Qed.

Lemma startPoller_harmless (deadline : Z) (m : VirshMachine) (w : World) :
  match startPoller lib env deadline m w with
  | Delivered m' w' | Expired m' w' =>
      extends harmless w w' /\ MachineName m' = MachineName m
  end.
Proof.
  unfold startPoller.
  pose proof (waitForIP_harmless deadline (rounds 60000 1000) m w) as H1.
  destruct (waitForIP lib env (rounds 60000 1000) deadline m w) as [m1 w1|m1 w1];
    [|exact H1].
  destruct H1 as [H1 Hname].
  pose proof (waitForSSH_harmless deadline (rounds 60000 500) m1 w1) as H2.
  destruct (waitForSSH env (rounds 60000 500) deadline m1 w1) as [m2 w2|m2 w2];
    destruct H2 as [H2 ->]; (split; [|exact Hname]);
    eapply extends_trans; eauto.
Qed.

(** Whatever its outcome, [Start] runs nothing that stops, destroys or
    unregisters a machine, deletes no file, and keeps the machine's name. *)
Lemma Start_harmless (m : VirshMachine) (w : World) :
  extends harmless w (snd (Start lib env m w)) /\
  MachineName (snd (fst (Start lib env m w))) = MachineName m.
Proof.
  unfold Start.
  assert (H0 : extends harmless w (snd (exec env ["virsh"; "start"; MachineName m] w))).
  { apply extends_exec. reflexivity. }
  destruct (exec env ["virsh"; "start"; MachineName m] w) as [r w1]. simpl in H0.
  destruct (rerr r).
  - simpl. split; [|reflexivity].
    eapply extends_trans; [exact H0 | apply extends_logAt; reflexivity].
  - pose proof (startPoller_harmless (clock w1 + 60000) m w1) as Hp.
    unfold awaitPoll.
    destruct (startPoller lib env (clock w1 + 60000) m w1) as [m' w'|m' w'];
      destruct Hp as [Hp Hname].
    + destruct (timerFirst env (clock w1 + 60000) (clock w')); simpl;
        (split; [|exact Hname]).
      * eapply extends_trans; [exact H0|].
        eapply extends_trans; [exact Hp | apply extends_expire].
      * eapply extends_trans; eauto.
    + simpl. split; [|exact Hname].
      eapply extends_trans; [exact H0|].
      eapply extends_trans; [exact Hp | apply extends_expire].
Qed.

(** The pollers are followed for long enough: one is only reported as
    expired once the timer is due. *)
Lemma waitForIP_due (deadline : Z) (fuel : nat) :
  forall m w,
    deadline - clock w < Z.of_nat fuel * 1000 ->
    match waitForIP lib env fuel deadline m w with
    | Delivered _ w' => clock w <= clock w'
    | Expired _ w' => deadline <= clock w'
    end.
Proof.
  induction fuel as [|fuel IH]; intros m w Hfuel; simpl; [lia|].
  destruct (Z.leb_spec deadline (clock w)); [assumption|].
  set (r := execCmd env w _).
  set (w1 := elapse _ _).
  assert (H1 : clock w <= clock w1) by (subst w1; simpl; lia).
  destruct (match rerr r with
            | Some _ => None
            | None => _
            end) as [addr|]; [exact H1|].
  specialize (IH m (sleep 1000 w1)). rewrite clock_sleep in IH.
  destruct (waitForIP lib env fuel deadline m (sleep 1000 w1)); lia.
Qed.

Lemma waitForSSH_due (deadline : Z) (fuel : nat) :
  forall m w,
    deadline - clock w < Z.of_nat fuel * 500 ->
    match waitForSSH env fuel deadline m w with
    | Delivered _ w' => clock w <= clock w'
    | Expired _ w' => deadline <= clock w'
    end.
Proof.
  induction fuel as [|fuel IH]; intros m w Hfuel; simpl; [lia|].
  destruct (Z.leb_spec deadline (clock w)); [assumption|].
  set (r := execCmd env w _).
  set (w1 := elapse _ _).
  assert (H1 : clock w <= clock w1) by (subst w1; simpl; lia).
  destruct (rerr r); [|exact H1].
  specialize (IH m (sleep 500 w1)). rewrite clock_sleep in IH.
  destruct (waitForSSH env fuel deadline m (sleep 500 w1)); lia.
Qed.

Lemma startPoller_due (m : VirshMachine) (w : World) :
  match startPoller lib env (clock w + 60000) m w with
  | Delivered _ w' => clock w <= clock w'
  | Expired _ w' => clock w + 60000 <= clock w'
  end.
Proof.
  assert (R1 : Z.of_nat (rounds 60000 1000) = 61) by reflexivity.
  assert (R2 : Z.of_nat (rounds 60000 500) = 121) by reflexivity.
  unfold startPoller.
  pose proof (waitForIP_due (clock w + 60000) (rounds 60000 1000) m w) as H1.
  rewrite R1 in H1. specialize (H1 ltac:(lia)).
  destruct (waitForIP lib env (rounds 60000 1000) (clock w + 60000) m w)
    as [m1 w1|m1 w1]; [|exact H1].
  pose proof (waitForSSH_due (clock w + 60000) (rounds 60000 500) m1 w1) as H2.
  rewrite R2 in H2. specialize (H2 ltac:(lia)).
  destruct (waitForSSH env (rounds 60000 500) (clock w + 60000) m1 w1); lia.
Qed.

(** C7. The machine was powered on, and the goroutine of [Start] (address
    discovery every second, then [uptime] over the remote shell) does not
    deliver before the 60s timer is taken. Then the 60 seconds have passed
    where the goroutine was last seen, [Start] returns the timeout error
    when that timer fires, and from its call to its return nothing was run
    that stops, destroys or unregisters a machine. *)
Theorem Start_timeout_leaves_machine (m : VirshMachine) (w : World) :
  let on := exec env ["virsh"; "start"; MachineName m] w in
  rerr (fst on) = None ->
  startedInTime lib env m (snd on) = false ->
  fst (fst (Start lib env m w)) = Some (verifyTimeout (GetName m)) /\
  clock (snd (Start lib env m w)) = clock (snd on) + 60000 /\
  match startPoller lib env (clock (snd on) + 60000) m (snd on) with
  | Delivered _ seen | Expired _ seen => clock (snd on) + 60000 <= clock seen
  end /\
  exists evs,
    trace (snd (Start lib env m w)) = (trace w ++ evs)%list /\
    Forall (fun e => tearsDown e = false) evs.
Proof.
  intros on Hon Hlate.
  assert (Hret : fst (fst (Start lib env m w)) = Some (verifyTimeout (GetName m))
                 /\ clock (snd (Start lib env m w)) = clock (snd on) + 60000).
  { unfold Start. fold on. destruct on as [r w1]. simpl in *. rewrite Hon.
    unfold startedInTime in Hlate. unfold awaitPoll.
    destruct (startPoller lib env (clock w1 + 60000) m w1);
      [|split; reflexivity].
    apply negb_false_iff in Hlate. rewrite Hlate. split; reflexivity. }
  destruct Hret as [Hres Hclock].
  split; [exact Hres|]. split; [exact Hclock|].
  split; [|exact (proj1 (Start_harmless m w))].
  pose proof (startPoller_due m (snd on)) as Hdue.
  unfold startedInTime in Hlate.
  destruct (startPoller lib env (clock (snd on) + 60000) m (snd on));
    [|exact Hdue].
  apply negb_false_iff in Hlate. unfold timerFirst in Hlate.
  apply orb_true_iff in Hlate as [Hlt|Heq].
  - apply Z.ltb_lt in Hlt. lia.
  - apply andb_true_iff in Heq as [Heq _]. apply Z.eqb_eq in Heq. lia.
Qed.

End StartFacts.

Lemma Start_timeout_leaves_machine_witness :
  fst (fst (Start Sim.lib noLease (cloned 0) Sim.boot))
  = Some (verifyTimeout "e2e-ABCDEF-0") /\
  clock (snd (Start Sim.lib noLease (cloned 0) Sim.boot)) = 60100.
Proof.
  destruct (Start_timeout_leaves_machine Sim.lib noLease (cloned 0) Sim.boot)
    as (Hres & Hclock & _ & _).
  - vm_compute. reflexivity.
  - vm_compute. reflexivity.
  - split; [exact Hres | rewrite Hclock; vm_compute; reflexivity].
Defined.

Example Start_sample :
  let '(res, m, w) := Start Sim.lib Sim.host (cloned 0) Sim.boot in
  (res, ip m, dockerHost m, clock w)
  = (None, "192.168.122.10", "tcp://192.168.122.10:2376", 300).
Proof. vm_compute. reflexivity. Qed.

(** ** Swarm bootstrap *)

Section BootstrapFacts.
Variable env : Env.
Context {M : Type} `{Cmd.Machine M}.

Lemma joinWorkers_through (listenAddr : string) (swarmInfo info : ApiResp)
  (workers : list M) :
  forall w,
    fst (Cmd.joinWorkers env listenAddr swarmInfo info workers w) = None ->
    exists clients,
      Forall2 (fun m c => Cmd.GetEngineAPI m = inr c) workers clients /\
      trace (snd (Cmd.joinWorkers env listenAddr swarmInfo info workers w))
      = (trace w
         ++ map (Cmd.joined listenAddr (hd "" (remoteManagers info))
                   (workerToken swarmInfo)) clients)%list.
Proof.
  induction workers as [|m rest IH]; intros w Hthrough; simpl in *.
  - exists []. split; [constructor | now rewrite app_nil_r].
  - destruct (Cmd.GetEngineAPI m) as [e|cli] eqn:Hcli; [discriminate|].
    destruct (remoteManagers info) as [|addr others] eqn:Hrm; [discriminate|].
    unfold Cmd.call in *.
    set (r := engineCall env w (chost cli) _) in *.
    set (w1 := elapse _ _) in *.
    destruct (aerr r) eqn:Hr; [discriminate|].
    destruct (IH w1 Hthrough) as (clients & Hall & Htrace).
    exists (cli :: clients). split; [constructor; assumption|].
    rewrite Htrace. simpl. rewrite <- app_assoc. reflexivity.
Qed.

(** C3, as the code has it. When the bootstrap over [leader :: workers]
    runs to its end, the engine calls it made are, in this order: one
    initialize on the leader, advertising its internal address; one read
    of the swarm and one read of the engine's information, both on the
    leader and made right after the initialize; and one join per worker,
    in list order, on the worker's own client, every one carrying the
    worker token of the swarm read and the first of the remote managers of
    the information read. *)
Theorem bootstrap_calls (listenAddr : string) (leader : M) (workers : list M)
  (w : World) :
  fst (Cmd.initAndJoin env listenAddr (leader :: workers) w) = None ->
  exists cli internalIP clients,
    Cmd.GetEngineAPI leader = inr cli /\
    Cmd.GetInternalIP leader = inr internalIP /\
    Forall2 (fun m c => Cmd.GetEngineAPI m = inr c) workers clients /\
    let '(_, w1) := Cmd.call env cli (SwarmInit listenAddr internalIP) w in
    let '(swarmInfo, w2) := Cmd.call env cli SwarmInspect w1 in
    let '(info, _) := Cmd.call env cli Info w2 in
    let token := workerToken swarmInfo in
    let addr := hd "" (remoteManagers info) in
    let after := trace (snd (Cmd.initAndJoin env listenAddr (leader :: workers) w)) in
    (workers <> [] -> exists others, remoteManagers info = addr :: others) /\
    after
    = (trace w
       ++ [EvApi (chost cli) (SwarmInit listenAddr internalIP) None;
           EvApi (chost cli) SwarmInspect None;
           EvApi (chost cli) Info None]
       ++ map (Cmd.joined listenAddr addr token) clients)%list /\
    length (Cmd.initCalls (skipn (length (trace w)) after)) = 1%nat /\
    length (Cmd.fetchCalls (skipn (length (trace w)) after)) = 2%nat /\
    length (Cmd.joinCalls (skipn (length (trace w)) after)) = length workers.
Proof.
  unfold Cmd.initAndJoin. intros Hthrough.
  destruct (Cmd.GetEngineAPI leader) as [e|cli] eqn:Hcli; [discriminate|].
  destruct (Cmd.GetInternalIP leader) as [e|internalIP] eqn:Hip; [discriminate|].
  exists cli, internalIP.
  unfold Cmd.call in *. cbv beta iota zeta in *.
  set (r1 := engineCall env w (chost cli) _) in *.
  set (w1 := elapse (atook r1) _) in *.
  destruct (aerr r1) eqn:Hr1; [discriminate|].
  set (swarmInfo := engineCall env w1 (chost cli) SwarmInspect) in *.
  set (w2 := elapse (atook swarmInfo) _) in *.
  destruct (aerr swarmInfo) eqn:Hr2; [discriminate|].
  set (info := engineCall env w2 (chost cli) Info) in *.
  set (w3 := elapse (atook info) _) in *.
  destruct (aerr info) eqn:Hr3; [discriminate|].
  destruct (joinWorkers_through listenAddr swarmInfo info workers w3 Hthrough)
    as (clients & Hall & Htrace).
  exists clients.
  repeat (split; [assumption || reflexivity|]).
  split.
  { intros Hsome. destruct workers as [|m rest]; [congruence|].
    cbn [Cmd.joinWorkers] in Hthrough.
    destruct (Cmd.GetEngineAPI m); [discriminate|].
    destruct (remoteManagers info) as [|addr others]; [discriminate|].
    now exists others. }
  assert (Hafter :
    trace (snd (Cmd.joinWorkers env listenAddr swarmInfo info workers w3))
    = (trace w
       ++ [EvApi (chost cli) (SwarmInit listenAddr internalIP) None;
           EvApi (chost cli) SwarmInspect None;
           EvApi (chost cli) Info None]
       ++ map (Cmd.joined listenAddr (hd "" (remoteManagers info))
                 (workerToken swarmInfo)) clients)%list).
  { rewrite Htrace. simpl. rewrite <- !app_assoc. reflexivity. }
  rewrite Hafter. split; [reflexivity|].
  rewrite skipn_app, skipn_all, Nat.sub_diag. simpl.
  assert (Hi : forall cs, Cmd.initCalls
             (map (Cmd.joined listenAddr (hd "" (remoteManagers info))
                     (workerToken swarmInfo)) cs) = []).
  { induction cs; simpl; auto. }
  assert (Hf : forall cs, Cmd.fetchCalls
             (map (Cmd.joined listenAddr (hd "" (remoteManagers info))
                     (workerToken swarmInfo)) cs) = []).
  { induction cs; simpl; auto. }
  assert (Hj : forall cs, length (Cmd.joinCalls
             (map (Cmd.joined listenAddr (hd "" (remoteManagers info))
                     (workerToken swarmInfo)) cs)) = length cs).
  { induction cs; simpl; auto. }
  rewrite Hi, Hf, Hj. repeat split.
  symmetry. eapply Forall2_length. exact Hall.
Qed.

End BootstrapFacts.

Lemma bootstrap_calls_witness :
  let after := trace (snd (simBootstrap Sim.host 4)) in
  length (Cmd.initCalls after) = 1%nat /\
  length (Cmd.fetchCalls after) = 2%nat /\
  length (Cmd.joinCalls after) = 3%nat /\
  Forall (fun hc => exists l, snd hc = SwarmJoin l ["192.168.122.10:2377"]
                                         "SWMTKN-1-worker")
    (Cmd.joinCalls after).
Proof.
  destruct (@bootstrap_calls Sim.host VirshMachine (simMachine Sim.host)
              "0.0.0.0:2377" (ready 0) [ready 1; ready 2; ready 3] Sim.boot)
    as (cli & internalIP & clients & Hcli & Hip & Hall & Hrest).
  - vm_compute. reflexivity.
  - injection Hcli as <-. injection Hip as <-.
    destruct (Cmd.call Sim.host _ (SwarmInit _ _) Sim.boot) as [r1 w1] eqn:H1.
    destruct (Cmd.call Sim.host _ SwarmInspect w1) as [swarmInfo w2] eqn:H2.
    destruct (Cmd.call Sim.host _ Info w2) as [info w3] eqn:H3.
    destruct Hrest as (_ & Hafter & Hi & Hf & Hj).
    injection H1 as <- <-. injection H2 as <- <-. injection H3 as <- _.
    split; [exact Hi|]. split; [exact Hf|]. split; [exact Hj|].
    cbv zeta. unfold simBootstrap.
    change (map (fun i => ready (Z.of_nat i)) (seq 0 4))
      with [ready 0; ready 1; ready 2; ready 3].
    rewrite Hafter.
    unfold Cmd.joinCalls. rewrite !flat_map_app.
    apply Forall_app. split; [vm_compute; constructor|].
    apply Forall_app. split; [vm_compute; constructor|].
    clear. induction clients as [|c cs IH]; [constructor|].
    constructor; [eexists; reflexivity | exact IH].
Defined.

Example bootstrap_sample :
  trace (snd (simBootstrap Sim.host 3))
  = [EvApi "tcp://192.168.122.10:2376"
       (SwarmInit "0.0.0.0:2377" "192.168.122.10") None;
     EvApi "tcp://192.168.122.10:2376" SwarmInspect None;
     EvApi "tcp://192.168.122.10:2376" Info None;
     EvApi "tcp://192.168.122.11:2376"
       (SwarmJoin "0.0.0.0:2377" ["192.168.122.10:2377"] "SWMTKN-1-worker") None;
     EvApi "tcp://192.168.122.12:2376"
       (SwarmJoin "0.0.0.0:2377" ["192.168.122.10:2377"] "SWMTKN-1-worker") None].
Proof. vm_compute. reflexivity. Qed.

(** C3 as stated fails: over three ready machines, the join of the first
    worker is refused; the bootstrap returns that error and has issued one
    join call, not two. *)
Lemma bootstrap_aborts_on_failed_join :
  let '(exit, w) := simBootstrap joinRefused 3 in
  exit = Some (Cmd.Returned (Some (SysError "rpc error: timeout reaching manager"))) /\
  length (Cmd.initCalls (trace w)) = 1%nat /\
  length (Cmd.joinCalls (trace w)) = 1%nat /\
  length (Cmd.joinCalls (trace w)) <> (3 - 1)%nat.
Proof. vm_compute. repeat split; discriminate. Qed.

(** ** Removal *)

Section RemoveFacts.
Variable lib : GoLib.
Variable env : Env.

Abbreviation calm := (fun e => isUndefine e = false).

Lemma getActiveMachines_calm (w : World) :
  extends calm w (snd (getActiveMachines lib env w)).
Proof.
  unfold getActiveMachines.
  assert (H0 : extends calm w (snd (exec env ["virsh"; "-q"; "list"] w)))
    by (apply extends_exec; reflexivity).
  destruct (exec env ["virsh"; "-q"; "list"] w) as [r w1]. simpl in *.
  destruct (rerr r); [|exact H0].
  eapply extends_trans; [exact H0 | apply extends_logAt; reflexivity].
Qed.

Lemma IsRunning_calm (m : VirshMachine) (w : World) :
  extends calm w (snd (IsRunning lib env m w)).
Proof.
  unfold IsRunning. pose proof (getActiveMachines_calm w) as H0.
  destruct (getActiveMachines lib env w) as [names w1]. exact H0.
Qed.

Lemma killPoll_calm (deadline : Z) (fuel : nat) :
  forall m w,
    match killPoll lib env fuel deadline m w with
    | Delivered _ w' | Expired _ w' => extends calm w w'
    end.
Proof.
  induction fuel as [|fuel IH]; intros m w; cbn [killPoll];
    [apply extends_refl|].
  destruct (deadline <=? clock w); [apply extends_refl|].
  pose proof (IsRunning_calm m w) as H0.
  destruct (IsRunning lib env m w) as [running w1]. cbn [snd] in H0.
  destruct running; cbn [negb]; [|exact H0].
  specialize (IH m (sleep 500 w1)).
  destruct (killPoll lib env fuel deadline m (sleep 500 w1));
    (eapply extends_trans; [exact H0|]);
    (eapply extends_trans; [apply extends_sleep; reflexivity | exact IH]).
Qed.

Lemma Kill_calm (m : VirshMachine) (w : World) :
  extends calm w (snd (Kill lib env m w)).
Proof.
  unfold Kill.
  assert (H0 : extends calm w (snd (exec env ["virsh"; "destroy"; MachineName m] w)))
    by (apply extends_exec; reflexivity).
  destruct (exec env ["virsh"; "destroy"; MachineName m] w) as [r w1].
  simpl in H0. destruct (rerr r).
  - simpl. eapply extends_trans; [exact H0 | apply extends_logAt; reflexivity].
  - pose proof (killPoll_calm (clock w1 + 60000) (rounds 60000 500) m w1) as Hp.
    unfold awaitPoll.
    destruct (killPoll lib env (rounds 60000 500) (clock w1 + 60000) m w1)
      as [m' w'|m' w'].
    + destruct (timerFirst env (clock w1 + 60000) (clock w')); simpl;
        (eapply extends_trans; [exact H0|]);
        [eapply extends_trans; [exact Hp | apply extends_expire] | exact Hp].
    + simpl. eapply extends_trans; [exact H0|].
      eapply extends_trans; [exact Hp | apply extends_expire].
Qed.

(** The poller of [Kill] is followed for long enough as well. *)
Lemma killPoll_due (deadline : Z) (fuel : nat) :
  forall m w,
    deadline - clock w < Z.of_nat fuel * 500 ->
    match killPoll lib env fuel deadline m w with
    | Delivered _ w' => clock w <= clock w'
    | Expired _ w' => deadline <= clock w'
    end.
Proof.
  induction fuel as [|fuel IH]; intros m w Hfuel; cbn [killPoll]; [lia|].
  destruct (Z.leb_spec deadline (clock w)); [assumption|].
  assert (H1 : clock w <= clock (snd (IsRunning lib env m w))).
  { unfold IsRunning, getActiveMachines, exec. simpl.
    destruct (rerr (execCmd env w ["virsh"; "-q"; "list"])); simpl; lia. }
  destruct (IsRunning lib env m w) as [running w1]. cbn [snd] in H1.
  destruct running; cbn [negb]; [|exact H1].
  specialize (IH m (sleep 500 w1)). rewrite clock_sleep in IH.
  destruct (killPoll lib env fuel deadline m (sleep 500 w1)); lia.
Qed.







End RemoveFacts.

(** ** The readiness goroutines *)

Section FanFacts.
Variable lib : GoLib.
Variable env : Env.
Variable g : Globals.

Lemma grows_In (w w' : World) (e : Event) :
  grows w w' -> In e (trace w) -> In e (trace w').
Proof. intros (evs & -> & _) Hin. apply in_or_app. now left. Qed.

Lemma extends_grows (P : Event -> Prop) (w w' : World) :
  extends P w w' -> grows w w'.
Proof.
  intros (evs & H & _). exists evs. split; [exact H|].
  apply List.Forall_forall. trivial.
Qed.

Lemma taskSound_mono (tr tr' : list Event) (buf buf' : list (option Err))
  (t : Task) :
  (forall e, In e tr -> In e tr') -> (forall r, In r buf -> In r buf') ->
  taskSound tr buf t -> taskSound tr' buf' t.
Proof.
  intros Htr Hbuf. unfold taskSound. destruct (tpc t); auto.
  intros (r & Hr & He). exists r. auto.
Qed.

Lemma map_insert_same {A B : Type} (h : A -> B) (l : list A) :
  forall i x y, l !! i = Some x -> h y = h x -> map h (<[i:=y]> l) = map h l.
Proof.
  induction l as [|a l IH]; intros [|i] x y Hi Hh; simpl in *; try discriminate.
  - injection Hi as ->. now rewrite Hh.
  - f_equal. eapply IH; eauto.
Qed.

Lemma pendingCount_insert (l : list Task) :
  forall i t t',
    l !! i = Some t ->
    pendingCount (<[i:=t']> l) = pendingCount l - pending t + pending t'.
Proof.
  unfold pendingCount.
  induction l as [|a l IH]; intros [|i] t t' Hi; simpl in *; try discriminate.
  - injection Hi as ->. lia.
  - rewrite (IH i t t' Hi). lia.
Qed.

Lemma spawn_inv (ms : list VirshMachine) (w : World) :
  fanInv ms w (spawn ms w).
Proof.
  split.
  - simpl. rewrite map_map. simpl. apply map_id.
  - simpl. apply List.Forall_forall. intros t Hin.
    apply in_map_iff in Hin as (m & <- & _). exact I.
  - constructor.
  - unfold spawn, pendingCount. cbn [wgCount tasks].
    induction ms as [|m ms IH]; [reflexivity|].
    cbn [length map fold_right]. rewrite Nat2Z.inj_succ, IH.
    set (X := fold_right _ _ _). change (Z.succ X = 1 + X). lia.
  - apply extends_refl.
Qed.

Lemma stepTask_inv (ms : list VirshMachine) (w0 : World) (i : nat) (f : Fan) :
  fanInv ms w0 f -> fanInv ms w0 (stepTask env g i f).
Proof.
  intros [Hms Hts Hbuf Hcount Hgrow]. unfold stepTask.
  destruct (tasks f !! i) as [t|] eqn:Hi; [|split; assumption].
  assert (Ht : taskSound (trace (fworld f)) (errBuf f) t).
  { rewrite Forall_lookup in Hts. eauto. }
  destruct (tpc t) as [| |res|res|] eqn:Hpc.
  - (* host name *)
    unfold MachineSSH, exec.
    set (r := execCmd env (atClock (tclock t) (fworld f)) _).
    set (w1 := elapse _ _).
    set (w2 := match rerr r with Some _ => _ | None => w1 end).
    assert (Hw : grows (fworld f) w2).
    { subst w2 w1. destruct (rerr r).
      - exists [EvExec (sshArgs (tmachine t) (hostnameCommand (tmachine t)))
                  (Some e) (rout r);
                EvLog LWarn
                  ("Failed to set hostname to " +:+ GetName (tmachine t) +:+ ": "
                   +:+ errString e +:+ ": " +:+ GoStrings.TrimSpace (rout r))].
        split; [simpl; rewrite <- app_assoc; reflexivity|].
        apply List.Forall_forall. trivial.
      - exists [EvExec (sshArgs (tmachine t) (hostnameCommand (tmachine t)))
                  None (rout r)].
        split; [reflexivity | apply List.Forall_forall; trivial]. }
    split; simpl.
    + rewrite <- Hms. eapply map_insert_same; eauto.
    + apply Forall_insert; [|exact I].
      eapply Forall_impl; [exact Hts|]. intros t'.
      apply taskSound_mono; auto. intros e. apply grows_In. exact Hw.
    + eapply Forall_impl; [exact Hbuf|]. intros r' (m & Hm & He).
      exists m. split; [exact Hm | eapply grows_In; eauto].
    + rewrite (pendingCount_insert _ i t _ Hi). unfold pending at 1 2.
      rewrite Hpc. simpl. lia.
    + eapply extends_trans; eauto.
  - (* verification *)
    cbv zeta.
    set (r := verifyDockerEngine env (atClock (tclock t) (fworld f))
                (tmachine t) (VirshDiskDir g)).
    assert (Hw : grows (fworld f)
                   (elapse (rtook r)
                      (record (EvVerify (GetName (tmachine t)) (rerr r))
                         (atClock (tclock t) (fworld f))))).
    { exists [EvVerify (GetName (tmachine t)) (rerr r)].
      split; [reflexivity | apply List.Forall_forall; trivial]. }
    split; simpl.
    + rewrite <- Hms. eapply map_insert_same; eauto.
    + apply Forall_insert.
      * eapply Forall_impl; [exact Hts|]. intros t'.
        apply taskSound_mono; auto. intros e He. apply in_or_app. now left.
      * unfold taskSound. simpl. apply in_or_app. right. now left.
    + eapply Forall_impl; [exact Hbuf|]. intros r' (m & Hm & He).
      exists m. split; [exact Hm | apply in_or_app; now left].
    + rewrite (pendingCount_insert _ i t _ Hi). unfold pending at 1 2.
      rewrite Hpc. simpl. lia.
    + eapply extends_trans; eauto.
  - (* wg.Done() *)
    unfold taskSound in Ht. rewrite Hpc in Ht.
    split; simpl; auto.
    + rewrite <- Hms. eapply map_insert_same; eauto.
    + apply Forall_insert; [exact Hts | exact Ht].
    + rewrite (pendingCount_insert _ i t _ Hi). unfold pending at 1 2.
      rewrite Hpc. simpl. lia.
  - (* the send *)
    unfold taskSound in Ht. rewrite Hpc in Ht.
    split; simpl; auto.
    + rewrite <- Hms. eapply map_insert_same; eauto.
    + apply Forall_insert.
      * eapply Forall_impl; [exact Hts|]. intros t'.
        apply taskSound_mono; auto. intros r Hr. apply in_or_app. now left.
      * unfold taskSound. simpl. exists res. split; [|exact Ht].
        apply in_or_app. right. now left.
    + apply Forall_app. split; [exact Hbuf|]. constructor; [|constructor].
      exists (tmachine t). split; [|exact Ht].
      rewrite <- Hms. apply in_map. eapply list_elem_of_In, list_elem_of_lookup_2.
      exact Hi.
    + rewrite (pendingCount_insert _ i t _ Hi). unfold pending at 1 2.
      rewrite Hpc. simpl. lia.
  - split; assumption.
Qed.

Lemma finishTask_inv (ms : list VirshMachine) (w0 : World) (f : Fan) (i : nat) :
  fanInv ms w0 f -> fanInv ms w0 (finishTask env g f i).
Proof. intros Hf. unfold finishTask. now do 4 apply stepTask_inv. Qed.

Lemma foldl_finishTask_inv (ms : list VirshMachine) (w0 : World) (idx : list nat) :
  forall f, fanInv ms w0 f -> fanInv ms w0 (foldl (finishTask env g) f idx).
Proof.
  induction idx as [|i idx IH]; intros f Hf; simpl; [exact Hf|].
  apply IH, finishTask_inv, Hf.
Qed.

Lemma runFan_inv (ms : list VirshMachine) (w0 : World) (sched : list Turn) :
  forall f, fanInv ms w0 f -> fanInv ms w0 (runFan env g sched f).
Proof.
  induction sched as [|[i|] sched IH]; intros f Hf; simpl.
  - apply foldl_finishTask_inv, Hf.
  - apply IH, stepTask_inv, Hf.
  - destruct (wgCount f =? 0); [exact Hf | apply IH, Hf].
Qed.

(** A step of goroutine [i] leaves the others as they are and takes [i]
    one step further. *)
Lemma stepTask_other (i j : nat) (f : Fan) :
  i <> j -> tasks (stepTask env g i f) !! j = tasks f !! j.
Proof.
  intros Hne. unfold stepTask.
  destruct (tasks f !! i) as [t|]; [|reflexivity].
  destruct (tpc t); simpl; try reflexivity;
    try (apply list_lookup_insert_ne; exact Hne).
Qed.

Lemma stepTask_same (i : nat) (f : Fan) (t : Task) :
  tasks f !! i = Some t ->
  exists t',
    tasks (stepTask env g i f) !! i = Some t' /\
    stepsLeft (tpc t') = Nat.pred (stepsLeft (tpc t)).
Proof.
  intros Hi. unfold stepTask. rewrite Hi.
  assert (Hlt : (i < length (tasks f))%nat) by (eapply lookup_lt_Some; eauto).
  destruct (tpc t) eqn:Hpc; simpl.
  - unfold MachineSSH, exec. simpl. eexists. split;
      [apply list_lookup_insert_eq; exact Hlt | reflexivity].
  - eexists. split; [apply list_lookup_insert_eq; exact Hlt | reflexivity].
  - eexists. split; [apply list_lookup_insert_eq; exact Hlt | reflexivity].
  - eexists. split; [apply list_lookup_insert_eq; exact Hlt | reflexivity].
  - exists t. split; [exact Hi | now rewrite Hpc].
Qed.

Lemma stepTask_exited (i j : nat) (f : Fan) (t : Task) :
  tasks f !! j = Some t -> tpc t = Exited ->
  exists t', tasks (stepTask env g i f) !! j = Some t' /\ tpc t' = Exited.
Proof.
  intros Hj Hpc. destruct (Nat.eq_dec i j) as [->|Hne].
  - destruct (stepTask_same j f t Hj) as (t' & Ht' & Hsteps).
    exists t'. split; [exact Ht'|]. rewrite Hpc in Hsteps. simpl in Hsteps.
    destruct (tpc t'); simpl in Hsteps; congruence.
  - exists t. split; [|exact Hpc]. rewrite stepTask_other; auto.
Qed.

Lemma finishTask_exits (i : nat) (f : Fan) (t : Task) :
  tasks f !! i = Some t ->
  exists t', tasks (finishTask env g f i) !! i = Some t' /\ tpc t' = Exited.
Proof.
  intros Hi. unfold finishTask.
  destruct (stepTask_same i f t Hi) as (t1 & H1 & S1).
  destruct (stepTask_same i _ t1 H1) as (t2 & H2 & S2).
  destruct (stepTask_same i _ t2 H2) as (t3 & H3 & S3).
  destruct (stepTask_same i _ t3 H3) as (t4 & H4 & S4).
  exists t4. split; [exact H4|].
  destruct (tpc t), (tpc t1), (tpc t2), (tpc t3), (tpc t4);
    simpl in *; congruence.
Qed.

Lemma finishTask_exited (i j : nat) (f : Fan) (t : Task) :
  tasks f !! j = Some t -> tpc t = Exited ->
  exists t', tasks (finishTask env g f i) !! j = Some t' /\ tpc t' = Exited.
Proof.
  intros Hj Hpc. unfold finishTask.
  destruct (stepTask_exited i j f t Hj Hpc) as (t1 & H1 & P1).
  destruct (stepTask_exited i j _ t1 H1 P1) as (t2 & H2 & P2).
  destruct (stepTask_exited i j _ t2 H2 P2) as (t3 & H3 & P3).
  exact (stepTask_exited i j _ t3 H3 P3).
Qed.

Lemma stepTask_length (i : nat) (f : Fan) :
  length (tasks (stepTask env g i f)) = length (tasks f).
Proof.
  unfold stepTask. destruct (tasks f !! i) as [t|]; [|reflexivity].
  destruct (tpc t); simpl; try reflexivity; try apply length_insert.
Qed.

Lemma finishTask_length (i : nat) (f : Fan) :
  length (tasks (finishTask env g f i)) = length (tasks f).
Proof. unfold finishTask. now rewrite !stepTask_length. Qed.

(** Once each goroutine below [k] has been run to its end, each has
    exited. *)
Lemma foldl_finishTask_exits (k : nat) :
  forall f,
    (k <= length (tasks f))%nat ->
    let f' := foldl (finishTask env g) f (seq 0 k) in
    length (tasks f') = length (tasks f) /\
    forall j, (j < k)%nat ->
      exists t, tasks f' !! j = Some t /\ tpc t = Exited.
Proof.
  induction k as [|k IH]; intros f Hk; cbv zeta.
  - split; [reflexivity | intros j Hj; lia].
  - rewrite seq_S, foldl_app. cbn [foldl Nat.add].
    destruct (IH f ltac:(lia)) as [Hlen Hdone].
    set (f1 := foldl (finishTask env g) f (seq 0 k)) in *.
    split; [now rewrite finishTask_length|].
    intros j Hj. destruct (Nat.eq_dec j k) as [->|Hne].
    + destruct (lookup_lt_is_Some_2 (tasks f1) k ltac:(lia)) as [t Ht].
      exact (finishTask_exits k f1 t Ht).
    + destruct (Hdone j ltac:(lia)) as (t & Ht & Hpc).
      exact (finishTask_exited k j f1 t Ht Hpc).
Qed.

Lemma pendingCount_zero (l : list Task) :
  pendingCount l = 0 -> Forall (fun t => pending t = 0) l.
Proof.
  unfold pendingCount. induction l as [|t l IH]; intros Hz; [constructor|].
  cbn [map fold_right] in Hz.
  assert (Hnn : forall l', 0 <= fold_right Z.add 0 (map pending l')).
  { induction l' as [|x l' IH']; simpl; [lia|].
    unfold pending at 1. destruct (tpc x); lia. }
  specialize (Hnn l).
  assert (0 <= pending t) by (unfold pending; destruct (tpc t); lia).
  constructor; [lia | apply IH; lia].
Qed.

(** When the creator closes the channel, every goroutine has called
    [wg.Done()]: each has exited or has only its send left. *)
Lemma runFan_all_done (ms : list VirshMachine) (w0 : World) (sched : list Turn) :
  forall f,
    fanInv ms w0 f ->
    Forall (fun t => pending t = 0) (tasks (runFan env g sched f)).
Proof.
  induction sched as [|[i|] sched IH]; intros f Hf; simpl.
  - destruct (foldl_finishTask_exits (length (tasks f)) f (le_n _)) as [Hlen Hex].
    apply Forall_lookup. intros j t Hj.
    assert (Hlt : (j < length (tasks f))%nat).
    { rewrite <- Hlen. eapply lookup_lt_Some; eauto. }
    destruct (Hex j Hlt) as (t' & Ht' & Hpc).
    rewrite Hj in Ht'. injection Ht' as <-. unfold pending. now rewrite Hpc.
  - apply IH, stepTask_inv, Hf.
  - destruct (Z.eqb_spec (wgCount f) 0) as [Hz|Hz]; [|apply IH, Hf].
    apply pendingCount_zero. rewrite <- (inv_count _ _ _ Hf). exact Hz.
Qed.

End FanFacts.

(** ** What the goroutines verified and where the results are *)

Section LedgerFacts.
Variable lib : GoLib.
Variable env : Env.
Variable g : Globals.

Lemma since_app (w w' : World) (evs : list Event) :
  trace w' = (trace w ++ evs)%list -> since w w' = evs.
Proof.
  unfold since. intros ->.
  rewrite skipn_app, skipn_all, Nat.sub_diag. reflexivity.
Qed.





End LedgerFacts.

(** ** The batch *)

Section BatchFacts.
Variable lib : GoLib.
Variable env : Env.
Variable NamePrefix : string.

Lemma createLoop_length (g : Globals) (baseOS : string) (id : option N)
  (indices : list nat) :
  forall acc w ms w',
    createLoop lib env NamePrefix g baseOS id indices acc w = (inr ms, w') ->
    length ms = (length acc + length indices)%nat.
Proof.
  induction indices as [|i rest IH]; intros acc w ms w' Hrun; simpl in Hrun.
  - injection Hrun as <- _. simpl. lia.
  - destruct (createOne lib env NamePrefix g baseOS id (Z.of_nat i) w)
      as [[e|m] w1]; [discriminate|].
    apply IH in Hrun. rewrite length_app in Hrun. simpl in *. lia.
Qed.

Lemma createOne_name (g : Globals) (baseOS : string) (id : option N)
  (index : Z) (w w' : World) (m : VirshMachine) :
  createOne lib env NamePrefix g baseOS id index w = (inr m, w') ->
  MachineName m = machineName NamePrefix id index.
Proof.
  unfold createOne, cloneDisk.
  set (m0 := newMachine lib NamePrefix g baseOS id index).
  destruct (fileExists w (linkedCloneName lib m0)); [discriminate|].
  destruct (exec env (cloneCommand lib m0) w) as [r w1].
  destruct (rerr r); [discriminate|].
  destruct (define lib env (setDiskPath m0 (linkedCloneName lib m0)) w1)
    as [[e|] w2]; [discriminate|].
  pose proof (Start_harmless lib env (setDiskPath m0 (linkedCloneName lib m0)) w2)
    as [_ Hname].
  destruct (Start lib env (setDiskPath m0 (linkedCloneName lib m0)) w2)
    as [[[e|] m3] w3]; [discriminate|].
  simpl in Hname.
  destruct (LoadX509KeyPair env _ _ w3); [discriminate|].
  destruct (readFile _ w3); [discriminate|].
  intros [= <- _]. simpl. exact Hname.
Qed.

(** The machines the creation loop hands on bear the names of the batch,
    in order, all made from the one identifier drawn by the creator. *)
Lemma createLoop_names (g : Globals) (baseOS : string) (id : option N)
  (indices : list nat) :
  forall acc w ms w',
    createLoop lib env NamePrefix g baseOS id indices acc w = (inr ms, w') ->
    map MachineName ms
    = (map MachineName acc
       ++ map (fun i => machineName NamePrefix id (Z.of_nat i)) indices)%list.
Proof.
  induction indices as [|i rest IH]; intros acc w ms w' Hrun; simpl in Hrun.
  - injection Hrun as <- _. simpl. now rewrite app_nil_r.
  - destruct (createOne lib env NamePrefix g baseOS id (Z.of_nat i) w)
      as [[e|m] w1] eqn:Hone; [discriminate|].
    apply createOne_name in Hone. apply IH in Hrun.
    rewrite Hrun, map_app. simpl. rewrite Hone, <- app_assoc. reflexivity.
Qed.

Lemma created_batch_names (g : Globals) (baseOS : string) (id : option N)
  (linuxCount : Z) (w w' : World) (ms : list VirshMachine) :
  createLoop lib env NamePrefix g baseOS id (seq 0 (Z.to_nat linuxCount)) [] w
  = (inr ms, w') ->
  map MachineName ms = batchNames NamePrefix id linuxCount.
Proof. intros Hrun. now apply createLoop_names in Hrun. Qed.

(** What [NewVirshMachines] returns without error is what the creation
    loop handed on, made with the identifier drawn when the creator
    started. *)
Lemma returned_are_created (g : Globals) (sched : list Turn)
  (linuxCount windowsCount : Z) (w : World) :
  let o := fst (NewVirshMachines lib env NamePrefix g sched linuxCount
                  windowsCount w) in
  err o = None ->
  windows o = [] /\
  exists w1,
    createLoop lib env NamePrefix g (baseImage lib g)
      (randInt env w 16777215%N) (seq 0 (Z.to_nat linuxCount)) [] w
    = (inr (linux o), w1).
Proof.
  unfold NewVirshMachines.
  destruct (String.eqb (VirshDiskDir g) ""); [discriminate|].
  destruct (negb (windowsCount =? 0)); [discriminate|].
  fold (baseImage lib g).
  destruct (negb (fileExists w (baseImage lib g))); [discriminate|].
  unfold creator.
  destruct (createLoop lib env NamePrefix g (baseImage lib g)
              (randInt env w 16777215%N) (seq 0 (Z.to_nat linuxCount)) [] w)
    as [[e|ms] w1] eqn:Hloop.
  - destruct (timerFirst env _ _); discriminate.
  - unfold drain.
    destruct (firstError (errBuf (runFan env g sched (spawn ms w1)))).
    + destruct (removeAll lib env ms _) as [ms' w2].
      destruct (timerFirst env _ _); discriminate.
    + destruct (timerFirst env _ _); [discriminate|].
      cbn [fst linux windows err]. intros _. split; [reflexivity|].
      now exists w1.
Qed.

(** C8. The creator draws one identifier, [rand.Int] in the world of the
    call, and the machines [NewVirshMachines] returns are those the
    creation loop made with it. The machines the creation loop hands on
    for a batch of [n] under an identifier are [n] machines; the one of
    index [i] is named prefix, dash, the identifier in upper-case
    hexadecimal, dash, [i]; their names are pairwise distinct; and none of
    them is the name of a machine of a batch made under another
    identifier. *)
Theorem batch_names_distinct (g : Globals) (sched : list Turn)
  (linuxCount windowsCount : Z) (w : World) :
  let o := fst (NewVirshMachines lib env NamePrefix g sched linuxCount
                  windowsCount w) in
  (err o = None ->
   exists w1,
     createLoop lib env NamePrefix g (baseImage lib g)
       (randInt env w 16777215%N) (seq 0 (Z.to_nat linuxCount)) [] w
     = (inr (linux o), w1)) /\
  forall baseOS id n v v1 ms,
    createLoop lib env NamePrefix g baseOS id (seq 0 (Z.to_nat n)) [] v
    = (inr ms, v1) ->
    length ms = Z.to_nat n /\
    (forall i m,
       ms !! i = Some m ->
       MachineName m
       = NamePrefix +:+ "-" +:+ Fmt.hexUpper id +:+ "-"
         +:+ Fmt.decimal (Z.of_nat i)) /\
    List.NoDup (map MachineName ms) /\
    forall g' baseOS' id' n' v' v1' ms',
      id' <> id ->
      createLoop lib env NamePrefix g' baseOS' id' (seq 0 (Z.to_nat n')) [] v'
      = (inr ms', v1') ->
      forall m m', In m ms -> In m' ms' -> MachineName m <> MachineName m'.
Proof.
  intros o. split.
  { intros Hok. exact (proj2 (returned_are_created g sched linuxCount
                                windowsCount w Hok)). }
  intros baseOS id n v v1 ms Hloop.
  pose proof (created_batch_names _ _ _ _ _ _ _ Hloop) as Hnames.
  destruct (batchNames_distinct NamePrefix id n)
    as (Hlen & Hnodup & _ & Hother).
  split; [rewrite <- (length_map MachineName), Hnames; exact Hlen|].
  split.
  { intros i m Hi.
    assert (Hm : map MachineName ms !! i = Some (MachineName m))
      by (rewrite list_lookup_fmap, Hi; reflexivity).
    rewrite Hnames in Hm. unfold batchNames in Hm.
    change (map ?h ?l) with (h <$> l) in Hm.
    rewrite list_lookup_fmap in Hm.
    destruct (seq 0 (Z.to_nat n) !! i) as [k|] eqn:Hk; [|discriminate].
    apply lookup_seq in Hk as [-> _]. cbn [fmap option_fmap option_map] in Hm.
    injection Hm as Hm. rewrite <- Hm. reflexivity. }
  split; [rewrite Hnames; exact Hnodup|].
  intros g' baseOS' id' n' v' v1' ms' Hne Hloop' m m' Hm Hm' Heq.
  pose proof (created_batch_names _ _ _ _ _ _ _ Hloop') as Hnames'.
  apply (Hother id' n' (MachineName m)); [congruence| |].
  - rewrite <- Hnames. now apply in_map.
  - rewrite <- Hnames', Heq. now apply in_map.
Qed.

Lemma firstError_None (buf : list (option Err)) :
  firstError buf = None -> forall r, In r buf -> r = None.
Proof.
  induction buf as [|[e|] buf IH]; simpl; intros Hnone r Hin;
    [contradiction | discriminate |].
  destruct Hin as [<-|Hin]; auto.
Qed.


(** In a run in which no send meets the closed channel, a batch handed
    over by the creator is the whole batch and each of its machines was
    verified. *)
Lemma drained_batch_verified (g : Globals) (sched : list Turn)
  (ms : list VirshMachine) (w : World) :
  let f := runFan env g sched (spawn ms w) in
  lateSenders f = [] ->
  firstError (errBuf f) = None ->
  Forall (verified (trace (fworld f))) ms.
Proof.
  intros f Hlate Hfirst.
  pose proof (runFan_inv env g ms w sched _ (spawn_inv ms w)) as Hinv.
  pose proof (runFan_all_done env g ms w sched _ (spawn_inv ms w)) as Hdone.
  fold f in Hinv, Hdone.
  destruct Hinv as [Hms Hts _ _ _]. rewrite <- Hms.
  apply List.Forall_forall. intros m Hin.
  apply in_map_iff in Hin as (t & <- & Hin).
  rewrite List.Forall_forall in Hts, Hdone.
  specialize (Hts t Hin). specialize (Hdone t Hin).
  unfold taskSound in Hts. unfold pending in Hdone.
  destruct (tpc t) eqn:Hpc; try discriminate.
  - exfalso. unfold lateSenders in Hlate.
    assert (Hname : In (GetName (tmachine t))
                      (flat_map (fun t => match tpc t with
                                          | AtSend _ => [GetName (tmachine t)]
                                          | _ => []
                                          end) (tasks f))).
    { apply in_flat_map. exists t. split; [exact Hin|]. rewrite Hpc. now left. }
    rewrite Hlate in Hname. contradiction.
  - destruct Hts as (r & Hr & Hev).
    rewrite (firstError_None _ Hfirst r Hr) in Hev. exact Hev.
Qed.

(** The contract of C1 holds in every run in which no goroutine is left
    with its send to make when the channel is closed: all the machines
    asked for, each verified, and no error; or no machine and an error. *)
Lemma all_or_nothing_without_late_send (g : Globals) (sched : list Turn)
  (linuxCount windowsCount : Z) (w : World) :
  let o := fst (NewVirshMachines lib env NamePrefix g sched linuxCount windowsCount w) in
  let w' := snd (NewVirshMachines lib env NamePrefix g sched linuxCount windowsCount w) in
  1 <= linuxCount ->
  sendOnClosed o = [] ->
  windows o = [] /\
  ((err o = None /\ Z.of_nat (length (linux o)) = linuxCount /\
    Forall (verified (trace w')) (linux o)) \/
   (linux o = [] /\ err o <> None)).
Proof.
  intros o w' Hn. subst o w'. unfold NewVirshMachines.
  destruct (String.eqb (VirshDiskDir g) "");
    [intros _; split; [reflexivity | right; split; [reflexivity | discriminate]]|].
  destruct (negb (windowsCount =? 0));
    [intros _; split; [reflexivity | right; split; [reflexivity | discriminate]]|].
  destruct (negb (fileExists w _));
    [intros _; split; [reflexivity | right; split; [reflexivity | discriminate]]|].
  unfold creator.
  destruct (createLoop lib env NamePrefix g _ _ _ [] w) as [[e|ms] w1] eqn:Hloop.
  - destruct (timerFirst env _ _); simpl; intros _;
      (split; [reflexivity | right; split; [reflexivity | discriminate]]).
  - pose proof (drained_batch_verified g sched ms w1) as Hver.
    set (f := runFan env g sched (spawn ms w1)) in *.
    unfold drain. destruct (firstError (errBuf f)) as [e|] eqn:Hfirst.
    + destruct (removeAll lib env ms (sleep 10000 (resumed f))) as [ms' w2].
      destruct (timerFirst env _ _); simpl; intros _;
        (split; [reflexivity | right; split; [reflexivity | discriminate]]).
    + destruct (timerFirst env _ _); simpl; intros Hlate;
        (split; [reflexivity|]);
        [right; split; [reflexivity | discriminate]|].
      left. split; [reflexivity|]. split; [|now apply Hver].
      apply createLoop_length in Hloop. rewrite Hloop, length_seq.
      simpl. lia.
Qed.



End BatchFacts.

Lemma batch_names_distinct_witness :
  let o := fst (NewVirshMachines Sim.lib Sim.host "e2e" Sim.globals [] 3 0
                  Sim.boot) in
  map MachineName (linux o) = ["e2e-ABCDEF-0"; "e2e-ABCDEF-1"; "e2e-ABCDEF-2"] /\
  List.NoDup (map MachineName (linux o)).
Proof.
  destruct (batch_names_distinct Sim.lib Sim.host "e2e" Sim.globals [] 3 0
              Sim.boot) as [Hcreated Hnames].
  destruct Hcreated as [w1 Hloop]; [vm_compute; reflexivity|].
  destruct (Hnames _ _ _ _ _ _ Hloop) as (_ & _ & Hnodup & _).
  split; [vm_compute; reflexivity | exact Hnodup].
Defined.

(** C1 fails on the code. One machine is asked for and its engine does not
    get ready; the creator is resumed from [wg.Wait()] after the goroutine
    has called [wg.Done()] and before it has sent its error. The channel is
    closed empty, the drain meets no error, and [NewVirshMachines] returns
    the machine with no error although its verification failed; the
    goroutine is left with a send on the closed channel. *)
Lemma late_send_returns_unverified_machine :
  let '(o, w) := NewVirshMachines Sim.lib engineDown "e2e" Sim.globals
                   doneBeforeSend 1 0 Sim.boot in
  (map MachineName (linux o), windows o, err o, sendOnClosed o)
  = (["e2e-ABCDEF-0"], [], None, ["e2e-ABCDEF-0"]) /\
  In (EvVerify "e2e-ABCDEF-0" (Some (Errorf "engine not ready"))) (trace w) /\
  ~ Forall (verified (trace w)) (linux o).
Proof.
  vm_compute. split; [reflexivity|]. split; [tauto|].
  intros Hall. inversion Hall as [|m l Hm _]. vm_compute in Hm.
  repeat (destruct Hm as [Hm|Hm]; [discriminate Hm|]). exact Hm.
Qed.

(** The same request when the goroutines are left to finish before the
    creator is resumed: no machine, and the error of the verification. *)
Example ordered_send_sample :
  let '(o, w) := NewVirshMachines Sim.lib engineDown "e2e" Sim.globals
                   [] 1 0 Sim.boot in
  (linux o, err o, sendOnClosed o)
  = ([], Some (Errorf "engine not ready"), []).
Proof. vm_compute. reflexivity. Qed.



(** * Further properties of the driver *)

(** ** Powering on and killing, once more *)

Section PollFacts.
Variable lib : GoLib.
Variable env : Env.

Lemma awaitPoll_by_deadline (deadline : Z) (name : string) (p : Poll) :
  match p with
  | Delivered _ seen | Expired _ seen =>
      clock (snd (awaitPoll env deadline name p)) <= deadline
  end.
Proof.
  destruct p as [m w|m w]; simpl; [|lia].
  unfold timerFirst. destruct (Z.ltb_spec deadline (clock w)); simpl; [lia|].
  destruct ((deadline =? clock w) && timerWinsTie env); simpl; lia.
Qed.

(** X1. [Start] does not outlast its timer: it has returned at the latest
    60 seconds after the power-on command finished, whatever the
    hypervisor and the remote shell answer and however long they take. *)
Theorem Start_returns_within_minute (m : VirshMachine) (w : World) :
  clock (snd (Start lib env m w))
  <= clock (snd (exec env ["virsh"; "start"; MachineName m] w)) + 60000.
Proof.
  unfold Start.
  destruct (exec env ["virsh"; "start"; MachineName m] w) as [r w1].
  cbn [snd]. destruct (rerr r); [simpl; lia|].
  pose proof (awaitPoll_by_deadline (clock w1 + 60000) (GetName m)
                (startPoller lib env (clock w1 + 60000) m w1)) as H.
  destruct (startPoller lib env (clock w1 + 60000) m w1); exact H.
Qed.

Lemma waitForIP_delivers (deadline : Z) (fuel : nat) :
  forall m w m' w',
    waitForIP lib env fuel deadline m w = Delivered m' w' ->
    exists addr, m' = setAddress m addr.
Proof.
  induction fuel as [|fuel IH]; intros m w m' w'; simpl; [discriminate|].
  destruct (deadline <=? clock w); [discriminate|].
  destruct (match rerr (execCmd env w ["virsh"; "-q"; "domifaddr"; GetName m]) with
            | Some _ => None
            | None => _
            end) as [addr|].
  - intros [= <- _]. now exists addr.
  - apply IH.
Qed.

Lemma waitForSSH_delivers (deadline : Z) (fuel : nat) :
  forall m w m' w',
    waitForSSH env fuel deadline m w = Delivered m' w' ->
    m' = m /\
    exists seen,
      MachineSSH env m "uptime" seen
      = (fst (fst (MachineSSH env m "uptime" seen)), None, w').
Proof.
  induction fuel as [|fuel IH]; intros m w m' w'; cbn [waitForSSH];
    [discriminate|].
  destruct (deadline <=? clock w); [discriminate|].
  destruct (MachineSSH env m "uptime" w) as [[out e] w1] eqn:Hssh.
  destruct e as [e|].
  - apply IH.
  - intros [= <- <-]. split; [reflexivity|]. exists w. now rewrite Hssh.
Qed.

(** What a successful [Start] leaves: the machine with the address read
    from the hypervisor, reached by a successful [uptime]. *)
Lemma Start_success_shape (m : VirshMachine) (w : World) :
  fst (fst (Start lib env m w)) = None ->
  exists addr seen,
    snd (fst (Start lib env m w)) = setAddress m addr /\
    MachineSSH env (setAddress m addr) "uptime" seen
    = (fst (fst (MachineSSH env (setAddress m addr) "uptime" seen)), None,
       snd (Start lib env m w)).
Proof.
  unfold Start.
  destruct (exec env ["virsh"; "start"; MachineName m] w) as [r w1].
  destruct (rerr r); [discriminate|].
  unfold startPoller.
  destruct (waitForIP lib env (rounds 60000 1000) (clock w1 + 60000) m w1)
    as [m1 w2|m1 w2] eqn:Hip; [|discriminate].
  apply waitForIP_delivers in Hip as [addr ->].
  destruct (waitForSSH env (rounds 60000 500) (clock w1 + 60000)
              (setAddress m addr) w2) as [m2 w3|m2 w3] eqn:Hssh;
    [|discriminate].
  apply waitForSSH_delivers in Hssh as [-> (seen & Hseen)].
  unfold awaitPoll.
  destruct (timerFirst env (clock w1 + 60000) (clock w3)); [discriminate|].
  intros _. exists addr, seen. split; [reflexivity | exact Hseen].
Qed.

Lemma grows_exec (argv : list string) (w : World) :
  grows w (snd (exec env argv w)).
Proof. apply extends_exec. intros e out. exact I. Qed.

Lemma grows_trans (w1 w2 w3 : World) :
  grows w1 w2 -> grows w2 w3 -> grows w1 w3.
Proof. apply extends_trans. Qed.

(** The address a delivering [waitForIP] sets is the one in an answer the
    hypervisor gave without error, the last of the loop. *)
Lemma waitForIP_reads (deadline : Z) (fuel : nat) :
  forall m w m' w',
    waitForIP lib env fuel deadline m w = Delivered m' w' ->
    exists seen addr,
      let query := ["virsh"; "-q"; "domifaddr"; MachineName m] in
      grows w seen /\ w' = snd (exec env query seen) /\
      rerr (execCmd env seen query) = None /\
      addressIn lib (rout (execCmd env seen query)) = Some addr /\
      m' = setAddress m addr.
Proof.
  induction fuel as [|fuel IH]; intros m w m' w'; cbn [waitForIP];
    [discriminate|].
  destruct (deadline <=? clock w); [discriminate|].
  change (GetName m) with (MachineName m).
  pose proof (grows_exec ["virsh"; "-q"; "domifaddr"; MachineName m] w) as Hg.
  unfold exec in *. cbv beta iota zeta. cbn [snd] in Hg.
  fold (addressIn lib
          (rout (execCmd env w ["virsh"; "-q"; "domifaddr"; MachineName m]))).
  set (r := execCmd env w ["virsh"; "-q"; "domifaddr"; MachineName m]) in *.
  set (w1 := elapse (rtook r) _) in *.
  assert (Hagain :
    waitForIP lib env fuel deadline m (sleep 1000 w1) = Delivered m' w' ->
    exists seen addr,
      grows w seen /\
      w' = (let r0 := execCmd env seen ["virsh"; "-q"; "domifaddr"; MachineName m] in
            (r0, elapse (rtook r0)
                   (record (EvExec ["virsh"; "-q"; "domifaddr"; MachineName m]
                              (rerr r0) (rout r0))
                      {| files := execFiles env seen
                                    ["virsh"; "-q"; "domifaddr"; MachineName m];
                         clock := clock seen; trace := trace seen |}))).2 /\
      rerr (execCmd env seen ["virsh"; "-q"; "domifaddr"; MachineName m]) = None /\
      addressIn lib
        (rout (execCmd env seen ["virsh"; "-q"; "domifaddr"; MachineName m]))
      = Some addr /\
      m' = setAddress m addr).
  { intros Hrun. apply IH in Hrun as (seen & addr & Hs & Hrest).
    exists seen, addr. split; [|exact Hrest].
    eapply grows_trans; [exact Hg|].
    eapply grows_trans; [|exact Hs].
    apply extends_sleep. exact I. }
  destruct (rerr r) eqn:Hr; [exact Hagain|].
  destruct (addressIn lib (rout r)) as [addr|] eqn:Ha; [|exact Hagain].
  intros [= <- <-]. exists w, addr.
  split; [apply extends_refl|]. fold r. rewrite Hr, Ha.
  repeat split.
Qed.

(** What a successful [Start] read: the address of the machine it leaves
    is the one in an answer the hypervisor gave on the way. *)
Lemma Start_reads (m : VirshMachine) (w : World) :
  fst (fst (Start lib env m w)) = None ->
  exists seen addr,
    let query := ["virsh"; "-q"; "domifaddr"; MachineName m] in
    grows w seen /\
    grows (snd (exec env query seen)) (snd (Start lib env m w)) /\
    rerr (execCmd env seen query) = None /\
    addressIn lib (rout (execCmd env seen query)) = Some addr /\
    snd (fst (Start lib env m w)) = setAddress m addr.
Proof.
  unfold Start.
  pose proof (grows_exec ["virsh"; "start"; MachineName m] w) as Hg.
  destruct (exec env ["virsh"; "start"; MachineName m] w) as [r w1].
  cbn [snd] in Hg.
  destruct (rerr r); [discriminate|].
  unfold startPoller.
  destruct (waitForIP lib env (rounds 60000 1000) (clock w1 + 60000) m w1)
    as [m1 w2|m1 w2] eqn:Hip; [|discriminate].
  apply waitForIP_reads in Hip
    as (seen & addr & Hs & -> & Hok & Haddr & ->).
  pose proof (waitForSSH_harmless env (clock w1 + 60000) (rounds 60000 500)
                (setAddress m addr)
                (snd (exec env ["virsh"; "-q"; "domifaddr"; MachineName m] seen)))
    as Hssh.
  destruct (waitForSSH env (rounds 60000 500) (clock w1 + 60000)
              (setAddress m addr) _) as [m2 w3|m2 w3]; [|discriminate].
  destruct Hssh as [Hssh ->].
  unfold awaitPoll.
  destruct (timerFirst env (clock w1 + 60000) (clock w3)); [discriminate|].
  intros _. exists seen, addr. cbn [fst snd].
  split; [eapply grows_trans; eauto|].
  split; [exact (extends_grows _ _ _ Hssh)|].
  repeat split; assumption.
Qed.

(** X2. When [Start] returns no error, the machine it leaves has an
    address: [ip] and [internalip] are the same text, [dockerHost] is
    [tcp://] that address [:2376], nothing else of the machine changed, and
    the last thing [Start] ran was an [uptime] over the remote shell to
    that address which succeeded. *)
Theorem Start_success_addressed (m : VirshMachine) (w : World) :
  fst (fst (Start lib env m w)) = None ->
  let m' := snd (fst (Start lib env m w)) in
  internalip m' = ip m' /\
  dockerHost m' = "tcp://" +:+ ip m' +:+ ":2376" /\
  m' = setAddress m (ip m') /\
  exists out seen,
    trace (snd (Start lib env m w))
    = (trace seen ++ [EvExec (sshArgs m' "uptime") None out])%list.
Proof.
  intros Hok m'. subst m'.
  destruct (Start_success_shape m w Hok) as (addr & seen & -> & Hssh).
  repeat split.
  unfold MachineSSH, exec in Hssh.
  set (r := execCmd env seen (sshArgs (setAddress m addr) "uptime")) in *.
  injection Hssh as Herr Hw. exists (rout r), seen.
  rewrite <- Hw. simpl. now rewrite Herr.
Qed.

Lemma killPoll_delivers (deadline : Z) (fuel : nat) :
  forall m w m' w',
    killPoll lib env fuel deadline m w = Delivered m' w' ->
    exists seen, IsRunning lib env m seen = (false, w').
Proof.
  induction fuel as [|fuel IH]; intros m w m' w'; cbn [killPoll];
    [discriminate|].
  destruct (deadline <=? clock w); [discriminate|].
  destruct (IsRunning lib env m w) as [running w1] eqn:Hrun.
  destruct running; cbn [negb].
  - apply IH.
  - intros [= _ <-]. now exists w.
Qed.

(** X3. [Kill] returns at the latest 60 seconds after the destroy command
    finished; when that command fails its error is returned at once and
    the machine list is not consulted; and [Kill] returns no error only
    when the last list it read did not show the machine as running. *)
Theorem Kill_confirms_stop (m : VirshMachine) (w : World) :
  let d := exec env ["virsh"; "destroy"; MachineName m] w in
  clock (snd (Kill lib env m w)) <= clock (snd d) + 60000 /\
  (forall e, rerr (fst d) = Some e ->
     Kill lib env m w = (Some e, logAt LError (rout (fst d)) (snd d))) /\
  (fst (Kill lib env m w) = None ->
   exists seen, IsRunning lib env m seen = (false, snd (Kill lib env m w))).
Proof.
  intros d. subst d. unfold Kill.
  destruct (exec env ["virsh"; "destroy"; MachineName m] w) as [r w1].
  cbn [fst snd]. destruct (rerr r) as [e|] eqn:Hr.
  - cbn [snd fst]. split; [change (clock (logAt LError (rout r) w1)) with (clock w1); lia|].
    split; [intros e' [= <-]; reflexivity | discriminate].
  - pose proof (awaitPoll_by_deadline (clock w1 + 60000) (MachineName m)
                  (killPoll lib env (rounds 60000 500) (clock w1 + 60000) m w1))
      as Hby.
    destruct (killPoll lib env (rounds 60000 500) (clock w1 + 60000) m w1)
      as [m' w'|m' w'] eqn:Hpoll.
    + apply killPoll_delivers in Hpoll as (seen & Hseen).
      unfold awaitPoll in *.
      destruct (timerFirst env (clock w1 + 60000) (clock w'));
        cbv beta iota zeta in *; cbn [fst snd] in *;
        (split; [exact Hby|]); (split; [discriminate|]);
        [discriminate | intros _; now exists seen].
    + unfold awaitPoll in *. cbv beta iota zeta in *. cbn [fst snd] in *.
      split; [exact Hby|]. split; discriminate.
Qed.

End PollFacts.

Lemma Start_success_addressed_witness :
  let m' := snd (fst (Start Sim.lib Sim.host (cloned 0) Sim.boot)) in
  internalip m' = ip m' /\ dockerHost m' = "tcp://" +:+ ip m' +:+ ":2376".
Proof.
  destruct (Start_success_addressed Sim.lib Sim.host (cloned 0) Sim.boot)
    as (Hint & Hhost & _).
  - vm_compute. reflexivity.
  - exact (conj Hint Hhost).
Defined.

Lemma Kill_confirms_stop_witness :
  exists seen,
    IsRunning Sim.lib Sim.host (ready 0) seen
    = (false, snd (Kill Sim.lib Sim.host (ready 0) Sim.boot)).
Proof.
  destruct (Kill_confirms_stop Sim.lib Sim.host (ready 0) Sim.boot)
    as (_ & _ & Hnil).
  apply Hnil. vm_compute. reflexivity.
Defined.

(** ** Removal, once more *)

Section TeardownFacts.
Variable lib : GoLib.
Variable env : Env.

Lemma IsRunning_extends (P : Event -> Prop) (m : VirshMachine) (w : World) :
  (forall e out, P (EvExec ["virsh"; "-q"; "list"] e out)) ->
  (forall msg, P (EvLog LInfo msg)) ->
  extends P w (snd (IsRunning lib env m w)).
Proof.
  intros Hlist Hlog. unfold IsRunning, getActiveMachines.
  assert (H0 : extends P w (snd (exec env ["virsh"; "-q"; "list"] w)))
    by (apply extends_exec; exact Hlist).
  destruct (exec env ["virsh"; "-q"; "list"] w) as [r w1]. simpl in *.
  destruct (rerr r); [|exact H0].
  eapply extends_trans; [exact H0 | apply extends_logAt, Hlog].
Qed.

Lemma logAt_files (l : Level) (msg : string) (w : World) :
  files (logAt l msg w) = files w.
Proof. reflexivity. Qed.

(** X4. With [PRESERVE_TEST_MACHINE] unset, what [Remove] returns is the
    error of the unregistering command and nothing else: a [Kill] that
    failed on the way changes nothing in it. When that command succeeds the
    machine's name is cleared and no file is left at its disk path; when
    it fails the machine is as it was. *)
Theorem Remove_result (m : VirshMachine) (w : World) :
  getenv env "PRESERVE_TEST_MACHINE" = "" ->
  exists before,
    grows w before /\
    let r := execCmd env before (undefineCommand m) in
    let '(res, m', after) := Remove lib env m w in
    res = rerr r /\
    (rerr r = None ->
     m' = setMachineName m "" /\ files after !! DiskPath m = None) /\
    (rerr r <> None -> m' = m).
Proof.
  intros Hunset. unfold Remove. rewrite Hunset. cbn [String.eqb negb].
  pose proof (IsRunning_calm lib env m w) as H1.
  destruct (IsRunning lib env m w) as [running w1]. cbn [snd] in H1.
  set (before := if running then snd (Kill lib env m w1) else w1).
  assert (Hgrow : grows w before).
  { subst before. apply (extends_grows (fun e => isUndefine e = false)).
    destruct running; [|exact H1].
    eapply extends_trans; [exact H1 | apply Kill_calm]. }
  exists before. split; [exact Hgrow|].
  cbv zeta. unfold exec.
  destruct (rerr (execCmd env before (undefineCommand m))) as [e|] eqn:Hr.
  - split; [reflexivity|]. split; [discriminate | reflexivity].
  - split; [reflexivity|]. split; [|congruence].
    intros _. split; [reflexivity|]. rewrite logAt_files. apply osRemove_gone.
Qed.

(** X5. With [PRESERVE_TEST_MACHINE] set, [Remove] and
    [RemoveAndPreserveDisk] do nothing but log that they skip: they return
    no error, leave the machine (its name included), the files and the
    clock as they were, and run no command. *)
Theorem preserve_skips_removal (m : VirshMachine) (w : World) :
  getenv env "PRESERVE_TEST_MACHINE" <> "" ->
  let skipped :=
    (None, m, {| files := files w; clock := clock w;
                 trace := trace w ++ [EvLog LInfo (skipNotice m)] |}) in
  Remove lib env m w = skipped /\
  RemoveAndPreserveDisk lib env m w = skipped.
Proof.
  intros Hset. unfold Remove, RemoveAndPreserveDisk.
  destruct (String.eqb_spec (getenv env "PRESERVE_TEST_MACHINE") "");
    [contradiction|].
  split; reflexivity.
Qed.

Lemma Stop_extends (P : Event -> Prop) (m : VirshMachine) (w : World) :
  (forall e out, P (EvExec ["virsh"; "shutdown"; MachineName m] e out)) ->
  (forall msg, P (EvLog LError msg)) ->
  extends P w (snd (Stop env m w)).
Proof.
  intros Hcmd Hlog. unfold Stop.
  assert (H0 : extends P w (snd (exec env ["virsh"; "shutdown"; MachineName m] w)))
    by (apply extends_exec; exact Hcmd).
  destruct (exec env ["virsh"; "shutdown"; MachineName m] w) as [r w1].
  simpl in *. destruct (rerr r); [|exact H0].
  eapply extends_trans; [exact H0 | apply extends_logAt, Hlog].
Qed.

(** X6. [RemoveAndPreserveDisk] never destroys the machine, never asks the
    hypervisor to take the storage along and never deletes a file. With
    [PRESERVE_TEST_MACHINE] unset: a machine listed as running is shut
    down, by [virsh shutdown], before it is unregistered, a failure of the
    shutdown being logged and otherwise ignored; the plain [virsh undefine]
    follows, and its error is what is returned; when it succeeded the disk
    kept and the deletion are logged and the machine's name is cleared,
    and when it failed its output is logged and the machine is as it
    was. *)
Theorem RemoveAndPreserveDisk_keeps_disk (m : VirshMachine) (w : World) :
  let '(res, m', after) := RemoveAndPreserveDisk lib env m w in
  (exists evs,
     trace after = (trace w ++ evs)%list /\
     Forall (fun e => destroysOrDeletes e = false) evs) /\
  (getenv env "PRESERVE_TEST_MACHINE" = "" ->
   let '(running, listed) := IsRunning lib env m w in
   let s := execCmd env listed ["virsh"; "shutdown"; MachineName m] in
   let before := if running then snd (Stop env m listed) else listed in
   let r := execCmd env before (unregisterCommand m) in
   (running = true ->
    trace before
    = (trace listed
       ++ EvExec ["virsh"; "shutdown"; MachineName m] (rerr s) (rout s)
          :: match rerr s with
             | Some _ => [EvLog LError (rout s)]
             | None => []
             end)%list) /\
   res = rerr r /\
   trace after
   = (trace before
      ++ EvExec (unregisterCommand m) (rerr r) (rout r)
         :: match rerr r with
            | Some _ => [EvLog LError (rout r)]
            | None => [EvLog LInfo ("Preserving " +:+ DiskPath m);
                       EvLog LInfo ("Machine " +:+ MachineName m +:+ " deleted")]
            end)%list /\
   (res = None -> m' = setMachineName m "") /\
   (res <> None -> m' = m)).
Proof.
  unfold RemoveAndPreserveDisk.
  destruct (String.eqb_spec (getenv env "PRESERVE_TEST_MACHINE") "") as [He|He];
    cbn [negb].
  - assert (H1 : extends (fun e => destroysOrDeletes e = false) w
                   (snd (IsRunning lib env m w)))
      by (apply IsRunning_extends; reflexivity).
    destruct (IsRunning lib env m w) as [running w1]. cbn [snd] in H1.
    cbv beta iota zeta.
    set (w2 := if running then snd (Stop env m w1) else w1).
    assert (H2 : extends (fun e => destroysOrDeletes e = false) w w2).
    { subst w2. destruct running; [|exact H1].
      eapply extends_trans; [exact H1 | apply Stop_extends; reflexivity]. }
    assert (H3 : extends (fun e => destroysOrDeletes e = false) w2
                   (snd (exec env (unregisterCommand m) w2))).
    { apply extends_exec. intros e out. reflexivity. }
    assert (Hstop :
      running = true ->
      trace w2
      = (trace w1
         ++ EvExec ["virsh"; "shutdown"; MachineName m]
              (rerr (execCmd env w1 ["virsh"; "shutdown"; MachineName m]))
              (rout (execCmd env w1 ["virsh"; "shutdown"; MachineName m]))
            :: match rerr (execCmd env w1 ["virsh"; "shutdown"; MachineName m]) with
               | Some _ =>
                   [EvLog LError
                      (rout (execCmd env w1 ["virsh"; "shutdown"; MachineName m]))]
               | None => []
               end)%list).
    { intros ->. subst w2. unfold Stop, exec. cbv beta iota zeta.
      destruct (rerr (execCmd env w1 ["virsh"; "shutdown"; MachineName m]));
        simpl; rewrite <- ?app_assoc; reflexivity. }
    unfold exec in *. cbn [snd] in H3.
    destruct (rerr (execCmd env w2 (unregisterCommand m))) as [e|] eqn:Hr.
    + split.
      * eapply extends_trans; [exact H2|].
        eapply extends_trans; [exact H3 | apply extends_logAt; reflexivity].
      * intros _. split; [exact Hstop|].
        split; [reflexivity|].
        split; [simpl; rewrite <- ?app_assoc; reflexivity|].
        split; [discriminate | reflexivity].
    + split.
      * eapply extends_trans; [exact H2|].
        eapply extends_trans; [exact H3|].
        eapply extends_trans; apply extends_logAt; reflexivity.
      * intros _. split; [exact Hstop|].
        split; [reflexivity|].
        split; [simpl; rewrite <- ?app_assoc; reflexivity|].
        split; [reflexivity | congruence].
  - split; [apply extends_logAt; reflexivity | contradiction].
Qed.

End TeardownFacts.

Lemma Remove_result_witness :
  exists before,
    grows Sim.boot before /\
    let r := execCmd Sim.host before (undefineCommand (ready 0)) in
    let '(res, m', after) := Remove Sim.lib Sim.host (ready 0) Sim.boot in
    res = rerr r /\
    (rerr r = None ->
     m' = setMachineName (ready 0) "" /\
     files after !! DiskPath (ready 0) = None) /\
    (rerr r <> None -> m' = ready 0).
Proof.
  apply (Remove_result Sim.lib Sim.host (ready 0) Sim.boot). reflexivity.
Defined.

Lemma preserve_skips_removal_witness :
  fst (Remove Sim.lib preserving (ready 0) Sim.boot) = (None, ready 0) /\
  fst (RemoveAndPreserveDisk Sim.lib preserving (ready 0) Sim.boot)
  = (None, ready 0).
Proof.
  destruct (preserve_skips_removal Sim.lib preserving (ready 0) Sim.boot)
    as [H1 H2].
  - vm_compute. discriminate.
  - rewrite H1, H2. split; reflexivity.
Defined.

Lemma RemoveAndPreserveDisk_keeps_disk_witness :
  let '(res, m', after) :=
    RemoveAndPreserveDisk Sim.lib Sim.host (ready 0) Sim.boot in
  res = None /\ m' = setMachineName (ready 0) "" /\
  exists evs,
    trace after = (trace Sim.boot ++ evs)%list /\
    Forall (fun e => destroysOrDeletes e = false) evs.
Proof.
  pose proof (RemoveAndPreserveDisk_keeps_disk Sim.lib Sim.host (ready 0) Sim.boot)
    as H.
  destruct (RemoveAndPreserveDisk Sim.lib Sim.host (ready 0) Sim.boot)
    as [[res m'] after] eqn:Hrun.
  destruct H as [Hkeeps H]. specialize (H eq_refl).
  destruct (IsRunning Sim.lib Sim.host (ready 0) Sim.boot) as [running listed].
  destruct H as (_ & _ & _ & Hcleared & _).
  assert (Hres : res = None).
  { vm_compute in Hrun. injection Hrun as <- _ _. reflexivity. }
  split; [exact Hres|]. split; [exact (Hcleared Hres) | exact Hkeeps].
Defined.

(** ** Cloning, once more *)

Section CloneAgain.
Variable lib : GoLib.
Variable env : Env.

(** X7. A clone is not made twice. When [cloneDisk] succeeded, the
    machine's disk path is the derived clone name, and as long as the file
    it made is there a second [cloneDisk] on the machine fails without
    running anything. *)
Theorem cloneDisk_not_repeatable (m : VirshMachine) (w : World) :
  fst (fst (cloneDisk lib env m w)) = None ->
  let m' := snd (fst (cloneDisk lib env m w)) in
  let w' := snd (cloneDisk lib env m w) in
  DiskPath m' = linkedCloneName lib m /\
  m' = setDiskPath m (linkedCloneName lib m) /\
  forall later,
    is_Some (files later !! linkedCloneName lib m) ->
    exists e, cloneDisk lib env m' later = (Some e, m', later).
Proof.
  unfold cloneDisk.
  destruct (fileExists w (linkedCloneName lib m)); [discriminate|].
  destruct (exec env (cloneCommand lib m) w) as [r w1].
  destruct (rerr r); [discriminate|]. cbn [fst snd]. intros _.
  split; [reflexivity|]. split; [reflexivity|].
  intros later Hthere.
  change (linkedCloneName lib (setDiskPath m (linkedCloneName lib m)))
    with (linkedCloneName lib m).
  unfold fileExists. rewrite bool_decide_eq_true_2 by exact Hthere.
  eexists. reflexivity.
Qed.

End CloneAgain.

Lemma cloneDisk_not_repeatable_witness :
  let m' := snd (fst (cloneDisk Sim.lib Sim.host (Sim.machine 0) Sim.boot)) in
  let w' := snd (cloneDisk Sim.lib Sim.host (Sim.machine 0) Sim.boot) in
  exists e, cloneDisk Sim.lib Sim.host m' w' = (Some e, m', w').
Proof.
  destruct (cloneDisk_not_repeatable Sim.lib Sim.host (Sim.machine 0) Sim.boot)
    as (_ & _ & Hagain).
  - vm_compute. reflexivity.
  - apply Hagain. vm_compute. eexists. reflexivity.
Defined.

(** ** The batch, once more *)

Section BatchAgain.
Variable lib : GoLib.
Variable env : Env.
Variable NamePrefix : string.

Abbreviation gentle := (fun e => stopsMachine e = false).

Lemma extends_weaken (P Q : Event -> Prop) (w w' : World) :
  (forall e, P e -> Q e) -> extends P w w' -> extends Q w w'.
Proof.
  intros HPQ (evs & Htr & Hall). exists evs. split; [exact Htr|].
  eapply List.Forall_impl; eauto.
Qed.

Lemma harmless_gentle (e : Event) : tearsDown e = false -> stopsMachine e = false.
Proof. destruct e; simpl; auto. Qed.

Lemma cloneDisk_gentle (m : VirshMachine) (w : World) :
  extends gentle w (snd (cloneDisk lib env m w)).
Proof.
  unfold cloneDisk. destruct (fileExists w (linkedCloneName lib m));
    [apply extends_refl|].
  assert (H0 : extends gentle w (snd (exec env (cloneCommand lib m) w)))
    by (apply extends_exec; reflexivity).
  destruct (exec env (cloneCommand lib m) w) as [r w1].
  destruct (rerr r); exact H0.
Qed.

Lemma define_gentle (m : VirshMachine) (w : World) :
  extends gentle w (snd (define lib env m w)).
Proof.
  unfold define. destruct (template_Parse lib domainXMLTemplate);
    [apply extends_refl|].
  destruct (template_Execute lib domainXMLTemplate m) as [e|xml];
    [apply extends_refl|].
  assert (H0 : extends gentle w (snd (writeFile env (defFile lib m) xml w))).
  { unfold writeFile. destruct (writeOutcome env w (defFile lib m) xml)
      as [|e [part|]]; simpl; eexists [_]; (split; [reflexivity|]);
      repeat constructor. }
  destruct (writeFile env (defFile lib m) xml w) as [[e|] w1]; [exact H0|].
  cbn [snd] in H0.
  assert (H1 : extends gentle w1
                 (snd (exec env ["virsh"; "define"; defFile lib m] w1)))
    by (apply extends_exec; reflexivity).
  destruct (exec env ["virsh"; "define"; defFile lib m] w1) as [r w2].
  cbn [snd] in *.
  eapply extends_trans; [exact H0|]. eapply extends_trans; [exact H1|].
  unfold osRemove. destruct (files w2 !! defFile lib m); simpl;
    eexists [_]; (split; [reflexivity|]); repeat constructor.
Qed.

Lemma createOne_gentle (g : Globals) (baseOS : string) (id : option N)
  (index : Z) (w : World) :
  extends gentle w (snd (createOne lib env NamePrefix g baseOS id index w)).
Proof.
  unfold createOne.
  set (m0 := newMachine lib NamePrefix g baseOS id index).
  pose proof (cloneDisk_gentle m0 w) as H1.
  destruct (cloneDisk lib env m0 w) as [[[e|] m1] w1]; [exact H1|].
  cbn [snd] in H1.
  pose proof (define_gentle m1 w1) as H2.
  destruct (define lib env m1 w1) as [[e|] w2];
    [eapply extends_trans; eauto|]. cbn [snd] in H2.
  pose proof (proj1 (Start_harmless lib env m1 w2)) as H3.
  apply (extends_weaken _ gentle _ _ harmless_gentle) in H3.
  destruct (Start lib env m1 w2) as [[e3 m3] w3]. cbn [snd] in H3.
  assert (H : extends gentle w w3)
    by (eapply extends_trans; [exact H1|]; eapply extends_trans; eauto).
  destruct e3; [exact H|].
  destruct (LoadX509KeyPair env _ _ w3); [exact H|].
  destruct (readFile _ w3); exact H.
Qed.

Lemma createLoop_gentle (g : Globals) (baseOS : string) (id : option N)
  (indices : list nat) :
  forall acc w,
    extends gentle w
      (snd (createLoop lib env NamePrefix g baseOS id indices acc w)).
Proof.
  induction indices as [|i rest IH]; intros acc w; cbn [createLoop];
    [apply extends_refl|].
  pose proof (createOne_gentle g baseOS id (Z.of_nat i) w) as H1.
  destruct (createOne lib env NamePrefix g baseOS id (Z.of_nat i) w)
    as [[e|m] w1]; [exact H1|].
  eapply extends_trans; [exact H1 | apply IH].
Qed.

(** X8. A request that fails a precondition (no disk directory
    configured, a Windows count other than zero, or no base image) is
    answered at once: no machine, an error, and the world untouched; the
    Windows count is looked at only once the directory is configured. *)
Theorem NewVirshMachines_fails_fast (g : Globals) (sched : list Turn)
  (linuxCount windowsCount : Z) (w : World) :
  VirshDiskDir g = "" \/ windowsCount <> 0 \/
  fileExists w (baseImage lib g) = false ->
  let '(o, w') :=
    NewVirshMachines lib env NamePrefix g sched linuxCount windowsCount w in
  w' = w /\ linux o = [] /\ windows o = [] /\ sendOnClosed o = [] /\
  exists e, err o = Some e /\
    (VirshDiskDir g = "" -> e = missingDiskDir) /\
    (VirshDiskDir g <> "" -> windowsCount <> 0 ->
     e = Errorf "Windows not yet supported for virsh").
Proof.
  intros Hpre. unfold NewVirshMachines.
  destruct (String.eqb_spec (VirshDiskDir g) "") as [Hd|Hd].
  - repeat split. eexists. split; [reflexivity|]. split; [auto | contradiction].
  - destruct (Z.eqb_spec windowsCount 0) as [Hw|Hw]; cbn [negb].
    + fold (baseImage lib g). destruct Hpre as [?|[?|Hmiss]]; try contradiction.
      rewrite Hmiss. cbn [negb]. repeat split.
      eexists. split; [reflexivity|]. split; [contradiction|contradiction].
    + repeat split. eexists. split; [reflexivity|]. split; [contradiction|auto].
Qed.

(** X9. A failure while the machines are created one after the other
    (clone, define, start, certificates) ends the batch with that error, or
    with the timeout error when the 60-minute timer is taken first, and
    with no machine; and nothing is rolled back: from the call to its end
    no command shuts down, destroys or unregisters a machine, so the
    machines created before the failing one stay as they are. *)
Theorem creation_failure_rolls_nothing_back (g : Globals) (sched : list Turn)
  (linuxCount : Z) (w w1 : World) (e : Err) :
  String.eqb (VirshDiskDir g) "" = false ->
  fileExists w (baseImage lib g) = true ->
  createLoop lib env NamePrefix g (baseImage lib g)
    (randInt env w 16777215%N) (seq 0 (Z.to_nat linuxCount)) [] w
  = (inl e, w1) ->
  let '(o, w') := NewVirshMachines lib env NamePrefix g sched linuxCount 0 w in
  linux o = [] /\ windows o = [] /\ sendOnClosed o = [] /\
  err o = Some (if timerFirst env (clock w + batchTimeout) (clock w')
                then batchTimedOut linuxCount else e) /\
  exists evs,
    trace w' = (trace w ++ evs)%list /\
    Forall (fun ev => stopsMachine ev = false) evs.
Proof.
  intros Hdir Hbase Hloop.
  pose proof (createLoop_gentle g (baseImage lib g) (randInt env w 16777215%N)
                (seq 0 (Z.to_nat linuxCount)) [] w) as Hgentle.
  rewrite Hloop in Hgentle. cbn [snd] in Hgentle.
  unfold NewVirshMachines. rewrite Hdir. cbn [negb Z.eqb].
  fold (baseImage lib g). rewrite Hbase. cbn [negb].
  unfold creator. rewrite Hloop.
  destruct (timerFirst env (clock w + batchTimeout) (clock w1)) eqn:Ht;
    cbn [linux windows err sendOnClosed]; rewrite ?Ht; repeat split;
    exact Hgentle.
Qed.

Lemma since_between (w0 w1 v0 v1 : World) (e : Event) :
  grows v0 w0 -> grows w0 w1 -> grows w1 v1 ->
  In e (since w0 w1) -> In e (since v0 v1).
Proof.
  intros (a & Ha & _) (b & Hb & _) (c & Hc & _) Hin.
  rewrite (since_app w0 w1 b Hb) in Hin.
  rewrite (since_app v0 v1 (a ++ b ++ c)).
  - apply in_or_app. right. apply in_or_app. now left.
  - rewrite Hc, Hb, Ha, <- !app_assoc. reflexivity.
Qed.

Lemma since_exec (w0 seen w1 : World) (argv : list string) :
  grows w0 seen -> grows (snd (exec env argv seen)) w1 ->
  In (EvExec argv (rerr (execCmd env seen argv)) (rout (execCmd env seen argv)))
    (since w0 w1).
Proof.
  intros (a & Ha & _) (b & Hb & _).
  rewrite (since_app w0 w1
             (a ++ EvExec argv (rerr (execCmd env seen argv))
                     (rout (execCmd env seen argv)) :: b)).
  - apply in_or_app. right. now left.
  - rewrite Hb. unfold exec. cbn [snd trace elapse record].
    rewrite Ha, <- !app_assoc. reflexivity.
Qed.

(** What one round of the creation loop leaves, when it ends well. *)
Lemma createOne_configured (g : Globals) (id : option N) (index : Z)
  (w w' : World) (m : VirshMachine) :
  createOne lib env NamePrefix g (baseImage lib g) id index w = (inr m, w') ->
  (exists out,
     In (EvExec ["virsh"; "-q"; "domifaddr"; MachineName m] None out)
       (since w w') /\
     addressIn lib out = Some (ip m)) /\
  (exists cert ca,
     LoadX509KeyPair env (filepath_Join lib [VirshDiskDir g; "cert.pem"])
       (filepath_Join lib [VirshDiskDir g; "key.pem"]) w' = inr cert /\
     readFile (filepath_Join lib [VirshDiskDir g; "ca.pem"]) w' = inr ca /\
     tlsConfig m = Some {| Certificates := cert; RootCAs := ca;
                           InsecureSkipVerify := true |}) /\
  dockerHost m = "tcp://" +:+ ip m +:+ ":2376" /\
  internalip m = ip m /\
  DiskPath m = linkedCloneName lib m /\
  BaseDisk m = baseImage lib g /\
  sshUser m = "docker" /\
  sshKeyPath m = filepath_Join lib [VirshDiskDir g; "id_rsa"] /\
  CPUCount m = 1 /\ Memory m = 2048.
Proof.
  unfold createOne.
  set (m0 := newMachine lib NamePrefix g (baseImage lib g) id index).
  pose proof (cloneDisk_gentle m0 w) as Hclone.
  unfold cloneDisk in *.
  destruct (fileExists w (linkedCloneName lib m0)); [discriminate|].
  destruct (exec env (cloneCommand lib m0) w) as [r w1].
  destruct (rerr r); [discriminate|]. cbn [snd] in Hclone.
  pose proof (define_gentle (setDiskPath m0 (linkedCloneName lib m0)) w1)
    as Hdefine.
  destruct (define lib env (setDiskPath m0 (linkedCloneName lib m0)) w1)
    as [[e|] w2]; [discriminate|]. cbn [snd] in Hdefine.
  pose proof (Start_reads lib env
                (setDiskPath m0 (linkedCloneName lib m0)) w2) as Hreads.
  destruct (Start lib env (setDiskPath m0 (linkedCloneName lib m0)) w2)
    as [[[e|] m3] w3]; [discriminate|].
  destruct (Hreads eq_refl) as (seen & addr & Hs & Hs' & Hok & Haddr & Hm3).
  cbn [fst snd] in Hm3, Hs'. subst m3.
  assert (Hw2 : grows w w2).
  { eapply extends_trans; eapply extends_grows; eauto. }
  destruct (LoadX509KeyPair env _ _ w3) as [e|cert] eqn:Hcert; [discriminate|].
  destruct (readFile _ w3) as [e|ca] eqn:Hca; [discriminate|].
  intros [= <- <-].
  split; [|split].
  - exists (rout (execCmd env seen
                    ["virsh"; "-q"; "domifaddr";
                     MachineName (setDiskPath m0 (linkedCloneName lib m0))])).
    split; [|exact Haddr].
    rewrite <- Hok. apply since_exec; [|exact Hs'].
    eapply extends_trans; [exact Hw2 | exact Hs].
  - exists cert, ca. split; [exact Hcert|]. split; [exact Hca | reflexivity].
  - cbn. repeat split.
Qed.

Lemma createLoop_app (g : Globals) (baseOS : string) (id : option N)
  (l1 l2 : list nat) :
  forall acc w,
    createLoop lib env NamePrefix g baseOS id (l1 ++ l2) acc w
    = match createLoop lib env NamePrefix g baseOS id l1 acc w with
      | (inl e, w1) => (inl e, w1)
      | (inr ms1, w1) => createLoop lib env NamePrefix g baseOS id l2 ms1 w1
      end.
Proof.
  induction l1 as [|i l1 IH]; intros acc w; cbn [createLoop app];
    [reflexivity|].
  destruct (createOne lib env NamePrefix g baseOS id (Z.of_nat i) w)
    as [[e|m] w1]; [reflexivity | apply IH].
Qed.

Lemma createLoop_keeps (g : Globals) (baseOS : string) (id : option N)
  (l : list nat) :
  forall acc w ms w',
    createLoop lib env NamePrefix g baseOS id l acc w = (inr ms, w') ->
    exists rest, ms = (acc ++ rest)%list.
Proof.
  induction l as [|i l IH]; intros acc w ms w' Hrun; cbn [createLoop] in Hrun.
  - injection Hrun as <- _. exists []. now rewrite app_nil_r.
  - destruct (createOne lib env NamePrefix g baseOS id (Z.of_nat i) w)
      as [[e|m] w1]; [discriminate|].
    apply IH in Hrun as [rest ->]. exists (m :: rest).
    now rewrite <- app_assoc.
Qed.

(** The machine of index [i] of a batch the loop has created is the one
    its round [i] made, started in a world that continues the one of the
    call and ending in the world of the loop over the first [i + 1]
    indices, which the rest of the loop continues. *)
Lemma createLoop_each (g : Globals) (baseOS : string) (id : option N)
  (n : nat) (w w' : World) (ms : list VirshMachine) :
  createLoop lib env NamePrefix g baseOS id (seq 0 n) [] w = (inr ms, w') ->
  forall i m,
    ms !! i = Some m ->
    exists wi,
      grows w wi /\
      createOne lib env NamePrefix g baseOS id (Z.of_nat i) wi
      = (inr m, snd (createLoop lib env NamePrefix g baseOS id
                       (seq 0 (S i)) [] w)) /\
      grows wi (snd (createLoop lib env NamePrefix g baseOS id
                       (seq 0 (S i)) [] w)) /\
      grows (snd (createLoop lib env NamePrefix g baseOS id (seq 0 (S i)) [] w))
        w'.
Proof.
  intros Hloop i m Hi.
  assert (Hlt : (i < n)%nat).
  { apply lookup_lt_Some in Hi. apply createLoop_length in Hloop.
    rewrite length_seq in Hloop. simpl in Hloop. lia. }
  replace n with (S i + (n - S i))%nat in Hloop by lia.
  rewrite seq_app, createLoop_app in Hloop.
  pose proof (createLoop_gentle g baseOS id (seq (0 + S i) (n - S i))) as Hrest.
  destruct (createLoop lib env NamePrefix g baseOS id (seq 0 (S i)) [] w)
    as [[e|ms1] w1] eqn:Hfirst; [discriminate|].
  specialize (Hrest ms1 w1). rewrite Hloop in Hrest. cbn [snd] in Hrest.
  pose proof (createLoop_length lib env NamePrefix _ _ _ _ _ _ _ _ Hfirst) as Hlen1.
  rewrite length_seq in Hlen1. simpl in Hlen1.
  apply createLoop_keeps in Hloop as [rest ->].
  rewrite lookup_app_l in Hi by lia.
  rewrite seq_S, createLoop_app in Hfirst. cbn [Nat.add] in Hfirst.
  pose proof (createLoop_gentle g baseOS id (seq 0 i) [] w) as Hbefore.
  destruct (createLoop lib env NamePrefix g baseOS id (seq 0 i) [] w)
    as [[e|ms0] wi] eqn:Hzero; [discriminate|].
  cbn [snd] in Hbefore.
  pose proof (createLoop_length lib env NamePrefix _ _ _ _ _ _ _ _ Hzero) as Hlen0.
  rewrite length_seq in Hlen0. simpl in Hlen0.
  cbn [createLoop] in Hfirst.
  pose proof (createOne_gentle g baseOS id (Z.of_nat i) wi) as Hone'.
  destruct (createOne lib env NamePrefix g baseOS id (Z.of_nat i) wi)
    as [[e|m'] w1'] eqn:Hone; [discriminate|].
  cbn [snd] in Hone'. injection Hfirst as <- <-.
  rewrite lookup_app_r in Hi by lia.
  replace (i - length ms0)%nat with 0%nat in Hi by lia.
  injection Hi as <-.
  exists wi. cbn [snd].
  split; [exact (extends_grows _ _ _ Hbefore)|].
  split; [exact Hone|].
  split; [exact (extends_grows _ _ _ Hone') | exact (extends_grows _ _ _ Hrest)].
Qed.

(** X10. The machines [NewVirshMachines] returns without error are the
    whole batch in creation order: their names are the names of the batch
    for the identifier drawn, and the machine of each index is set up as
    the creation loop leaves it. Its address, in [ip], [internalip] and
    [dockerHost], is the one in an answer the hypervisor gave without
    error during the call to [virsh domifaddr] for this machine; its TLS
    configuration holds the pair loaded from [cert.pem] and [key.pem] and
    the content of [ca.pem] of the disk directory as they were when the
    creation of this machine ended, with verification switched off; its
    disk is the clone of the base image, its user [docker], with one CPU
    and 2048 MB. No Windows machine is ever returned. *)
Theorem returned_machines_configured (g : Globals) (sched : list Turn)
  (linuxCount windowsCount : Z) (w : World) :
  let o := fst (NewVirshMachines lib env NamePrefix g sched linuxCount
                  windowsCount w) in
  let w' := snd (NewVirshMachines lib env NamePrefix g sched linuxCount
                   windowsCount w) in
  err o = None ->
  map MachineName (linux o)
  = batchNames NamePrefix (randInt env w 16777215%N) linuxCount /\
  (forall i m,
     linux o !! i = Some m ->
     configured lib env NamePrefix g (randInt env w 16777215%N) w w' i m) /\
  windows o = [].
Proof.
  unfold NewVirshMachines.
  destruct (String.eqb (VirshDiskDir g) ""); [discriminate|].
  destruct (negb (windowsCount =? 0)); [discriminate|].
  fold (baseImage lib g).
  destruct (negb (fileExists w (baseImage lib g))); [discriminate|].
  unfold creator.
  pose proof (createLoop_gentle g (baseImage lib g) (randInt env w 16777215%N)
                (seq 0 (Z.to_nat linuxCount)) [] w) as Hwhole.
  destruct (createLoop lib env NamePrefix g (baseImage lib g)
              (randInt env w 16777215%N) (seq 0 (Z.to_nat linuxCount)) [] w)
    as [[e|ms] w1] eqn:Hloop.
  - destruct (timerFirst env _ _); discriminate.
  - unfold drain. cbn [snd] in Hwhole.
    pose proof (inv_grows _ _ _ (runFan_inv env g ms w1 sched _ (spawn_inv ms w1)))
      as Hfan.
    destruct (firstError (errBuf (runFan env g sched (spawn ms w1)))).
    + destruct (removeAll lib env ms _) as [ms' w2].
      destruct (timerFirst env _ _); discriminate.
    + destruct (timerFirst env _ _); [discriminate|]. cbn [fst snd linux windows err].
      intros _. split; [exact (created_batch_names lib env NamePrefix _ _ _ _ _ _ _ Hloop)|].
      split; [|reflexivity].
      intros i m Hi.
      destruct (createLoop_each g _ _ _ _ _ _ Hloop i m Hi)
        as (wi & Hwi & Hone & Hstep & Hafter).
      destruct (createOne_configured g _ _ _ _ _ Hone)
        as ((out & Hev & Haddr) & Htls & Hrest).
      split; [|split; [exact Htls | exact Hrest]].
      exists out. split; [|exact Haddr].
      apply (since_between wi _ w _ _ Hwi Hstep); [|exact Hev].
      eapply extends_trans; [exact Hafter | exact Hfan].
Qed.

(** X11. For a request of [linuxCount >= 1] machines, in every run in
    which no readiness goroutine is left with its send to make when the
    channel is closed, [NewVirshMachines] returns either exactly
    [linuxCount] machines, each with a successful engine verification in
    the trace, and no error; or no machine and an error. *)
Theorem batch_all_or_nothing (g : Globals) (sched : list Turn)
  (linuxCount windowsCount : Z) (w : World) :
  let o := fst (NewVirshMachines lib env NamePrefix g sched linuxCount
                  windowsCount w) in
  let w' := snd (NewVirshMachines lib env NamePrefix g sched linuxCount
                   windowsCount w) in
  1 <= linuxCount ->
  sendOnClosed o = [] ->
  (err o = None /\ Z.of_nat (length (linux o)) = linuxCount /\
   Forall (verified (trace w')) (linux o)) \/
  (linux o = [] /\ err o <> None).
Proof.
  intros o w' Hn Hlate.
  exact (proj2 (all_or_nothing_without_late_send lib env NamePrefix g sched
                  linuxCount windowsCount w Hn Hlate)).
Qed.

End BatchAgain.

Lemma NewVirshMachines_fails_fast_witness :
  let '(o, w') :=
    NewVirshMachines Sim.lib Sim.host "e2e" Sim.globals [] 2 1 Sim.boot in
  w' = Sim.boot /\ linux o = [] /\ windows o = [] /\ sendOnClosed o = [] /\
  exists e, err o = Some e /\
    (VirshDiskDir Sim.globals = "" -> e = missingDiskDir) /\
    (VirshDiskDir Sim.globals <> "" -> 1 <> 0 ->
     e = Errorf "Windows not yet supported for virsh").
Proof.
  apply (NewVirshMachines_fails_fast Sim.lib Sim.host "e2e" Sim.globals
           [] 2 1 Sim.boot).
  right. left. discriminate.
Defined.

Lemma creation_failure_rolls_nothing_back_witness :
  let '(o, w') :=
    NewVirshMachines Sim.lib secondWontStart "e2e" Sim.globals [] 2 0 Sim.boot in
  linux o = [] /\ err o = Some (ExitError 1) /\
  exists evs,
    trace w' = (trace Sim.boot ++ evs)%list /\
    Forall (fun ev => stopsMachine ev = false) evs.
Proof.
  pose proof (creation_failure_rolls_nothing_back Sim.lib secondWontStart "e2e"
                Sim.globals [] 2 Sim.boot (snd (created secondWontStart 2))
                (ExitError 1)) as H.
  destruct (NewVirshMachines Sim.lib secondWontStart "e2e" Sim.globals [] 2 0
              Sim.boot) as [o w'] eqn:Hrun.
  destruct H as (Hl & _ & _ & He & Hevs).
  - vm_compute. reflexivity.
  - vm_compute. reflexivity.
  - vm_compute. reflexivity.
  - split; [exact Hl|]. split; [|exact Hevs].
    rewrite He. replace w' with (snd (o, w')) by reflexivity. rewrite <- Hrun.
    vm_compute. reflexivity.
Defined.

Lemma returned_machines_configured_witness :
  let o := fst (NewVirshMachines Sim.lib Sim.host "e2e" Sim.globals [] 2 0
                  Sim.boot) in
  let w' := snd (NewVirshMachines Sim.lib Sim.host "e2e" Sim.globals [] 2 0
                   Sim.boot) in
  map MachineName (linux o) = ["e2e-ABCDEF-0"; "e2e-ABCDEF-1"] /\
  forall i m,
    linux o !! i = Some m ->
    configured Sim.lib Sim.host "e2e" Sim.globals (Some 11259375%N)
      Sim.boot w' i m.
Proof.
  destruct (returned_machines_configured Sim.lib Sim.host "e2e" Sim.globals
              [] 2 0 Sim.boot) as (Hnames & Hconf & _).
  - vm_compute. reflexivity.
  - split; [rewrite Hnames; vm_compute; reflexivity | exact Hconf].
Defined.

Lemma batch_all_or_nothing_witness :
  let o := fst (NewVirshMachines Sim.lib Sim.host "e2e" Sim.globals [] 2 0
                  Sim.boot) in
  let w' := snd (NewVirshMachines Sim.lib Sim.host "e2e" Sim.globals [] 2 0
                   Sim.boot) in
  err o = None /\ Z.of_nat (length (linux o)) = 2 /\
  Forall (verified (trace w')) (linux o).
Proof.
  destruct (batch_all_or_nothing Sim.lib Sim.host "e2e" Sim.globals [] 2 0
              Sim.boot) as [Hall|[_ Herr]].
  - lia.
  - vm_compute. reflexivity.
  - exact Hall.
  - exfalso. apply Herr. vm_compute. reflexivity.
Defined.

(** ** The [create] command, once more *)

Section CreateFacts.
Variable env : Env.
Context {M : Type} `{Cmd.Machine M}.

Abbreviation apiOnly := (fun e => isApiCall e = true).

Lemma call_apiOnly (cli : Client) (c : ApiCall) (w : World) :
  extends apiOnly w (snd (Cmd.call env cli c w)).
Proof.
  exists [EvApi (chost cli) c (aerr (engineCall env w (chost cli) c))].
  split; [reflexivity | repeat constructor].
Qed.

Lemma joinWorkers_apiOnly (listenAddr : string) (swarmInfo info : ApiResp)
  (workers : list M) :
  forall w,
    extends apiOnly w
      (snd (Cmd.joinWorkers env listenAddr swarmInfo info workers w)).
Proof.
  induction workers as [|m rest IH]; intros w; cbn [Cmd.joinWorkers];
    [apply extends_refl|].
  destruct (Cmd.GetEngineAPI m) as [e|cliW]; [apply extends_refl|].
  destruct (remoteManagers info) as [|addr others]; [apply extends_refl|].
  pose proof (call_apiOnly cliW
                (SwarmJoin listenAddr [addr] (workerToken swarmInfo)) w) as H1.
  destruct (Cmd.call env cliW _ w) as [r w1]. cbn [snd] in H1.
  destruct (aerr r); [exact H1|].
  eapply extends_trans; [exact H1 | apply IH].
Qed.

Lemma initAndJoin_apiOnly (listenAddr : string) (machines : list M) (w : World) :
  extends apiOnly w (snd (Cmd.initAndJoin env listenAddr machines w)).
Proof.
  unfold Cmd.initAndJoin. destruct machines as [|leader workers];
    [apply extends_refl|].
  destruct (Cmd.GetEngineAPI leader) as [e|cli]; [apply extends_refl|].
  destruct (Cmd.GetInternalIP leader) as [e|internalIP]; [apply extends_refl|].
  pose proof (call_apiOnly cli (SwarmInit listenAddr internalIP) w) as H1.
  destruct (Cmd.call env cli (SwarmInit listenAddr internalIP) w) as [r1 w1].
  cbn [snd] in H1. destruct (aerr r1); [exact H1|].
  pose proof (call_apiOnly cli SwarmInspect w1) as H2.
  destruct (Cmd.call env cli SwarmInspect w1) as [r2 w2]. cbn [snd] in H2.
  destruct (aerr r2); [eapply extends_trans; eauto|].
  pose proof (call_apiOnly cli Info w2) as H3.
  destruct (Cmd.call env cli Info w2) as [r3 w3]. cbn [snd] in H3.
  destruct (aerr r3);
    [eapply extends_trans; [exact H1|]; eapply extends_trans; eauto|].
  eapply extends_trans; [exact H1|]. eapply extends_trans; [exact H2|].
  eapply extends_trans; [exact H3 | apply joinWorkers_apiOnly].
Qed.

Lemma joinWorkers_early (listenAddr : string) (swarmInfo info : ApiResp)
  (workers : list M) :
  forall w x,
    fst (Cmd.joinWorkers env listenAddr swarmInfo info workers w) = Some x ->
    x <> Cmd.Returned None.
Proof.
  induction workers as [|m rest IH]; intros w x; cbn [Cmd.joinWorkers];
    [discriminate|].
  destruct (Cmd.GetEngineAPI m) as [e|cliW]; [intros [= <-]; discriminate|].
  destruct (remoteManagers info) as [|addr others];
    [intros [= <-]; discriminate|].
  destruct (Cmd.call env cliW _ w) as [r w1].
  destruct (aerr r); [intros [= <-]; discriminate | apply IH].
Qed.

Lemma initAndJoin_early (listenAddr : string) (machines : list M) (w : World)
  (x : Cmd.Exit) :
  fst (Cmd.initAndJoin env listenAddr machines w) = Some x ->
  x <> Cmd.Returned None.
Proof.
  unfold Cmd.initAndJoin. destruct machines as [|leader workers];
    [intros [= <-]; discriminate|].
  destruct (Cmd.GetEngineAPI leader) as [e|cli]; [intros [= <-]; discriminate|].
  destruct (Cmd.GetInternalIP leader) as [e|internalIP];
    [intros [= <-]; discriminate|].
  destruct (Cmd.call env cli (SwarmInit listenAddr internalIP) w) as [r1 w1].
  destruct (aerr r1); [intros [= <-]; discriminate|].
  destruct (Cmd.call env cli SwarmInspect w1) as [r2 w2].
  destruct (aerr r2); [intros [= <-]; discriminate|].
  destruct (Cmd.call env cli Info w2) as [r3 w3].
  destruct (aerr r3); [intros [= <-]; discriminate|].
  apply joinWorkers_early.
Qed.

Lemma prints_trace (machines : list M) :
  forall w,
    trace (foldl (fun w m => record (EvPrint "")
                               (record (EvPrint (Cmd.GetConnectionEnv m)) w))
             w machines)
    = (trace w ++ flat_map printed machines)%list.
Proof.
  induction machines as [|m rest IH]; intros w; cbn [foldl flat_map].
  - now rewrite app_nil_r.
  - rewrite IH. cbn [record trace]. rewrite <- !app_assoc. reflexivity.
Qed.

(** X12. What the command prints. The connection environment of a machine
    is printed, followed by an empty line, for every machine, Linux ones
    first, exactly when the command returns no error, and after all the
    engine calls; with [--no-swarm] no engine call is made at all. When the
    command ends otherwise (an error or a panic during the bootstrap)
    nothing has been printed. *)
Theorem runCreate_output (noInit : bool) (listenAddr : string) (lm wm : list M)
  (w : World) :
  let '(exit, w') := Cmd.runCreate env noInit listenAddr lm wm w in
  exists calls,
    Forall (fun e => isApiCall e = true) calls /\
    (noInit = true -> calls = [] /\ exit = Cmd.Returned None) /\
    (exit = Cmd.Returned None ->
     trace w' = (trace w ++ calls ++ flat_map printed (lm ++ wm))%list) /\
    (exit <> Cmd.Returned None -> trace w' = (trace w ++ calls)%list).
Proof.
  unfold Cmd.runCreate. destruct noInit.
  - exists []. split; [constructor|]. split; [auto|].
    split; [intros _; rewrite prints_trace; reflexivity | congruence].
  - destruct (initAndJoin_apiOnly listenAddr (lm ++ wm) w) as (calls & Htr & Hall).
    pose proof (initAndJoin_early listenAddr (lm ++ wm) w) as Hearly.
    destruct (Cmd.initAndJoin env listenAddr (lm ++ wm) w) as [[x|] w1];
      cbn [fst snd] in Htr, Hearly; exists calls; (split; [exact Hall|]);
      (split; [discriminate|]).
    + split; [|intros _; exact Htr].
      intros ->. exfalso. exact (Hearly _ eq_refl eq_refl).
    + split; [|congruence]. intros _.
      rewrite prints_trace, Htr, <- app_assoc. reflexivity.
Qed.

End CreateFacts.

Section BootstrapAgain.
Variable env : Env.
Context {M : Type} `{Cmd.Machine M}.

Lemma joinWorkers_joins (listenAddr : string) (swarmInfo info : ApiResp)
  (workers : list M) :
  forall w,
    exists clients evs,
      trace (snd (Cmd.joinWorkers env listenAddr swarmInfo info workers w))
      = (trace w ++ evs)%list /\
      Forall2 (joinOn listenAddr (hd "" (remoteManagers info))
                 (workerToken swarmInfo)) clients evs /\
      Forall2 (fun m c => Cmd.GetEngineAPI m = inr c)
        (firstn (length clients) workers) clients /\
      (length clients <= length workers)%nat.
Proof.
  induction workers as [|m rest IH]; intros w; cbn [Cmd.joinWorkers].
  - exists [], []. split; [now rewrite app_nil_r|].
    repeat split; constructor.
  - destruct (Cmd.GetEngineAPI m) as [e|cliW] eqn:Hcli.
    { exists [], []. split; [now rewrite app_nil_r|].
      split; [constructor|]. split; [constructor | simpl; lia]. }
    destruct (remoteManagers info) as [|addr others] eqn:Hrm.
    { exists [], []. split; [now rewrite app_nil_r|].
      split; [constructor|]. split; [constructor | simpl; lia]. }
    unfold Cmd.call.
    set (r := engineCall env w (chost cliW) _).
    set (w1 := elapse (atook r) _).
    assert (Hjoin : joinOn listenAddr addr (workerToken swarmInfo) cliW
                      (EvApi (chost cliW)
                         (SwarmJoin listenAddr [addr] (workerToken swarmInfo))
                         (aerr r))) by (eexists; reflexivity).
    destruct (aerr r) eqn:Hr.
    + eexists [cliW], [_]. split; [reflexivity|].
      split; [constructor; [exact Hjoin | constructor]|].
      split; [constructor; [exact Hcli | constructor] | simpl; lia].
    + destruct (IH w1) as (clients & evs & Htr & Hall & Hcl & Hlen).
      eexists (cliW :: clients), (_ :: evs).
      split; [rewrite Htr; subst w1; simpl; rewrite <- app_assoc; reflexivity|].
      split; [constructor; [exact Hjoin | exact Hall]|].
      split; [constructor; [exact Hcli | exact Hcl] | simpl; lia].
Qed.

Lemma joins_projections (listenAddr addr token : string)
  (clients : list Client) (evs : list Event) :
  Forall2 (joinOn listenAddr addr token) clients evs ->
  Cmd.initCalls evs = [] /\ Cmd.fetchCalls evs = [] /\
  Cmd.joinCalls evs
  = map (fun c => (chost c, SwarmJoin listenAddr [addr] token)) clients.
Proof.
  induction 1 as [|c e clients evs [failure ->] _ (IH1 & IH2 & IH3)]; simpl.
  - repeat split.
  - rewrite IH1, IH2, IH3. repeat split.
Qed.

(** X13. In every run of the bootstrap, also one that fails on the way:
    the leader is initialized at most once, and the initialize and the two
    reads go to the leader's own client; the joins issued go to the
    clients of the first workers of the list, one each, in list order, so
    no worker is joined twice and none is joined on another's client; all
    of them carry one and the same token and one and the same manager
    address; and a join is issued only after the initialize, the read of
    the token and the read of the managers have all three succeeded on the
    leader, in this order, at the head of the calls. *)
Theorem bootstrap_joins_uniform (listenAddr : string) (leader : M)
  (workers : list M) (w : World) :
  exists added token addr clients,
    trace (snd (Cmd.initAndJoin env listenAddr (leader :: workers) w))
    = (trace w ++ added)%list /\
    (length (Cmd.initCalls added) <= 1)%nat /\
    (forall h c,
       In (h, c) (Cmd.initCalls added ++ Cmd.fetchCalls added) ->
       exists cli, Cmd.GetEngineAPI leader = inr cli /\ h = chost cli) /\
    (length clients <= length workers)%nat /\
    Forall2 (fun m c => Cmd.GetEngineAPI m = inr c)
      (firstn (length clients) workers) clients /\
    Cmd.joinCalls added
    = map (fun c => (chost c, SwarmJoin listenAddr [addr] token)) clients /\
    (clients <> [] ->
     exists cli advertise,
       Cmd.GetEngineAPI leader = inr cli /\
       Cmd.GetInternalIP leader = inr advertise /\
       firstn 3 added
       = [EvApi (chost cli) (SwarmInit listenAddr advertise) None;
          EvApi (chost cli) SwarmInspect None; EvApi (chost cli) Info None]).
Proof.
  unfold Cmd.initAndJoin.
  destruct (Cmd.GetEngineAPI leader) as [e|cli].
  { exists [], "", "", []. rewrite app_nil_r.
    split; [reflexivity|]. split; [simpl; lia|].
    split; [intros h c []|]. split; [simpl; lia|].
    split; [constructor|]. split; [reflexivity | congruence]. }
  destruct (Cmd.GetInternalIP leader) as [e|internalIP].
  { exists [], "", "", []. rewrite app_nil_r.
    split; [reflexivity|]. split; [simpl; lia|].
    split; [intros h c []|]. split; [simpl; lia|].
    split; [constructor|]. split; [reflexivity | congruence]. }
  assert (Hleader : forall (calls : list (string * ApiCall)) h c,
            Forall (fun hc => fst hc = chost cli) calls ->
            In (h, c) calls ->
            exists cli0 : Client,
              (inr cli : Err + Client) = inr cli0 /\ h = chost cli0).
  { intros calls h c Hall Hin. exists cli. split; [reflexivity|].
    rewrite List.Forall_forall in Hall. exact (Hall _ Hin). }
  unfold Cmd.call.
  set (r1 := engineCall env w (chost cli) _).
  set (w1 := elapse (atook r1) _).
  destruct (aerr r1) eqn:Hr1.
  { eexists [_], "", "", []. split; [reflexivity|].
    split; [simpl; lia|].
    split; [intros h c; apply Hleader; repeat constructor|].
    split; [simpl; lia|].
    split; [constructor|]. split; [reflexivity | congruence]. }
  set (r2 := engineCall env w1 (chost cli) SwarmInspect).
  set (w2 := elapse (atook r2) _).
  destruct (aerr r2) eqn:Hr2.
  { eexists [_; _], "", "", [].
    split; [simpl; rewrite <- app_assoc; reflexivity|].
    split; [simpl; lia|].
    split; [intros h c; apply Hleader; repeat constructor|].
    split; [simpl; lia|].
    split; [constructor|]. split; [reflexivity | congruence]. }
  set (r3 := engineCall env w2 (chost cli) Info).
  set (w3 := elapse (atook r3) _).
  destruct (aerr r3) eqn:Hr3.
  { eexists [_; _; _], "", "", [].
    split; [simpl; rewrite <- !app_assoc; reflexivity|].
    split; [simpl; lia|].
    split; [intros h c; apply Hleader; repeat constructor|].
    split; [simpl; lia|].
    split; [constructor|]. split; [reflexivity | congruence]. }
  destruct (joinWorkers_joins listenAddr r2 r3 workers w3)
    as (clients & evs & Htr & Hall & Hcl & Hlen).
  destruct (joins_projections _ _ _ _ _ Hall) as (Hi & Hf & Hj).
  exists ([EvApi (chost cli) (SwarmInit listenAddr internalIP) None;
           EvApi (chost cli) SwarmInspect None;
           EvApi (chost cli) Info None] ++ evs)%list,
    (workerToken r2), (hd "" (remoteManagers r3)), clients.
  split.
  { rewrite Htr. subst w3 w2 w1. simpl.
    rewrite <- !app_assoc. reflexivity. }
  unfold Cmd.initCalls, Cmd.fetchCalls, Cmd.joinCalls in *.
  rewrite !flat_map_app. cbn [flat_map app]. rewrite Hi, Hf, Hj.
  split; [simpl; lia|].
  split; [intros h c; apply Hleader; repeat constructor|].
  split; [exact Hlen|]. split; [exact Hcl|]. split; [reflexivity|].
  intros _. exists cli, internalIP. repeat split.
Qed.

(** X14. The two places where the bootstrap indexes a list. With no
    machine at all it panics before any engine call. On an engine that
    answers every call without error but lists no remote manager, the
    bootstrap of a leader and at least one worker, their clients created,
    panics at the first join: the three calls on the leader have been
    made, and no join. *)
Theorem bootstrap_index_panics (listenAddr : string) (w : World) :
  Cmd.initAndJoin env listenAddr (@nil M) w
  = (Some (Cmd.Panicked "index out of range"), w) /\
  forall leader worker rest cli cliW advertise,
    (forall w' h c, aerr (engineCall env w' h c) = None) ->
    (forall w' h, remoteManagers (engineCall env w' h Info) = []) ->
    Cmd.GetEngineAPI leader = inr cli ->
    Cmd.GetInternalIP leader = inr advertise ->
    Cmd.GetEngineAPI worker = inr cliW ->
    let '(exit, after) :=
      Cmd.initAndJoin env listenAddr (leader :: worker :: rest) w in
    exit = Some (Cmd.Panicked "index out of range") /\
    trace after
    = (trace w ++ [EvApi (chost cli) (SwarmInit listenAddr advertise) None;
                   EvApi (chost cli) SwarmInspect None;
                   EvApi (chost cli) Info None])%list.
Proof.
  split; [reflexivity|].
  intros leader worker rest cli cliW advertise Hok Hnone Hcli Hip HcliW.
  unfold Cmd.initAndJoin. rewrite Hcli, Hip. unfold Cmd.call.
  cbv beta iota zeta. rewrite !Hok. cbn [Cmd.joinWorkers].
  rewrite HcliW, Hnone.
  split; [reflexivity|]. simpl. rewrite <- !app_assoc. reflexivity.
Qed.

End BootstrapAgain.

Section RunEFacts.
Variable env : Env.
Context {M : Type} `{Cmd.Machine M}.
Variable Atoi : string -> Err + Z.
Variable GetTestMachines :
  Z -> Z -> World -> (list M * list M * option Err) * World.

(** X15. The arguments of the command. With the flags readable: no
    argument gives the error [Config missing]; a single argument gives a
    panic on the missing second one when it is a number, and ends the
    process when it is not; in both cases no machine is asked for and the
    world is untouched, and the command does not succeed. Arguments after
    the second are not looked at. *)
Theorem RunE_arguments (flags : Flags) (debug : bool) (w : World) :
  flagDebug flags = inr debug ->
  RunE env Atoi GetTestMachines flags [] w
  = (Ran (Cmd.Returned (Some (Errorf "Config missing"))), w) /\
  (forall a,
     RunE env Atoi GetTestMachines flags [a] w
     = (match Atoi a with
        | inl e => Fatal (errString e)
        | inr _ => Ran (Cmd.Panicked "index out of range")
        end, w)) /\
  (forall args,
     (length args < 2)%nat ->
     snd (RunE env Atoi GetTestMachines flags args w) = w /\
     fst (RunE env Atoi GetTestMachines flags args w)
     <> Ran (Cmd.Returned None)) /\
  (forall a0 a1 rest,
     RunE env Atoi GetTestMachines flags (a0 :: a1 :: rest) w
     = RunE env Atoi GetTestMachines flags [a0; a1] w).
Proof.
  intros Hdebug. unfold RunE. rewrite Hdebug.
  split; [reflexivity|]. split.
  { intros a. destruct (Atoi a); reflexivity. }
  split; [|reflexivity].
  intros [|a [|b rest]] Hlen; simpl in Hlen; try lia.
  - split; [reflexivity | discriminate].
  - destruct (Atoi a); split; try reflexivity; discriminate.
Qed.

End RunEFacts.

Lemma bootstrap_index_panics_witness :
  let '(exit, after) :=
    @Cmd.initAndJoin noManagers VirshMachine (simMachine noManagers)
      "0.0.0.0:2377" [ready 0; ready 1] Sim.boot in
  exit = Some (Cmd.Panicked "index out of range") /\
  length (Cmd.joinCalls (trace after)) = 0%nat.
Proof.
  pose proof (proj2 (@bootstrap_index_panics noManagers VirshMachine
                       (simMachine noManagers) "0.0.0.0:2377" Sim.boot)
                (ready 0) (ready 1) [] _ _ _
                (fun _ _ _ => eq_refl) (fun _ _ => eq_refl)
                eq_refl eq_refl eq_refl) as Hpanic.
  destruct (@Cmd.initAndJoin noManagers VirshMachine (simMachine noManagers)
              "0.0.0.0:2377" [ready 0; ready 1] Sim.boot) as [exit after].
  destruct Hpanic as [Hexit Htrace]. split; [exact Hexit|].
  rewrite Htrace. reflexivity.
Defined.

Lemma RunE_arguments_witness :
  simRunE simFlags [] = (Ran (Cmd.Returned (Some (Errorf "Config missing"))), Sim.boot) /\
  simRunE simFlags ["2"] = (Ran (Cmd.Panicked "index out of range"), Sim.boot).
Proof.
  unfold simRunE.
  destruct (@RunE_arguments Sim.host VirshMachine (simMachine Sim.host)
              (fun s => if String.eqb s "2" then inr 2
                        else inl (SysError ("strconv.Atoi: parsing: invalid syntax")))
              (fun l _ w => ((map (fun i => ready (Z.of_nat i))
                                (seq 0 (Z.to_nat l)), [], None), w))
              simFlags false Sim.boot eq_refl) as (Hnone & Hone & _).
  split; [exact Hnone | exact (Hone "2")].
Defined.

Example RunE_sample :
  let '(ended, w) := simRunE simFlags ["2"; "0"] in
  ended = Fatal "strconv.Atoi: parsing: invalid syntax".
Proof. vm_compute. reflexivity. Qed.

(** * Writing a file to a machine *)

Section TransferFacts.
Variable env : Env.
Variable tfs : TempFs.

(** X16. [WriteFile] leaves no temporary file behind. When the temporary
    file cannot be created the error is returned and nothing has happened;
    once it was created, no file of its name exists when [WriteFile]
    returns, whatever the copy and [scp] did and whatever they returned. *)
Theorem WriteFile_removes_temp (m : VirshMachine) (filePath data : string)
  (w : World) :
  match tempFile tfs w "/tmp" "E2ETestTempFile" with
  | inl e => WriteFile env tfs m filePath data w = (Some e, w)
  | inr name =>
      files (snd (WriteFile env tfs m filePath data w)) !! name = None
  end.
Proof.
  unfold WriteFile. destruct (tempFile tfs w "/tmp" "E2ETestTempFile") as [e|name];
    [reflexivity|].
  destruct (copyInto tfs name data _) as [cerr w2].
  destruct cerr as [e|].
  - apply osRemove_gone.
  - destruct (writeLocalFile env m name filePath w2) as [res w3].
    apply osRemove_gone.
Qed.

(** X17. The order of [WriteFile] once the temporary file exists. A copy
    that fails ends it: its error is returned, [scp] is not run, the
    temporary file is removed. After a complete copy [scp] is run once,
    from the temporary file to [user@ip:filePath]; the result is [scp]'s
    error (its trimmed output logged as an error before) or nil, and the
    removal comes last; what the removal returns is dropped. *)
Theorem WriteFile_copies_then_sends (m : VirshMachine)
  (filePath data name : string) (w : World) :
  tempFile tfs w "/tmp" "E2ETestTempFile" = inr name ->
  let created := {| files := <[name := ""]> (files w); clock := clock w;
                    trace := trace w |} in
  let '(res, w') := WriteFile env tfs m filePath data w in
  match copyOutcome tfs created name data with
  | WriteFailed e _ =>
      res = Some e /\
      trace w' = (trace w ++ [EvWriteFile name (Some e);
                              EvRemoveFile name None])%list
  | WriteOk =>
      exists r removal,
        res = rerr r /\
        trace w'
        = (trace w
           ++ [EvWriteFile name None;
               EvExec (scpArgs m name filePath) (rerr r) (rout r)]
           ++ match rerr r with
              | Some _ => [EvLog LError (GoStrings.TrimSpace (rout r))]
              | None => []
              end
           ++ [EvRemoveFile name removal])%list
  end.
Proof.
  intros Htemp. unfold WriteFile. rewrite Htemp. cbv zeta.
  unfold copyInto.
  destruct (copyOutcome tfs _ name data) as [|e [part|]]; cbv beta iota zeta.
  - unfold writeLocalFile, exec. cbv beta iota zeta.
    set (w2 := record (EvWriteFile name None) _).
    set (r := execCmd env w2 (scpArgs m name filePath)).
    destruct (rerr r) as [e|] eqn:Hr; cbv beta iota zeta; exists r;
      rewrite Hr; unfold osRemove, logAt;
      match goal with |- context [files ?x !! name] =>
        destruct (files x !! name) end;
      eexists; (split; [reflexivity|]); simpl; rewrite <- !app_assoc;
      reflexivity.
  - unfold osRemove. cbn [files record].
    rewrite lookup_insert_eq. cbn [fst snd]. split; [reflexivity|].
    simpl. rewrite <- !app_assoc. reflexivity.
  - unfold osRemove. cbn [files record].
    rewrite lookup_insert_eq. cbn [fst snd]. split; [reflexivity|].
    simpl. rewrite <- !app_assoc. reflexivity.
Qed.

End TransferFacts.

Lemma WriteFile_copies_then_sends_witness :
  let '(res, w') :=
    WriteFile Sim.host simTemp (ready 0) "/etc/docker/daemon.json" "{}"
      Sim.boot in
  exists r removal,
    res = rerr r /\
    trace w'
    = (trace Sim.boot
       ++ [EvWriteFile "/tmp/E2ETestTempFile493817" None;
           EvExec (scpArgs (ready 0) "/tmp/E2ETestTempFile493817"
                     "/etc/docker/daemon.json") (rerr r) (rout r)]
       ++ match rerr r with
          | Some _ => [EvLog LError (GoStrings.TrimSpace (rout r))]
          | None => []
          end
       ++ [EvRemoveFile "/tmp/E2ETestTempFile493817" removal])%list.
Proof.
  exact (WriteFile_copies_then_sends Sim.host simTemp (ready 0)
           "/etc/docker/daemon.json" "{}" "/tmp/E2ETestTempFile493817"
           Sim.boot eq_refl).
Defined.

(** * The observation map of the load-balancer test *)

Section LbFacts.

Lemma int64_small (z : Z) :
  -9223372036854775808 <= z < 9223372036854775808 -> Lb.int64 z = z.
Proof. intros Hz. unfold Lb.int64. rewrite Z.mod_small; lia. Qed.

Lemma saw_lookup (name : string) (c : gmap string Z) (n : string) :
  Lb.saw name c !! n
  = if decide (n = name)
    then Some (match c !! name with
               | Some k => Lb.int64 (k + 1)
               | None => 1
               end)
    else c !! n.
Proof.
  unfold Lb.saw.
  destruct (decide (n = name)) as [->|Hne]; destruct (c !! name);
    rewrite ?lookup_insert_eq, ?lookup_insert_ne by congruence; reflexivity.
Qed.

Lemma dom_saw (name : string) (c : gmap string Z) :
  dom (Lb.saw name c) = ({[name]} ∪ dom c : gset string).
Proof. unfold Lb.saw. destruct (c !! name); apply dom_insert_L. Qed.

Lemma dom_sawAll (names : list string) :
  forall c : gmap string Z,
    dom (Lb.sawAll names c) = (list_to_set names ∪ dom c : gset string).
Proof.
  induction names as [|name rest IH]; intros c.
  - cbn. now rewrite union_empty_l_L.
  - change (Lb.sawAll (name :: rest) c) with (Lb.sawAll rest (Lb.saw name c)).
    rewrite IH, dom_saw. cbn [list_to_set].
    rewrite (assoc_L (∪)). f_equal. apply (comm_L (∪)).
Qed.

Lemma timesSeen_cons (name : string) (rest : list string) (n : string) :
  timesSeen (name :: rest) n
  = if decide (name = n) then S (timesSeen rest n) else timesSeen rest n.
Proof.
  unfold timesSeen. rewrite filter_cons.
  destruct (decide (name = n)); reflexivity.
Qed.

Lemma timesSeen_pos (names : list string) (n : string) :
  (0 < timesSeen names n)%nat <-> n ∈ names.
Proof.
  induction names as [|name rest IH].
  - cbn. split; [lia | intros Hin; inversion Hin].
  - rewrite timesSeen_cons, elem_of_cons.
    destruct (decide (name = n)) as [->|Hne].
    + split; [now left | lia].
    + rewrite IH. split; [now right | intros [->|Hin]; [congruence | exact Hin]].
Qed.

Lemma sawAll_lookup (names : list string) :
  forall (c : gmap string Z) (n : string),
    (forall n k, c !! n = Some k ->
       0 <= k /\ k + Z.of_nat (length names) < 9223372036854775808) ->
    Z.of_nat (length names) < 9223372036854775808 ->
    Lb.sawAll names c !! n
    = match c !! n, timesSeen names n with
      | Some k, seen => Some (k + Z.of_nat seen)
      | None, O => None
      | None, seen => Some (Z.of_nat seen)
      end.
Proof.
  induction names as [|name rest IH]; intros c n Hc Hlen.
  - cbn. destruct (c !! n); [f_equal; lia | reflexivity].
  - change (Lb.sawAll (name :: rest) c) with (Lb.sawAll rest (Lb.saw name c)).
    cbn [length] in *.
    rewrite IH; [| |lia].
    + rewrite saw_lookup, timesSeen_cons.
      destruct (decide (n = name)) as [->|Hne].
      * destruct (decide (name = name)); [|congruence].
        destruct (c !! name) as [k|] eqn:Hk.
        -- destruct (Hc _ _ Hk). rewrite int64_small by lia. f_equal. lia.
        -- f_equal. lia.
      * destruct (decide (name = n)); [congruence|]. reflexivity.
    + intros n' k'. rewrite saw_lookup.
      destruct (decide (n' = name)) as [->|Hne].
      * destruct (c !! name) as [k|] eqn:Hk; intros [= <-].
        -- destruct (Hc _ _ Hk). rewrite int64_small by lia. lia.
        -- lia.
      * intros Hk'. destruct (Hc _ _ Hk'). lia.
Qed.

Lemma checkComplete_nil (replicas : Z) (c : gmap string Z) :
  fst (Lb.checkComplete replicas c) = None <->
  Z.of_nat (size c) = replicas /\
  forall n k, c !! n = Some k -> 2 <= k.
Proof.
  unfold Lb.checkComplete. cbv zeta.
  destruct (replicas <? Z.of_nat (size c)) eqn:Hover.
  { apply Z.ltb_lt in Hover. cbn. split; [discriminate | lia]. }
  destruct (Z.of_nat (size c) <? replicas) eqn:Hunder.
  { apply Z.ltb_lt in Hunder. cbn. split; [discriminate | lia]. }
  apply Z.ltb_ge in Hover, Hunder.
  destruct (List.find _ (map_to_list c)) as [[name k]|] eqn:Hfind.
  - cbn. split; [discriminate|]. intros [_ Hall].
    apply List.find_some in Hfind as [Hin Hlow].
    apply list_elem_of_In, elem_of_map_to_list in Hin.
    apply Hall in Hin. cbn in Hlow. apply Z.ltb_lt in Hlow. lia.
  - cbn. split; [|reflexivity]. intros _. split; [lia|].
    intros n k Hk.
    apply elem_of_map_to_list, list_elem_of_In in Hk.
    apply (List.find_none _ _ Hfind) in Hk. cbn in Hk.
    apply Z.ltb_ge in Hk. exact Hk.
Qed.

Lemma checkComplete_cancel (replicas : Z) (c : gmap string Z) :
  snd (Lb.checkComplete replicas c) = true <-> replicas < Z.of_nat (size c).
Proof.
  unfold Lb.checkComplete. cbv zeta.
  destruct (replicas <? Z.of_nat (size c)) eqn:Hover.
  { apply Z.ltb_lt in Hover. cbn. split; [intros _; exact Hover | reflexivity]. }
  apply Z.ltb_ge in Hover.
  destruct (Z.of_nat (size c) <? replicas).
  { cbn. split; [discriminate | lia]. }
  destruct (List.find _ (map_to_list c)) as [[name k]|];
    cbn; (split; [discriminate | lia]).
Qed.

(** X18. The observation map counts. After the names read so far have been
    recorded into an empty map, a name that was never read has no entry,
    and a name that was read has the number of times it was read; this
    for fewer than 2^63 reads, beyond which a Go [int] would wrap. *)
Theorem sawAll_counts (names : list string) (n : string) :
  Z.of_nat (length names) < 9223372036854775808 ->
  Lb.sawAll names (empty : gmap string Z) !! n
  = match timesSeen names n with
    | O => None
    | seen => Some (Z.of_nat seen)
    end.
Proof.
  intros Hlen. rewrite sawAll_lookup; [| |exact Hlen].
  - rewrite lookup_empty. reflexivity.
  - intros n' k. rewrite lookup_empty. discriminate.
Qed.

(** X19. When the check of the load-balancer test passes. On the map built
    from the names read so far, [checkComplete] returns nil exactly when
    the number of different names read is [replicas] and every name read
    was read at least twice. *)
Theorem checkComplete_passes_iff (replicas : Z) (names : list string) :
  Z.of_nat (length names) < 9223372036854775808 ->
  fst (Lb.checkComplete replicas (Lb.sawAll names (empty : gmap string Z)))
  = None <->
  Z.of_nat (size (list_to_set names : gset string)) = replicas /\
  forall n, n ∈ names -> (2 <= timesSeen names n)%nat.
Proof.
  intros Hlen. rewrite checkComplete_nil.
  rewrite <- (size_dom (D := gset string)), dom_sawAll, dom_empty_L, union_empty_r_L.
  assert (Hlook : forall n,
            Lb.sawAll names (empty : gmap string Z) !! n
            = match timesSeen names n with
              | O => None
              | seen => Some (Z.of_nat seen)
              end).
  { intros n. rewrite sawAll_lookup; [| |exact Hlen].
    - rewrite lookup_empty. reflexivity.
    - intros n' k. rewrite lookup_empty. discriminate. }
  split; intros [Hsize Hall]; (split; [exact Hsize|]).
  - intros n Hin. apply timesSeen_pos in Hin.
    specialize (Hall n (Z.of_nat (timesSeen names n))).
    rewrite Hlook in Hall.
    destruct (timesSeen names n) as [|seen] eqn:Hseen; [lia|].
    specialize (Hall eq_refl). lia.
  - intros n k. rewrite Hlook.
    destruct (timesSeen names n) as [|seen] eqn:Hseen; [discriminate|].
    intros [= <-].
    assert (Hin : n ∈ names) by (apply timesSeen_pos; lia).
    apply Hall in Hin. lia.
Qed.

(** X20. [checkComplete] cancels the polling exactly when more different
    names than [replicas] are in the map, and never together with a nil
    result. Overshoot is final: whatever is read afterwards, every later
    check cancels again and returns an error. *)
Theorem overshoot_is_final (replicas : Z) (c : gmap string Z) :
  (snd (Lb.checkComplete replicas c) = true <->
   replicas < Z.of_nat (size c)) /\
  (snd (Lb.checkComplete replicas c) = true ->
   forall names,
     snd (Lb.checkComplete replicas (Lb.sawAll names c)) = true /\
     fst (Lb.checkComplete replicas (Lb.sawAll names c)) <> None).
Proof.
  split; [apply checkComplete_cancel|].
  intros Hover names. apply checkComplete_cancel in Hover.
  assert (Hsize : (size c <= size (Lb.sawAll names c))%nat).
  { rewrite <- !(size_dom (D := gset string)), dom_sawAll.
    apply subseteq_size, union_subseteq_r. }
  split.
  - apply checkComplete_cancel. lia.
  - rewrite checkComplete_nil. lia.
Qed.

End LbFacts.

Lemma sawAll_counts_witness :
  Lb.sawAll ["c1"; "c2"; "c1"] (empty : gmap string Z) !! "c1" = Some 2.
Proof.
  exact (sawAll_counts ["c1"; "c2"; "c1"] "c1" ltac:(simpl; lia)).
Defined.

Lemma checkComplete_passes_iff_witness :
  fst (Lb.checkComplete 2
         (Lb.sawAll ["c1"; "c2"; "c1"; "c2"] (empty : gmap string Z)))
  = None.
Proof.
  apply (checkComplete_passes_iff 2 ["c1"; "c2"; "c1"; "c2"]
           ltac:(simpl; lia)).
  split; [vm_compute; reflexivity|].
  intros n Hin.
  repeat (apply elem_of_cons in Hin as [->|Hin]; [vm_compute; lia|]).
  inversion Hin.
Defined.

Lemma overshoot_is_final_witness :
  snd (Lb.checkComplete 1
         (Lb.sawAll ["c3"] (Lb.sawAll ["c1"; "c2"] (empty : gmap string Z))))
  = true.
Proof.
  apply (proj2 (overshoot_is_final 1
                  (Lb.sawAll ["c1"; "c2"] (empty : gmap string Z)))).
  vm_compute. reflexivity.
Defined.
